(** * Loan approval service: evaluation engine and record-store migration

    A shallow embedding of [app.py]: the EMI calculator ([calculate_emi]),
    the rate model ([base_interest_rate]), the scoring and decision engine
    ([evaluate_application]), the schema migrator
    ([migrate_csv_if_needed]), the record store as a submission writes it
    and the pages read it ([submit], [read_all_applications]) and what the
    reporting pages compute ([dashboard], [approved], [rejected],
    [stats]), followed by the properties proved about them.

    Python values are modelled as the program has them: [int] as [Z],
    [float] as IEEE-754 binary64 (Rocq's primitive floats), [str] as
    [string] (text is taken to be ASCII, one character per byte), [None]
    as a constructor of its own, exceptions as the [Raise] branch of a
    result type. *)

From Stdlib Require Import ZArith Bool List String Ascii Lia.
From Stdlib Require Import Floats.
Import ListNotations.

#[local] Set Warnings "-inexact-float".

Local Open Scope string_scope.
Local Open Scope Z_scope.

(* ------------------------------------------------------------------ *)
(** ** Python's dynamic values and exceptions *)

Inductive exn : Set :=
| TypeError
| ValueError
| OverflowError
| ZeroDivisionError
| CsvError.

Inductive result (A : Type) : Type :=
| Ok (a : A)
| Raise (e : exn).

Arguments Ok {A} a.
Arguments Raise {A} e.

Definition bind {A B : Type} (m : result A) (k : A -> result B) : result B :=
  match m with
  | Ok a => k a
  | Raise e => Raise e
  end.

Notation "x <- m ;; k" := (bind m (fun x => k))
  (at level 61, m at next level, right associativity).

Inductive pyval : Set :=
| PyNone
| PyStr (s : string)
| PyInt (z : Z)
| PyFloat (f : float).

(* ------------------------------------------------------------------ *)
(** ** Binary64 helpers *)

Module F64.

(** Nearest binary64 (ties to even) of the rational [p / q], with sign
    [s]; the quotient is taken with at least 55 significant bits and the
    position of the remainder against the half is handed to the rounding
    of the format. *)
Definition round_ratio (s : bool) (p q : positive) : spec_float :=
  let k := Z.max 0 (Zdigits2 (Zpos q) + 55 - Zdigits2 (Zpos p)) in
  let num := Zpos p * 2 ^ k in
  let m := num / Zpos q in
  let r := num mod Zpos q in
  let loc := if r =? 0 then loc_Exact else loc_Inexact (2 * r ?= Zpos q) in
  binary_round_aux prec emax s m (- k) loc.

(** Nearest binary64 of an integer. *)
Definition round_Z (z : Z) : spec_float := binary_normalize prec emax z 0 false.

Definition of_Z (z : Z) : float := SF2Prim (round_Z z).

(** Integer nearest to [n / d] ([d > 0], [n >= 0]), ties to even. *)
Definition div_half_even (n d : Z) : Z :=
  let q := n / d in
  let r := n mod d in
  match 2 * r ?= d with
  | Lt => q
  | Gt => q + 1
  | Eq => if Z.even q then q else q + 1
  end.

(** Truncation toward zero of a finite float. *)
Definition trunc (x : float) : option Z :=
  match Prim2SF x with
  | S754_zero _ => Some 0
  | S754_finite s m e =>
      let a := if 0 <=? e then Zpos m * 2 ^ e else Zpos m / 2 ^ (- e) in
      Some (if s then - a else a)
  | S754_infinity _ | S754_nan => None
  end.

(** The greatest integer at or below a finite float. *)
Definition floor (x : float) : option Z :=
  match Prim2SF x with
  | S754_zero _ => Some 0
  | S754_finite s m e =>
      let v := if s then Zneg m else Zpos m in
      Some (if 0 <=? e then v * 2 ^ e else v / 2 ^ (- e))
  | S754_infinity _ | S754_nan => None
  end.

End F64.

(* ------------------------------------------------------------------ *)
(** ** Built-in functions of Python used by the program *)

(** [round(x, 2)] on a float: infinities and NaN round to themselves; a
    finite value is rounded, on its exact binary value and ties to even, to
    the nearest multiple of 1/100, and that decimal is converted back to the
    nearest float. The sign is kept, also on a zero result. *)
Definition py_round2 (x : float) : float :=
  match Prim2SF x with
  | S754_finite s m e =>
      let hundredths :=
        if 0 <=? e then Zpos m * 2 ^ e * 100
        else F64.div_half_even (Zpos m * 100) (2 ^ (- e)) in
      match hundredths with
      | Zpos h => SF2Prim (F64.round_ratio s h 100)
      | _ => if s then neg_zero else zero
      end
  | _ => x
  end.

(** [int(x)] on a float. *)
Definition py_int_of_float (x : float) : result Z :=
  if is_nan x then Raise ValueError
  else match F64.trunc x with
       | Some z => Ok z
       | None => Raise OverflowError
       end.

(** Conversion of an [int] to [float], as [float(n)] and the operators
    that mix the two do it: the nearest float, ties to even, and
    [OverflowError] from the first magnitude that rounds to [2^1024], which
    is [2^1024 - 2^970]. *)
Definition float_overflow_threshold : Z := 2 ^ 1024 - 2 ^ 970.

Definition py_float_of_int (z : Z) : result float :=
  if float_overflow_threshold <=? Z.abs z then Raise OverflowError
  else Ok (F64.of_Z z).

(* ------------------------------------------------------------------ *)
(** ** Text scanning: what [float(s)] and [int(s)] accept *)

Module Scan.

Definition code (c : ascii) : N := N_of_ascii c.

(** ASCII white space: tab, line feed, vertical tab, form feed, carriage
    return and space. *)
Definition is_space (c : ascii) : bool :=
  let n := code c in ((9 <=? n) && (n <=? 13) || (n =? 32))%N.

Definition digit_of (c : ascii) : option Z :=
  let n := code c in
  if ((48 <=? n) && (n <=? 57))%N then Some (Z.of_N n - 48) else None.

Definition is_digit (c : ascii) : bool :=
  match digit_of c with Some _ => true | None => false end.

(** [str.lower()] on one ASCII character. *)
Definition lower_char (c : ascii) : ascii :=
  let n := code c in
  if ((65 <=? n) && (n <=? 90))%N then ascii_of_N (n + 32) else c.

Fixpoint lower (s : string) : string :=
  match s with
  | EmptyString => EmptyString
  | String c s' => String (lower_char c) (lower s')
  end.

Fixpoint lstrip (l : list ascii) : list ascii :=
  match l with
  | c :: l' => if is_space c then lstrip l' else l
  | [] => []
  end.

Definition strip (l : list ascii) : list ascii :=
  rev (lstrip (rev (lstrip l))).

(** Underscores are accepted only between two digits; they are dropped.
    [prev] is the character before the head of [l]. *)
Fixpoint drop_underscores (prev : option ascii) (l : list ascii)
  : option (list ascii) :=
  let prev_is_digit := match prev with Some p => is_digit p | None => false end in
  let prev_is_underscore :=
    match prev with Some p => Ascii.eqb p "_" | None => false end in
  match l with
  | [] => if prev_is_underscore then None else Some []
  | c :: l' =>
      if Ascii.eqb c "_" then
        if prev_is_digit then drop_underscores (Some c) l' else None
      else if prev_is_underscore && negb (is_digit c) then None
      else option_map (cons c) (drop_underscores (Some c) l')
  end.

(** An optional sign: [true] for a minus. *)
Definition sign (l : list ascii) : bool * list ascii :=
  match l with
  | c :: l' =>
      if Ascii.eqb c "-" then (true, l')
      else if Ascii.eqb c "+" then (false, l')
      else (false, l)
  | [] => (false, [])
  end.

(** The longest run of decimal digits at the head of [l]: its value on
    top of [acc], how many digits it has, and what follows. *)
Fixpoint digits (acc count : Z) (l : list ascii) : Z * Z * list ascii :=
  match l with
  | c :: l' =>
      match digit_of c with
      | Some d => digits (10 * acc + d) (count + 1) l'
      | None => (acc, count, l)
      end
  | [] => (acc, count, [])
  end.

(** An optional exponent part [e], [E] with an optional sign and at least
    one digit; [None] when an exponent is begun and not completed. *)
Definition exponent (l : list ascii) : option (Z * list ascii) :=
  match l with
  | c :: l' =>
      if Ascii.eqb (lower_char c) "e" then
        let '(neg, l1) := sign l' in
        let '(e, n, l2) := digits 0 0 l1 in
        if n =? 0 then None else Some (if neg then - e else e, l2)
      else Some (0, l)
  | [] => Some (0, [])
  end.

(** The binary64 nearest to [(-1)^neg * d * 10^x]; too large a magnitude
    gives an infinity. *)
Definition decimal_to_float (neg : bool) (d x : Z) : float :=
  match d with
  | Zpos p =>
      if 0 <=? x then
        match (Zpos p * 10 ^ x)%Z with
        | Zpos n => SF2Prim (binary_normalize prec emax (if neg then Zneg n else Zpos n) 0 false)
        | _ => zero
        end
      else SF2Prim (F64.round_ratio neg p (Z.to_pos (10 ^ (- x))))
  | _ => if neg then neg_zero else zero
  end.

(** [float(s)] on text. *)
Definition float_of_string (s : string) : option float :=
  match drop_underscores None (strip (list_ascii_of_string s)) with
  | None => None
  | Some l =>
      let '(neg, l1) := sign l in
      let word := lower (string_of_list_ascii l1) in
      if (word =? "inf")%string || (word =? "infinity")%string then
        Some (if neg then neg_infinity else infinity)
      else if (word =? "nan")%string then Some nan
      else
        let '(ip, ni, l2) := digits 0 0 l1 in
        let '(m, nf, l3) :=
          match l2 with
          | c :: l2' =>
              if Ascii.eqb c "." then
                let '(m, n, l3) := digits ip 0 l2' in (m, n, l3)
              else (ip, 0, l2)
          | [] => (ip, 0, [])
          end in
        if ni + nf =? 0 then None
        else
          match exponent l3 with
          | Some (e, []) => Some (decimal_to_float neg m (e - nf))
          | _ => None
          end
  end.

(** [int(s)] on text (base ten). *)
Definition int_of_string (s : string) : option Z :=
  match drop_underscores None (strip (list_ascii_of_string s)) with
  | None => None
  | Some l =>
      let '(neg, l1) := sign l in
      match digits 0 0 l1 with
      | (v, n, []) => if n =? 0 then None else Some (if neg then - v else v)
      | _ => None
      end
  end.

End Scan.

(** [float(x)] *)
Definition py_float (x : pyval) : result float :=
  match x with
  | PyFloat f => Ok f
  | PyInt z => py_float_of_int z
  | PyStr s =>
      match Scan.float_of_string s with
      | Some f => Ok f
      | None => Raise ValueError
      end
  | PyNone => Raise TypeError
  end.

(** [int(x)] *)
Definition py_int (x : pyval) : result Z :=
  match x with
  | PyInt z => Ok z
  | PyFloat f => py_int_of_float f
  | PyStr s =>
      match Scan.int_of_string s with
      | Some z => Ok z
      | None => Raise ValueError
      end
  | PyNone => Raise TypeError
  end.

(** Truth value of an object, as [if x], [x or y] test it. *)
Definition truthy (x : pyval) : bool :=
  match x with
  | PyNone => false
  | PyStr s => negb (s =? "")%string
  | PyInt z => negb (z =? 0)
  | PyFloat f => negb (f =? 0)%float
  end.

(** [x or y] *)
Definition py_or (x y : pyval) : pyval := if truthy x then x else y.

(* ------------------------------------------------------------------ *)
(** ** Float operators that can raise *)

(** The C library's [pow]: its result and the [errno] it leaves. How the
    last bits of the result are rounded differs between platforms, so the
    function is an interface of the development, not a definition. *)
Inductive c_errno : Set := ENONE | ERANGE | EDOM.

Class LibM : Type := { c_pow : float -> float -> float * c_errno }.

(** [x / y] on floats. *)
Definition py_truediv (x y : float) : result float :=
  if (y =? 0)%float then Raise ZeroDivisionError else Ok (x / y)%float.

(** [x / n] for a float and an int: the int is converted to float first,
    and that float is zero exactly when [n] is. *)
Definition py_truediv_int (x : float) (n : Z) : result float :=
  d <- py_float_of_int n ;;
  if n =? 0 then Raise ZeroDivisionError else Ok (x / d)%float.

(** [x ** n] for a float [x] and an int [n]: the exponent is converted to
    float, the special cases are settled before the platform's [pow] is
    asked, and a range error of [pow] is an [OverflowError]. *)
Definition py_pow `{LibM} (x : float) (n : Z) : result float :=
  iw <- py_float_of_int n ;;
  let iw_is_odd :=
    match F64.trunc iw with Some k => Z.odd k | None => false end in
  if (iw =? 0)%float then Ok 1%float
  else if is_nan x then Ok x
  else if is_infinity x then
    if (0 <? iw)%float then Ok (if iw_is_odd then x else abs x)
    else Ok (if iw_is_odd && get_sign x then neg_zero else zero)
  else if (x =? 0)%float then
    if (iw <? 0)%float then Raise ZeroDivisionError
    else Ok (if iw_is_odd then x else zero)
  else
    let negate_result := (x <? 0)%float && iw_is_odd in
    let iv := if (x <? 0)%float then (- x)%float else x in
    if (iv =? 1)%float then Ok (if negate_result then (-1)%float else 1%float)
    else
      let '(ix, errno) := c_pow iv iw in
      let errno :=
        match errno with
        | ENONE => if is_infinity ix then ERANGE else ENONE
        | ERANGE => if (ix =? 0)%float then ENONE else ERANGE
        | EDOM => EDOM
        end in
      let ix := if negate_result then (- ix)%float else ix in
      match errno with
      | ENONE => Ok ix
      | ERANGE => Raise OverflowError
      | EDOM => Raise ValueError
      end.

(* ------------------------------------------------------------------ *)
(** ** Configuration *)

(** A [dict] with text keys, read with [get]. *)
Fixpoint dict_get {V : Type} (d : list (string * V)) (k : string) : option V :=
  match d with
  | [] => None
  | (k', v) :: d' => if (k' =? k)%string then Some v else dict_get d' k
  end.

Definition LOAN_LIMITS : list (string * Z) :=
  [ ("Home", 5000000);
    ("Personal", 500000);
    ("Car", 2000000);
    ("Education", 2000000);
    ("Business", 3000000) ].

Definition DEFAULT_TENURE_YEARS : Z := 5.

(* ------------------------------------------------------------------ *)
(** ** EMI calculator *)

Definition calculate_emi `{LibM} (principal annual_rate tenure_years : pyval)
  : result float :=
  let coerced :=
    principal <- py_float principal ;;
    annual_rate <- py_float annual_rate ;;
    tenure_years <- py_float tenure_years ;;
    Ok (principal, annual_rate, tenure_years) in
  match coerced with
  | Raise TypeError | Raise ValueError => Ok 0%float
  | Raise e => Raise e
  | Ok (principal, annual_rate, tenure_years) =>
      n <- py_int_of_float (tenure_years * 12)%float ;;
      if n <=? 0 then Ok 0%float
      else
        let r := (annual_rate / (12 * 100))%float in
        if (r =? 0)%float then
          q <- py_truediv_int principal n ;;
          Ok (py_round2 q)
        else
          growth <- py_pow (1 + r)%float n ;;
          growth' <- py_pow (1 + r)%float n ;;
          emi <- py_truediv (principal * r * growth)%float (growth' - 1)%float ;;
          Ok (py_round2 emi)
  end.

(* ------------------------------------------------------------------ *)
(** ** Rate model *)

Definition base_rates : list (string * float) :=
  [ ("Home", 5.2%float);
    ("Personal", 7.5%float);
    ("Car", 7.0%float);
    ("Education", 4.8%float);
    ("Business", 8.5%float) ].

(** [max(a, b)]: the first argument unless the second is greater. *)
Definition py_max (a b : float) : float := if (a <? b)%float then b else a.

Definition base_interest_rate (loan_type : string) (credit_score : Z) : float :=
  let rate :=
    match dict_get base_rates loan_type with
    | Some r => r
    | None => 10.0%float
    end in
  let rate :=
    if 780 <=? credit_score then (rate - 0.7)%float
    else if 730 <=? credit_score then (rate - 0.4)%float
    else if 680 <=? credit_score then (rate - 0.1)%float
    else if credit_score <? 600 then (rate + 1.0)%float
    else rate in
  py_round2 (py_max rate 5.0%float).

(* ------------------------------------------------------------------ *)
(** ** Text helpers of the engine *)

(** [needle in hay] on text. *)
Fixpoint contains (needle hay : string) : bool :=
  String.prefix needle hay
  || match hay with
     | EmptyString => false
     | String _ hay' => contains needle hay'
     end.

(** [l.append(x)] *)
Definition append {A : Type} (l : list A) (x : A) : list A := (l ++ [x])%list.

(** [" ".join(parts)] *)
Fixpoint join (sep : string) (parts : list string) : string :=
  match parts with
  | [] => ""
  | [p] => p
  | p :: rest => p ++ sep ++ join sep rest
  end.

(** Decimal digits of a non-negative integer, least significant first. *)
Fixpoint digits_rev (fuel : nat) (z : Z) : list ascii :=
  match fuel with
  | O => []
  | S fuel' =>
      let d := ascii_of_N (Z.to_N (48 + z mod 10)) in
      if z <? 10 then [d] else d :: digits_rev fuel' (z / 10)
  end.

(** [str(z)] on an int. *)
Definition str_of_int (z : Z) : string :=
  let body := rev (digits_rev (S (Z.to_nat (Z.log2 (Z.abs z)))) (Z.abs z)) in
  string_of_list_ascii (if z <? 0 then "-"%char :: body else body).

(** A comma after every third digit, counted from the least significant. *)
Fixpoint group3 (k : nat) (ds : list ascii) : list ascii :=
  match ds with
  | [] => []
  | d :: ds' =>
      match k, ds' with
      | 2%nat, _ :: _ => d :: ","%char :: group3 0 ds'
      | _, _ => d :: group3 (S k) ds'
      end
  end.

(** [f"{z:,}"] on an int. *)
Definition format_thousands (z : Z) : string :=
  let body :=
    rev (group3 0 (digits_rev (S (Z.to_nat (Z.log2 (Z.abs z)))) (Z.abs z))) in
  string_of_list_ascii (if z <? 0 then "-"%char :: body else body).

(* ------------------------------------------------------------------ *)
(** ** Scoring and decision engine *)

Inductive decision_t : Set := Approved | Rejected.

Definition decision_text (d : decision_t) : string :=
  match d with
  | Approved => "Approved"
  | Rejected => "Rejected"
  end.

(** [x > z] for a float and an int: Python compares the two exactly. *)
Definition float_gt_int (x : float) (z : Z) : bool :=
  match Prim2SF x with
  | S754_nan => false
  | S754_infinity s => negb s
  | S754_zero _ => z <? 0
  | S754_finite s m e =>
      let v := if s then Zneg m else Zpos m in
      if 0 <=? e then z <? v * 2 ^ e else z * 2 ^ (- e) <? v
  end.

(** The applicant once the numeric fields are coerced (the first lines of
    [evaluate_application]). *)
Record applicant : Set := {
  ap_name : pyval;
  ap_age : Z;
  ap_income : float;
  ap_loan_amount : float;
  ap_loan_type : string;
  ap_employment : string;
  ap_existing_debt : float;
  ap_tenure_years : pyval
}.

Definition coerce_applicant (name age income loan_amount : pyval)
    (loan_type employment : string) (existing_debt tenure_years : pyval)
  : result applicant :=
  age <- py_int age ;;
  income <- py_float income ;;
  loan_amount <- py_float loan_amount ;;
  existing_debt <- py_float existing_debt ;;
  tenure_years <-
    (if truthy tenure_years
     then (t <- py_float tenure_years ;; Ok (PyFloat t))
     else Ok (PyInt DEFAULT_TENURE_YEARS)) ;;
  Ok {| ap_name := name; ap_age := age; ap_income := income;
        ap_loan_amount := loan_amount; ap_loan_type := loan_type;
        ap_employment := employment; ap_existing_debt := existing_debt;
        ap_tenure_years := tenure_years |}.

(** The locals of [evaluate_application] when the final decision rules
    have run. [as_debt_to_income] is the unrounded ratio; the [int] 0 the
    program uses for a non-positive income is the float zero here, which
    compares alike. *)
Record assessment : Set := {
  as_max_allowed : option Z;
  as_exceeded_limit : bool;
  as_debt_to_income : float;
  as_credit_score : Z;
  as_decision : decision_t;
  as_remarks : list string
}.

Definition assess (a : applicant) : assessment :=
  let age := ap_age a in
  let income := ap_income a in
  let loan_amount := ap_loan_amount a in
  let loan_type := ap_loan_type a in
  let existing_debt := ap_existing_debt a in
  let remarks : list string := [] in
  let exceeded_limit := false in
  (* category-wise loan limit *)
  let max_allowed := dict_get LOAN_LIMITS loan_type in
  let '(exceeded_limit, remarks) :=
    match max_allowed with
    | Some limit =>
        if float_gt_int loan_amount limit then
          (true,
           append remarks
             ("Requested amount exceeds maximum limit for " ++ loan_type
              ++ " loans (₹" ++ format_thousands limit ++ ")."))
        else (exceeded_limit, remarks)
    | None => (exceeded_limit, remarks)
    end in
  (* debt-to-income ratio; the guard keeps the divisor away from zero
     ([total_debt], the sum of debt and amount, is computed here and never
     read) *)
  let debt_to_income :=
    if (0 <? income)%float then (existing_debt / income * 100)%float
    else 0%float in
  let credit_score := 650 in
  (* DTI factor *)
  let '(credit_score, remarks) :=
    if (debt_to_income <? 20)%float then
      (credit_score + 80, append remarks "Excellent debt-to-income ratio.")
    else if (debt_to_income <? 35)%float then
      (credit_score + 40, append remarks "Good debt-to-income ratio.")
    else if (debt_to_income <? 50)%float then
      (credit_score + 10, append remarks "Moderate debt-to-income ratio.")
    else
      (credit_score - 60, append remarks "High debt-to-income ratio.") in
  (* employment type *)
  let emp_lower := Scan.lower (ap_employment a) in
  let '(credit_score, remarks) :=
    if contains "salaried" emp_lower || contains "employee" emp_lower then
      (credit_score + 30, append remarks "Stable salaried employment.")
    else if contains "self" emp_lower then
      (credit_score + 10, append remarks "Self-employed.")
    else if contains "unemployed" emp_lower then
      (credit_score - 40, append remarks "Currently unemployed.")
    else (credit_score, remarks) in
  (* loan-to-income relationship *)
  let '(credit_score, remarks) :=
    if (loan_amount <=? income * 5)%float then
      (credit_score + 20,
       append remarks "Requested amount is reasonable compared to income.")
    else if (income * 10 <? loan_amount)%float then
      (credit_score - 30,
       append remarks "Requested amount is high compared to income.")
    else (credit_score, remarks) in
  (* age band *)
  let '(credit_score, remarks) :=
    if (25 <=? age) && (age <=? 55) then (credit_score + 10, remarks)
    else if age <? 21 then
      (credit_score - 20,
       append remarks "Very young age – limited credit history.")
    else if 60 <? age then
      (credit_score - 15, append remarks "Near retirement age.")
    else (credit_score, remarks) in
  (* final decision rules *)
  let '(decision, remarks) :=
    if exceeded_limit then
      (Rejected, append remarks "Application rejected due to category limit.")
    else if (700 <=? credit_score) && (debt_to_income <=? 45)%float then
      (Approved, append remarks "Credit score and DTI within acceptable range.")
    else
      (Rejected, append remarks "Score or DTI outside acceptable range.") in
  {| as_max_allowed := max_allowed;
     as_exceeded_limit := exceeded_limit;
     as_debt_to_income := debt_to_income;
     as_credit_score := credit_score;
     as_decision := decision;
     as_remarks := remarks |}.

(** The dictionary [evaluate_application] returns. *)
Record decision_data : Set := {
  name : pyval;
  age : Z;
  income : float;
  loan_amount : float;
  loan_type : string;
  employment : string;
  existing_debt : float;
  tenure_years : pyval;
  debt_to_income : pyval;
  credit_score : Z;
  decision : decision_t;
  interest_rate : float;
  emi : float;
  remarks : string;
  max_allowed : option Z
}.

(** Interest and EMI (EMI only if approved), then the record. *)
Definition price `{LibM} (a : applicant) (s : assessment) : result decision_data :=
  let interest_rate := base_interest_rate (ap_loan_type a) (as_credit_score s) in
  emi <-
    match as_decision s with
    | Approved =>
        calculate_emi (PyFloat (ap_loan_amount a)) (PyFloat interest_rate)
          (ap_tenure_years a)
    | Rejected => Ok 0%float
    end ;;
  let remarks_text := join " " (as_remarks s) in
  Ok {| name := ap_name a;
        age := ap_age a;
        income := ap_income a;
        loan_amount := ap_loan_amount a;
        loan_type := ap_loan_type a;
        employment := ap_employment a;
        existing_debt := ap_existing_debt a;
        tenure_years := ap_tenure_years a;
        debt_to_income :=
          if (0 <? ap_income a)%float
          then PyFloat (py_round2 (as_debt_to_income s))
          else PyInt 0;
        credit_score := as_credit_score s;
        decision := as_decision s;
        interest_rate := interest_rate;
        emi := emi;
        remarks := remarks_text;
        max_allowed := as_max_allowed s |}.

Definition evaluate_application `{LibM} (name age income loan_amount : pyval)
    (loan_type employment : string) (existing_debt tenure_years : pyval)
  : result decision_data :=
  a <- coerce_applicant name age income loan_amount loan_type employment
         existing_debt tenure_years ;;
  price a (assess a).

(* ------------------------------------------------------------------ *)
(** ** [repr] of a float: the shortest decimal that reads back as the
    same float, laid out as Python prints it *)

Module Repr.

(** [m * 2^e < 10^t] *)
Definition lt_pow10 (m : positive) (e t : Z) : bool :=
  Zpos m * (if 0 <=? e then 2 ^ e else 1) * (if t <? 0 then 10 ^ (- t) else 1)
  <? (if 0 <=? t then 10 ^ t else 1) * (if e <? 0 then 2 ^ (- e) else 1).

Fixpoint first_pow10_above (fuel : nat) (m : positive) (e t : Z) : Z :=
  match fuel with
  | O => t
  | S fuel' =>
      if lt_pow10 m e t then t else first_pow10_above fuel' m e (t + 1)
  end.

(** Position of the decimal point: the least [t] with [m * 2^e < 10^t]. *)
Definition decimal_point (m : positive) (e : Z) : Z :=
  let estimate := (Zdigits2 (Zpos m) + e - 1) * 30103 / 100000 in
  first_pow10_above 8 m e (estimate - 2).

(** The integers just below and above [m * 2^e / 10^q], and on which side
    of their middle the value is ([Eq] with a zero remainder flagged by the
    boolean). *)
Definition scaled (m : positive) (e q : Z) : Z * bool * comparison :=
  let num := Zpos m * (if 0 <=? e then 2 ^ e else 1) * (if q <? 0 then 10 ^ (- q) else 1) in
  let den := (if 0 <=? q then 10 ^ q else 1) * (if e <? 0 then 2 ^ (- e) else 1) in
  (num / den, num mod den =? 0, 2 * (num mod den) ?= den).

Definition reads_back (x : float) (c q : Z) : bool :=
  (Scan.decimal_to_float false c q =? x)%float.

(** The [k]-digit decimal for [x = m * 2^e] that reads back as [x], if
    there is one: the nearer of the two neighbours when both do. *)
Definition candidate (x : float) (m : positive) (e k : Z) : option (Z * Z) :=
  let q := decimal_point m e - k in
  let '(lo, exact, side) := scaled m e q in
  if exact then Some (lo, q)
  else
    let hi := lo + 1 in
    match reads_back x lo q, reads_back x hi q with
    | true, false => Some (lo, q)
    | false, true => Some (hi, q)
    | false, false => None
    | true, true =>
        match side with
        | Lt => Some (lo, q)
        | Gt => Some (hi, q)
        | Eq => Some (if Z.even lo then lo else hi, q)
        end
    end.

Fixpoint shortest (fuel : nat) (x : float) (m : positive) (e k : Z) : Z * Z :=
  match fuel with
  | O => (fst (fst (scaled m e (decimal_point m e - k))), decimal_point m e - k)
  | S fuel' =>
      match candidate x m e k with
      | Some cq => cq
      | None => shortest fuel' x m e (k + 1)
      end
  end.

Fixpoint strip_zeros (ds_rev : list ascii) (q : Z) : list ascii * Z :=
  match ds_rev with
  | d :: ds' =>
      if Ascii.eqb d "0" then
        match ds' with
        | [] => (ds_rev, q)
        | _ => strip_zeros ds' (q + 1)
        end
      else (ds_rev, q)
  | [] => ([], q)
  end.

Definition zeros (n : Z) : list ascii := repeat "0"%char (Z.to_nat n).

Definition two_digits (z : Z) : list ascii :=
  let ds := list_ascii_of_string (str_of_int z) in
  if z <? 10 then "0"%char :: ds else ds.

(** The digits [ds] with the decimal point after the first [p] of them. *)
Definition layout (ds : list ascii) (p : Z) : list ascii :=
  let n := Z.of_nat (List.length ds) in
  if (p <=? -4) || (16 <? p) then
    let mantissa :=
      match ds with
      | d :: r :: rest => d :: "."%char :: r :: rest
      | _ => ds
      end in
    (mantissa ++ "e"%char :: (if p - 1 <? 0 then "-"%char else "+"%char)
       :: two_digits (Z.abs (p - 1)))%list
  else if p <=? 0 then ("0"%char :: "."%char :: zeros (- p) ++ ds)%list
  else if p <? n then
    (firstn (Z.to_nat p) ds ++ "."%char :: skipn (Z.to_nat p) ds)%list
  else (ds ++ zeros (p - n) ++ ["."%char; "0"%char])%list.

Definition repr (x : float) : string :=
  match Prim2SF x with
  | S754_nan => "nan"
  | S754_infinity s => if s then "-inf" else "inf"
  | S754_zero s => if s then "-0.0" else "0.0"
  | S754_finite s m e =>
      let '(c, q) := shortest 17 (abs x) m e 1 in
      let '(ds_rev, q) :=
        strip_zeros (rev (list_ascii_of_string (str_of_int c))) q in
      let ds := rev ds_rev in
      let body := layout ds (q + Z.of_nat (List.length ds)) in
      string_of_list_ascii (if s then "-"%char :: body else body)
  end.

End Repr.

(** [str(x)] *)
Definition py_str (x : pyval) : string :=
  match x with
  | PyNone => "None"
  | PyStr s => s
  | PyInt z => str_of_int z
  | PyFloat f => Repr.repr f
  end.

(* ------------------------------------------------------------------ *)
(** ** The [csv] module in its default dialect (excel): the delimiter is
    a comma, the quote character is the double quote (code 34) and is
    doubled inside a quoted field, there is no escape character, parsing is
    not strict, the line terminator is CR LF, quoting is minimal *)

Module Csv.

Definition LF : ascii := "010"%char.
Definition CR : ascii := "013"%char.
Definition delimiter : ascii := ","%char.
Definition quotechar : ascii := "034"%char.

Definition is_newline (c : ascii) : bool := Ascii.eqb c LF || Ascii.eqb c CR.

(** *** Lines of a text file opened with [newline=""]: a line ends after
    LF, after CR LF, or after a CR that no LF follows; the ending stays on
    the line. *)
Fixpoint split_lines (cur : list ascii) (s : string) : list (list ascii) :=
  match s with
  | EmptyString => match cur with [] => [] | _ => [cur] end
  | String c s' =>
      if Ascii.eqb c LF then (cur ++ [c])%list :: split_lines [] s'
      else if Ascii.eqb c CR then
        match s' with
        | String c' s'' =>
            if Ascii.eqb c' LF then (cur ++ [c; c'])%list :: split_lines [] s''
            else (cur ++ [c])%list :: split_lines [] s'
        | EmptyString => (cur ++ [c])%list :: split_lines [] s'
        end
      else split_lines (cur ++ [c])%list s'
  end.

(** *** The reader's state machine *)

Inductive ParserState : Set :=
| START_RECORD
| START_FIELD
| IN_FIELD
| IN_QUOTED_FIELD
| QUOTE_IN_QUOTED_FIELD
| EAT_CRNL.

Record ReaderObj : Set := {
  state : ParserState;
  fields : list string;
  field : list ascii
}.

Definition field_limit : Z := 131072.

Definition parse_reset : ReaderObj :=
  {| state := START_RECORD; fields := []; field := [] |}.

Definition set_state (self : ReaderObj) (st : ParserState) : ReaderObj :=
  {| state := st; fields := fields self; field := field self |}.

Definition parse_save_field (self : ReaderObj) : ReaderObj :=
  {| state := state self;
     fields := append (fields self) (string_of_list_ascii (field self));
     field := [] |}.

Definition parse_add_char (self : ReaderObj) (c : ascii) : result ReaderObj :=
  if field_limit <=? Z.of_nat (List.length (field self)) then Raise CsvError
  else Ok {| state := state self; fields := fields self;
             field := append (field self) c |}.

(** One step of the machine on a character of the line, or on the end of
    the line ([None]). *)
Definition parse_process_char (self : ReaderObj) (c : option ascii)
  : result ReaderObj :=
  let at_line_end :=
    match c with Some ch => is_newline ch | None => true end in
  let after_line_end :=
    match c with Some _ => EAT_CRNL | None => START_RECORD end in
  let start_field (self : ReaderObj) : result ReaderObj :=
    match c with
    | Some ch =>
        if is_newline ch then
          Ok (set_state (parse_save_field self) after_line_end)
        else if Ascii.eqb ch quotechar then Ok (set_state self IN_QUOTED_FIELD)
        else if Ascii.eqb ch delimiter then Ok (parse_save_field self)
        else self <- parse_add_char self ch ;; Ok (set_state self IN_FIELD)
    | None => Ok (set_state (parse_save_field self) after_line_end)
    end in
  match state self with
  | START_RECORD =>
      match c with
      | None => Ok self
      | Some ch =>
          if is_newline ch then Ok (set_state self EAT_CRNL)
          else start_field (set_state self START_FIELD)
      end
  | START_FIELD => start_field self
  | IN_FIELD =>
      match c with
      | Some ch =>
          if is_newline ch then
            Ok (set_state (parse_save_field self) after_line_end)
          else if Ascii.eqb ch delimiter then
            Ok (set_state (parse_save_field self) START_FIELD)
          else parse_add_char self ch
      | None => Ok (set_state (parse_save_field self) after_line_end)
      end
  | IN_QUOTED_FIELD =>
      match c with
      | None => Ok self
      | Some ch =>
          if Ascii.eqb ch quotechar then Ok (set_state self QUOTE_IN_QUOTED_FIELD)
          else parse_add_char self ch
      end
  | QUOTE_IN_QUOTED_FIELD =>
      match c with
      | Some ch =>
          if Ascii.eqb ch quotechar then
            self <- parse_add_char self ch ;; Ok (set_state self IN_QUOTED_FIELD)
          else if Ascii.eqb ch delimiter then
            Ok (set_state (parse_save_field self) START_FIELD)
          else if is_newline ch then
            Ok (set_state (parse_save_field self) after_line_end)
          else self <- parse_add_char self ch ;; Ok (set_state self IN_FIELD)
      | None => Ok (set_state (parse_save_field self) after_line_end)
      end
  | EAT_CRNL =>
      match c with
      | Some ch => if is_newline ch then Ok self else Raise CsvError
      | None => Ok (set_state self START_RECORD)
      end
  end.

(** The characters of one line, then its end. *)
Fixpoint feed_line (self : ReaderObj) (line : list ascii) : result ReaderObj :=
  match line with
  | [] => parse_process_char self None
  | c :: line' =>
      self <- parse_process_char self (Some c) ;; feed_line self line'
  end.

Definition is_start_record (st : ParserState) : bool :=
  match st with START_RECORD => true | _ => false end.

Definition is_in_quoted_field (st : ParserState) : bool :=
  match st with IN_QUOTED_FIELD => true | _ => false end.

(** What iterating a reader over the lines yields: the records in order
    and, when the iteration stops on an error, that error. A record is
    complete when a line ends with the machine back at [START_RECORD]; when
    the lines run out inside a record, the record is yielded if a field is
    under way or a quoted field is open. *)
Fixpoint records (self : ReaderObj) (lines : list (list ascii))
  : list (list string) * option exn :=
  match lines with
  | [] =>
      if negb (Z.of_nat (List.length (field self)) =? 0)
         || is_in_quoted_field (state self)
      then ([fields (parse_save_field self)], None)
      else ([], None)
  | line :: lines' =>
      match feed_line self line with
      | Raise e => ([], Some e)
      | Ok self' =>
          if is_start_record (state self') then
            let '(rest, e) := records parse_reset lines' in
            (fields self' :: rest, e)
          else records self' lines'
      end
  end.

(** [csv.reader(f)] over the text of a file. *)
Definition reader (text : string) : list (list string) * option exn :=
  records parse_reset (split_lines [] text).

(** *** [DictReader] *)

(** [d[k] = v] *)
Fixpoint dict_set {V : Type} (d : list (string * V)) (k : string) (v : V)
  : list (string * V) :=
  match d with
  | [] => [(k, v)]
  | (k', v') :: d' =>
      if (k' =? k)%string then (k, v) :: d' else (k', v') :: dict_set d' k v
  end.

(** One row as [DictReader] builds it: the fields under their column
    names, [None] under the names a short row leaves without a field.
    (Fields beyond the last name go under the key [None], which the
    program never reads.) *)
Fixpoint row_dict_rest (d : list (string * pyval)) (fieldnames : list string)
  : list (string * pyval) :=
  match fieldnames with
  | k :: fieldnames' => row_dict_rest (dict_set d k PyNone) fieldnames'
  | [] => d
  end.

Fixpoint row_dict (d : list (string * pyval)) (fieldnames row : list string)
  : list (string * pyval) :=
  match fieldnames, row with
  | k :: fieldnames', v :: row' =>
      row_dict (dict_set d k (PyStr v)) fieldnames' row'
  | _ :: _, [] => row_dict_rest d fieldnames
  | [], _ => d
  end.

Definition is_blank (row : list string) : bool :=
  match row with [] => true | _ => false end.

(** [list(csv.DictReader(f))]: the first record names the columns, blank
    records are skipped. *)
Definition DictReader (text : string) : result (list (list (string * pyval))) :=
  match reader text with
  | (_, Some e) => Raise e
  | ([], None) => Ok []
  | (fieldnames :: rows, None) =>
      Ok (map (row_dict [] fieldnames)
            (filter (fun row => negb (is_blank row)) rows))
  end.

(** *** The writer *)

(** A field as it goes into a record: a quote character is doubled, and
    the field goes between quotes when it holds a delimiter, a quote
    character or a character of the line terminator. *)
Fixpoint escape (cs : list ascii) : list ascii * bool :=
  match cs with
  | [] => ([], false)
  | c :: cs' =>
      let '(body, quoted) := escape cs' in
      if Ascii.eqb c quotechar then (c :: c :: body, true)
      else if Ascii.eqb c delimiter || is_newline c then (c :: body, true)
      else (c :: body, quoted)
  end.

Definition join_append (field : string) : list ascii :=
  let '(body, quoted) := escape (list_ascii_of_string field) in
  if quoted then (quotechar :: body ++ [quotechar])%list else body.

Fixpoint join_fields (fields : list string) : list ascii :=
  match fields with
  | [] => []
  | [f] => join_append f
  | f :: rest => (join_append f ++ delimiter :: join_fields rest)%list
  end.

(** A field's text: a [str] as it is, [None] as the empty text, any other
    object through [str]. *)
Definition field_text (v : pyval) : string :=
  match v with
  | PyStr s => s
  | PyNone => EmptyString
  | other => py_str other
  end.

(** [writer.writerow(row)]: the text it writes. A record that would be
    empty (one empty field) is written as a pair of quotes. *)
Definition writerow (row : list pyval) : string :=
  let record := join_fields (map field_text row) in
  let record :=
    match row, record with
    | _ :: _, [] => [quotechar; quotechar]
    | _, _ => record
    end in
  string_of_list_ascii (record ++ [CR; LF])%list.

(** [DictWriter(f, fieldnames).writerow(rowdict)]: a key that is no column
    is a [ValueError]; a missing column is written empty. *)
Definition DictWriter_writerow (fieldnames : list string)
    (rowdict : list (string * pyval)) : result string :=
  if existsb (fun kv => negb (existsb (String.eqb (fst kv)) fieldnames)) rowdict
  then Raise ValueError
  else
    Ok (writerow
          (map (fun k =>
                  match dict_get rowdict k with
                  | Some v => v
                  | None => PyStr EmptyString
                  end) fieldnames)).

(** [DictWriter(f, fieldnames).writeheader()] *)
Definition DictWriter_writeheader (fieldnames : list string) : string :=
  writerow (map PyStr fieldnames).

End Csv.

(* ------------------------------------------------------------------ *)
(** ** Schema migrator and record store *)

Definition NEW_HEADER : list string :=
  [ "Name"; "Age"; "Income"; "Loan_Amount"; "Loan_Type"; "Tenure_Years";
    "Employment"; "Existing_Debt"; "Debt_to_Income"; "Credit_Score";
    "InterestRate"; "EMI"; "Loan_Status"; "DateApplied"; "Remarks";
    "Decision" ].

(** The store: the text of [CSV_FILE], or [None] while the file does not
    exist. *)
Definition store : Set := option string.

(** [x in header] *)
Definition mem (x : string) (l : list string) : bool := existsb (String.eqb x) l.

(** [row.get(key, default)] *)
Definition row_get (row : list (string * pyval)) (key : string) (default : pyval)
  : pyval :=
  match dict_get row key with
  | Some v => v
  | None => default
  end.

(** The body of the loop over the old rows: one upgraded row. *)
Definition upgrade_row `{LibM} (row : list (string * pyval))
  : result (list (string * pyval)) :=
  let amounts :=
    match
      (loan_amount <- py_float (py_or (row_get row "Loan_Amount" PyNone) (PyInt 0)) ;;
       rate <- py_float (py_or (row_get row "InterestRate" PyNone) (PyInt 0)) ;;
       Ok (PyFloat loan_amount, PyFloat rate))
    with
    | Raise ValueError => Ok (PyInt 0, PyInt 0)
    | other => other
    end in
  amounts <- amounts ;;
  let '(loan_amount, rate) := amounts in
  let tenure := PyInt DEFAULT_TENURE_YEARS in
  emi <- calculate_emi loan_amount rate tenure ;;
  Ok [ ("Name", row_get row "Name" (PyStr ""));
       ("Age", row_get row "Age" (PyStr ""));
       ("Income", row_get row "Income" (PyStr ""));
       ("Loan_Amount", row_get row "Loan_Amount" (PyStr ""));
       ("Loan_Type", row_get row "Loan_Type" (PyStr ""));
       ("Tenure_Years", tenure);
       ("Employment", row_get row "Employment" (PyStr ""));
       ("Existing_Debt", py_or (row_get row "Existing_Debt" (PyStr "")) (PyInt 0));
       ("Debt_to_Income", py_or (row_get row "Debt_to_Income" (PyStr "")) (PyStr ""));
       ("Credit_Score", row_get row "Credit_Score" (PyStr ""));
       ("InterestRate", row_get row "InterestRate" (PyStr ""));
       ("EMI", PyFloat emi);
       ("Loan_Status", row_get row "Loan_Status" (row_get row "Decision" (PyStr "")));
       ("DateApplied", row_get row "DateApplied" (PyStr ""));
       ("Remarks", row_get row "Remarks" (PyStr ""));
       ("Decision", row_get row "Decision" (row_get row "Loan_Status" (PyStr ""))) ].

(** [for row in rows: upgraded_rows.append(...)] *)
Fixpoint upgrade_rows `{LibM} (rows : list (list (string * pyval)))
  : result (list (list (string * pyval))) :=
  match rows with
  | [] => Ok []
  | row :: rows' =>
      r <- upgrade_row row ;;
      rs <- upgrade_rows rows' ;;
      Ok (r :: rs)
  end.

(** [for r in upgraded_rows: writer.writerow(r)] on a file that holds
    [text] so far: the outcome and what the file holds then. *)
Fixpoint write_rows (text : string) (rows : list (list (string * pyval)))
  : result unit * string :=
  match rows with
  | [] => (Ok tt, text)
  | r :: rows' =>
      match Csv.DictWriter_writerow NEW_HEADER r with
      | Ok line => write_rows (text ++ line) rows'
      | Raise e => (Raise e, text)
      end
  end.

(** [migrate_csv_if_needed()]: the outcome of the call and the store after
    it. *)
Definition migrate_csv_if_needed `{LibM} (fs : store) : result unit * store :=
  match fs with
  | None => (Ok tt, fs)
  | Some text =>
      match Csv.reader text with
      | ([], Some e) => (Raise e, fs)
      | ([], None) => (Ok tt, fs)          (* empty file *)
      | (header :: _, _) =>
          (* if already migrated, do nothing *)
          if mem "Tenure_Years" header || mem "EMI" header then (Ok tt, fs)
          else
            match rows <- Csv.DictReader text ;; upgrade_rows rows with
            | Raise e => (Raise e, fs)
            | Ok upgraded_rows =>
                (* overwrite the file with the new header and the rows *)
                let '(outcome, text') :=
                  write_rows (Csv.DictWriter_writeheader NEW_HEADER)
                    upgraded_rows in
                (outcome, Some text')
            end
      end
  end.

(** [read_all_applications()] *)
Definition read_all_applications `{LibM} (fs : store)
  : result (list (list (string * pyval))) * store :=
  match fs with
  | None => (Ok [], fs)
  | Some _ =>
      match migrate_csv_if_needed fs with
      | (Raise e, fs') => (Raise e, fs')
      | (Ok _, fs') =>
          (match fs' with
           | Some text => Csv.DictReader text
           | None => Ok []
           end, fs')
      end
  end.

(* ------------------------------------------------------------------ *)
(** ** A stand-in for the platform's [pow], to run the program on examples:
    binary exponentiation in binary64 for an integral exponent *)

Definition pow_by_squaring (x y : float) : float * c_errno :=
  match F64.trunc y with
  | Some (Zpos p) => (Pos.iter_op PrimFloat.mul p x, ENONE)
  | Some Z0 => (1%float, ENONE)
  | Some (Zneg p) => ((1 / Pos.iter_op PrimFloat.mul p x)%float, ENONE)
  | None => (nan, EDOM)
  end.

Definition reference_libm : LibM := {| c_pow := pow_by_squaring |}.


(* ------------------------------------------------------------------ *)
(** ** Sample inputs *)

(** An applicant on both boundaries of the approval rule: the score is
    exactly 700 and the debt-to-income ratio exactly 45. *)
Definition boundary_applicant : applicant :=
  {| ap_name := PyStr "B"; ap_age := 30; ap_income := 100%float;
     ap_loan_amount := 600%float; ap_loan_type := "Personal";
     ap_employment := "Salaried"; ap_existing_debt := 45%float;
     ap_tenure_years := PyFloat 5%float |}.

(** The lowest and the highest score. *)
Definition weakest_applicant : applicant :=
  {| ap_name := PyStr "W"; ap_age := 19; ap_income := 1000%float;
     ap_loan_amount := 20000%float; ap_loan_type := "Personal";
     ap_employment := "Unemployed"; ap_existing_debt := 900%float;
     ap_tenure_years := PyInt 5 |}.

Definition strongest_applicant : applicant :=
  {| ap_name := PyStr "S"; ap_age := 30; ap_income := 100000%float;
     ap_loan_amount := 400000%float; ap_loan_type := "Personal";
     ap_employment := "Salaried"; ap_existing_debt := 10000%float;
     ap_tenure_years := PyFloat 5%float |}.


(** A value [float()] refuses as non-numeric or missing. *)
Definition not_a_number (x : pyval) : Prop :=
  py_float x = Raise ValueError \/ py_float x = Raise TypeError.

(** The line terminator the writer uses. *)
Definition CRLF : string := String Csv.CR (String Csv.LF EmptyString).

(** The header of the legacy layout: no tenure and no EMI column. *)
Definition LEGACY_HEADER : list string :=
  [ "Name"; "Age"; "Income"; "Loan_Amount"; "Loan_Type"; "Employment";
    "Existing_Debt"; "Debt_to_Income"; "Credit_Score"; "InterestRate";
    "Loan_Status"; "DateApplied"; "Remarks"; "Decision" ].

(** A legacy store that holds its header and no row. *)
Definition legacy_header_only : string :=
  "Name,Age,Income,Loan_Amount,Loan_Type,Employment,Existing_Debt,Debt_to_Income,Credit_Score,InterestRate,Loan_Status,DateApplied,Remarks,Decision"
  ++ CRLF.

(** A current store that holds its header and no row. *)
Definition current_header_only : string :=
  "Name,Age,Income,Loan_Amount,Loan_Type,Tenure_Years,Employment,Existing_Debt,Debt_to_Income,Credit_Score,InterestRate,EMI,Loan_Status,DateApplied,Remarks,Decision"
  ++ CRLF.

(** A legacy row of a rejected application, as [DictReader] hands it to
    the migrator, and the legacy store that holds it. *)
Definition rejected_legacy_row : list (string * pyval) :=
  [ ("Name", PyStr "Ravi"); ("Age", PyStr "19"); ("Income", PyStr "1000.0");
    ("Loan_Amount", PyStr "600000.0"); ("Loan_Type", PyStr "Home");
    ("Employment", PyStr "Unemployed"); ("Existing_Debt", PyStr "900.0");
    ("Debt_to_Income", PyStr "90.0"); ("Credit_Score", PyStr "500");
    ("InterestRate", PyStr "0"); ("Loan_Status", PyStr "Rejected");
    ("DateApplied", PyStr "2024-01-02 10:00:00");
    ("Remarks", PyStr "High debt-to-income ratio.");
    ("Decision", PyStr "Rejected") ].

Definition rejected_legacy_store : string :=
  legacy_header_only
  ++ "Ravi,19,1000.0,600000.0,Home,Unemployed,900.0,90.0,500,0,Rejected,2024-01-02 10:00:00,High debt-to-income ratio.,Rejected"
  ++ CRLF.


(* ------------------------------------------------------------------ *)
(** ** Text of several written rows *)

(** The texts of [parts], one after the other. *)
Fixpoint concat_text (parts : list string) : string :=
  match parts with
  | [] => EmptyString
  | p :: rest => p ++ concat_text rest
  end.

(* ------------------------------------------------------------------ *)
(** ** The reader, character by character

    [Csv.reader] cuts the text into lines and feeds the machine a line at
    a time. [run] is the same reading done one character at a time: the
    end of a line is signalled after a line feed and after a carriage
    return that no line feed follows, and once more at the end of a text
    whose last line has no ending. *)

(** The characters [l] followed by the text [s]. *)
Fixpoint app_chars (l : list ascii) (s : string) : string :=
  match l with
  | [] => s
  | c :: l' => String c (app_chars l' s)
  end.

(** A record in front of what the reader yields next. *)
Definition emit (record : list string) (rest : list (list string) * option exn)
  : list (list string) * option exn :=
  let '(records, e) := rest in (record :: records, e).

(** The characters of a line without its end. *)
Fixpoint feed_chars (self : Csv.ReaderObj) (cs : list ascii)
  : result Csv.ReaderObj :=
  match cs with
  | [] => Ok self
  | c :: cs' =>
      self <- Csv.parse_process_char self (Some c) ;; feed_chars self cs'
  end.

Definition line_ends_after (c : ascii) (s' : string) : bool :=
  Ascii.eqb c Csv.LF
  || (Ascii.eqb c Csv.CR
      && negb match s' with
              | String c' _ => Ascii.eqb c' Csv.LF
              | EmptyString => false
              end).

(** The end of a line: the record is yielded when the machine is back at
    the start of a record. *)
Definition end_line (self : Csv.ReaderObj)
    (continue : Csv.ReaderObj -> list (list string) * option exn)
  : list (list string) * option exn :=
  match Csv.parse_process_char self None with
  | Raise e => ([], Some e)
  | Ok self' =>
      if Csv.is_start_record (Csv.state self')
      then emit (Csv.fields self') (continue Csv.parse_reset)
      else continue self'
  end.

Fixpoint run (self : Csv.ReaderObj) (pending : bool) (s : string)
  : list (list string) * option exn :=
  match s with
  | EmptyString =>
      if pending then end_line self (fun self' => Csv.records self' [])
      else Csv.records self []
  | String c s' =>
      match Csv.parse_process_char self (Some c) with
      | Raise e => ([], Some e)
      | Ok self1 =>
          if line_ends_after c s'
          then end_line self1 (fun self2 => run self2 false s')
          else run self1 true s'
      end
  end.

Definition nonempty {A : Type} (l : list A) : bool :=
  match l with [] => false | _ => true end.

(** The machine in state [st] with the fields [F] done and the field [f]
    under way. *)
Definition machine (st : Csv.ParserState) (F : list string) (f : list ascii)
  : Csv.ReaderObj :=
  {| Csv.state := st; Csv.fields := F; Csv.field := f |}.

(** A character the writer leaves as it is, outside quotes. *)
Definition plain (c : ascii) : bool :=
  negb (Ascii.eqb c Csv.quotechar || Ascii.eqb c Csv.delimiter || Csv.is_newline c).

(** A field the reader accepts: at most [Csv.field_limit] characters. *)
Definition within_limit (f : string) : Prop :=
  Z.of_nat (String.length f) <= Csv.field_limit.

(** The states in which a field is complete but for what ends it. *)
Definition field_done (st : Csv.ParserState) (f : list ascii) : Prop :=
  st = Csv.IN_FIELD \/ st = Csv.QUOTE_IN_QUOTED_FIELD
  \/ (st = Csv.START_FIELD /\ f = []).

(** A row whose every field the reader accepts. *)
Definition row_within_limit (row : list pyval) : Prop :=
  Forall (fun v => within_limit (Csv.field_text v)) row.

(** What the machine keeps while it reads: the field under way and the
    fields done stay within the limit. *)
Definition reader_inv (self : Csv.ReaderObj) : Prop :=
  Z.of_nat (List.length (Csv.field self)) <= Csv.field_limit
  /\ Forall within_limit (Csv.fields self).

(* ------------------------------------------------------------------ *)
(** ** Submission: evaluate, migrate, append *)

(** The row [submit] appends for a decision, [now_str] being the time of
    the submission as text. *)
Definition new_row (d : decision_data) (now_str : string) : list (string * pyval) :=
  [ ("Name", name d);
    ("Age", PyInt (age d));
    ("Income", PyFloat (income d));
    ("Loan_Amount", PyFloat (loan_amount d));
    ("Loan_Type", PyStr (loan_type d));
    ("Tenure_Years", tenure_years d);
    ("Employment", PyStr (employment d));
    ("Existing_Debt", PyFloat (existing_debt d));
    ("Debt_to_Income", debt_to_income d);
    ("Credit_Score", PyInt (credit_score d));
    ("InterestRate", PyFloat (interest_rate d));
    ("EMI", PyFloat (emi d));
    ("Loan_Status", PyStr (decision_text (decision d)));
    ("DateApplied", PyStr now_str);
    ("Remarks", PyStr (remarks d));
    ("Decision", PyStr (decision_text (decision d))) ].

(** [submit()] without the page it renders: the fields of the form (a
    missing field is [PyNone]; the loan type and the employment are taken
    as present), the clock's text, the store; the decision shown to the
    user and the store afterwards. A failure before the file is opened for
    appending leaves the store as the migration left it. *)
Definition submit `{LibM} (form_name form_age form_income form_loan_amount : pyval)
    (form_loan_type form_employment : string)
    (form_existing_debt form_tenure_years : pyval)
    (now_str : string) (fs : store) : result decision_data * store :=
  let existing_debt := py_or form_existing_debt (PyInt 0) in
  let tenure_years := py_or form_tenure_years (PyInt DEFAULT_TENURE_YEARS) in
  match
    evaluate_application form_name form_age form_income form_loan_amount
      form_loan_type form_employment existing_debt tenure_years
  with
  | Raise e => (Raise e, fs)
  | Ok decision_data =>
      (* ensure the file is migrated *)
      match migrate_csv_if_needed fs with
      | (Raise e, fs) => (Raise e, fs)
      | (Ok _, fs) =>
          let file_exists := match fs with Some _ => true | None => false end in
          let text := match fs with Some text => text | None => EmptyString end in
          let write_header := negb file_exists || (String.length text =? 0)%nat in
          (* open for appending: the header first when the file is new or empty *)
          let text :=
            if write_header then text ++ Csv.DictWriter_writeheader NEW_HEADER
            else text in
          match Csv.DictWriter_writerow NEW_HEADER (new_row decision_data now_str) with
          | Ok line => (Ok decision_data, Some (text ++ line))
          | Raise e => (Raise e, Some text)
          end
      end
  end.

(** The store the program writes for the rows [rows]: the current header
    line and one line per row. *)
Definition written_store (rows : list (list pyval)) : string :=
  current_header_only ++ concat_text (map Csv.writerow rows).

(** A row as [read_all_applications] returns it: every column of the
    current header with the text of its field. *)
Definition read_row (row : list pyval) : list (string * pyval) :=
  combine NEW_HEADER (map (fun v => PyStr (Csv.field_text v)) row).

(** A row of the current layout: sixteen fields, each within the reader's
    limit. *)
Definition current_row (row : list pyval) : Prop :=
  List.length row = 16%nat /\ row_within_limit row.

(** The values of a row in the order they are written. *)
Definition row_values (row : list (string * pyval)) : list pyval := map snd row.

(** What a store holds before a submission: the rows the program wrote, or
    nothing when the file is absent or empty. *)
Definition store_holds (fs : store) (rows : list (list pyval)) : Prop :=
  fs = Some (written_store rows)
  \/ ((fs = None \/ fs = Some EmptyString) /\ rows = []).

(** A row of a reader whose every value is within the limit. *)
Definition dict_within_limit (d : list (string * pyval)) : Prop :=
  Forall (fun kv => within_limit (Csv.field_text (snd kv))) d.

(* ------------------------------------------------------------------ *)
(** ** Reporting: the dashboard, the lists by status, the statistics

    The pages read the rows [read_all_applications] returns, whose values
    are text, or [None] where a row was short. What is modelled is what
    each page computes before it renders. *)

Definition is_upper (c : ascii) : bool :=
  let n := Scan.code c in ((65 <=? n) && (n <=? 90))%N.

Definition is_lower (c : ascii) : bool :=
  let n := Scan.code c in ((97 <=? n) && (n <=? 122))%N.

Definition upper_char (c : ascii) : ascii :=
  if is_lower c then ascii_of_N (Scan.code c - 32) else c.

(** [str.title()] on ASCII text: a cased character is made upper case
    after an uncased one (or at the start) and lower case after a cased
    one. *)
Fixpoint title_from (previous_is_cased : bool) (s : string) : string :=
  match s with
  | EmptyString => EmptyString
  | String c s' =>
      if is_lower c then
        String (if previous_is_cased then c else upper_char c) (title_from true s')
      else if is_upper c then
        String (if previous_is_cased then Scan.lower_char c else c)
          (title_from true s')
      else String c (title_from false s')
  end.

Definition title (s : string) : string := title_from false s.

(** A word of lower-case letters. *)
Fixpoint lower_letters (s : string) : bool :=
  match s with
  | EmptyString => true
  | String c s' => is_lower c && lower_letters s'
  end.

(** [(v or default)] for a value that is text or [None]. *)
Definition text_or (v : pyval) (default : string) : string :=
  match py_or v (PyStr default) with
  | PyStr s => s
  | _ => default
  end.

(** [(r.get("Loan_Status") or "").lower()] *)
Definition status_lower (r : list (string * pyval)) : string :=
  Scan.lower (text_or (row_get r "Loan_Status" PyNone) "").

(** [(r.get("Loan_Status") or "").title() or "Unknown"] *)
Definition status_title (r : list (string * pyval)) : string :=
  let t := title (text_or (row_get r "Loan_Status" PyNone) "") in
  if (t =? "")%string then "Unknown" else t.

(** [sum(1 for r in rows if f(r))] *)
Definition count_if {A : Type} (f : A -> bool) (rows : list A) : Z :=
  Z.of_nat (List.length (filter f rows)).

Definition is_approved (r : list (string * pyval)) : bool :=
  (status_lower r =? "approved")%string.

Definition is_rejected (r : list (string * pyval)) : bool :=
  (status_lower r =? "rejected")%string.

(** The rows the pages [/approved] and [/rejected] show. *)
Definition approved_rows (rows : list (list (string * pyval)))
  : list (list (string * pyval)) := filter is_approved rows.

Definition rejected_rows (rows : list (list (string * pyval)))
  : list (list (string * pyval)) := filter is_rejected rows.

(** *** Dictionaries with keys of any type *)

Section Assoc.
Context {K V : Type} (eqb : K -> K -> bool).

Fixpoint kget (d : list (K * V)) (k : K) : option V :=
  match d with
  | [] => None
  | (k', v) :: d' => if eqb k' k then Some v else kget d' k
  end.

Fixpoint kset (d : list (K * V)) (k : K) (v : V) : list (K * V) :=
  match d with
  | [] => [(k, v)]
  | (k', v') :: d' => if eqb k' k then (k, v) :: d' else (k', v') :: kset d' k v
  end.
End Assoc.

(** [d.get(k, 0)] on a counter. *)
Definition count_of {K : Type} (eqb : K -> K -> bool) (d : list (K * Z)) (k : K) : Z :=
  match kget eqb d k with
  | Some n => n
  | None => 0
  end.

(** [d[k] = d.get(k, 0) + 1] *)
Definition bump {K : Type} (eqb : K -> K -> bool) (d : list (K * Z)) (k : K)
  : list (K * Z) :=
  kset eqb d k (count_of eqb d k + 1).

(** *** The statistics page *)

(** [r.get("Loan_Type", "Unknown") or "Unknown"] *)
Definition stats_loan_type (r : list (string * pyval)) : string :=
  text_or (row_get r "Loan_Type" (PyStr "Unknown")) "Unknown".

Record type_tallies : Set := {
  type_counts : list (string * Z);
  type_approved : list (string * Z);
  type_rejected : list (string * Z)
}.

(** The body of the loop over the rows. *)
Definition tally (t : type_tallies) (r : list (string * pyval)) : type_tallies :=
  let lt := stats_loan_type r in
  let status := status_title r in
  {| type_counts := bump String.eqb (type_counts t) lt;
     type_approved :=
       if (status =? "Approved")%string then bump String.eqb (type_approved t) lt
       else type_approved t;
     type_rejected :=
       if (status =? "Approved")%string then type_rejected t
       else if (status =? "Rejected")%string
            then bump String.eqb (type_rejected t) lt
            else type_rejected t |}.

(** What the loop keeps: no key twice, and no key among the approved or
    the rejected that is not among the counts. *)
Definition tallies_ok (t : type_tallies) : Prop :=
  NoDup (map fst (type_counts t)) /\
  NoDup (map fst (type_approved t)) /\
  NoDup (map fst (type_rejected t)) /\
  incl (map fst (type_approved t)) (map fst (type_counts t)) /\
  incl (map fst (type_rejected t)) (map fst (type_counts t)).

(** [sorted(keys)] on texts: by character codes. *)
Fixpoint insert_sorted (k : string) (l : list string) : list string :=
  match l with
  | [] => [k]
  | x :: l' => if String.leb k x then k :: l else x :: insert_sorted k l'
  end.

Definition sorted (l : list string) : list string :=
  fold_right insert_sorted [] l.

Record stats_page : Set := {
  loan_types : list string;
  counts : list Z;
  approved_counts : list Z;
  rejected_counts : list Z;
  status_approved : Z;
  status_rejected : Z;
  status_total : Z
}.

(** What [stats()] hands to its template, from the rows it read. *)
Definition stats (rows : list (list (string * pyval))) : stats_page :=
  let approved := count_if is_approved rows in
  let rejected := count_if is_rejected rows in
  let t :=
    fold_left tally rows
      {| type_counts := []; type_approved := []; type_rejected := [] |} in
  let loan_types := sorted (map fst (type_counts t)) in
  {| loan_types := loan_types;
     counts := map (count_of String.eqb (type_counts t)) loan_types;
     approved_counts := map (count_of String.eqb (type_approved t)) loan_types;
     rejected_counts := map (count_of String.eqb (type_rejected t)) loan_types;
     status_approved := approved;
     status_rejected := rejected;
     status_total := Z.of_nat (List.length rows) |}.

(** [sum(l)] *)
Definition sum (l : list Z) : Z := fold_right Z.add 0 l.

(** *** The dashboard *)

Record summary : Set := {
  total : Z;
  approved : Z;
  rejected : Z;
  total_disbursed : Z
}.

(** [total_disbursed += float(r.get("Loan_Amount") or 0)] for an approved
    row, a [ValueError] being passed over. *)
Definition add_disbursed (acc : float) (r : list (string * pyval)) : result float :=
  if is_approved r then
    match py_float (py_or (row_get r "Loan_Amount" PyNone) (PyInt 0)) with
    | Ok amount => Ok (acc + amount)%float
    | Raise ValueError => Ok acc
    | Raise e => Raise e
    end
  else Ok acc.

(** The loop that sums the amounts. *)
Fixpoint sum_disbursed (acc : float) (rows : list (list (string * pyval)))
  : result float :=
  match rows with
  | [] => Ok acc
  | r :: rows' => acc' <- add_disbursed acc r ;; sum_disbursed acc' rows'
  end.

Record type_stat : Set := {
  ts_total : Z;
  ts_approved : Z;
  ts_rejected : Z
}.

(** A key of [loan_type_stats]: a text, or [None] where the row was
    short. *)
Definition key_eqb (a b : option string) : bool :=
  match a, b with
  | Some x, Some y => String.eqb x y
  | None, None => true
  | _, _ => false
  end.

(** [r.get("Loan_Type", "Unknown")] *)
Definition dashboard_loan_type (r : list (string * pyval)) : option string :=
  match row_get r "Loan_Type" (PyStr "Unknown") with
  | PyStr s => Some s
  | _ => None
  end.

(** The body of the loop that fills [loan_type_stats]. *)
Definition tally_type (stats : list (option string * type_stat))
    (r : list (string * pyval)) : list (option string * type_stat) :=
  let lt := dashboard_loan_type r in
  let status := status_title r in
  let s :=
    match kget key_eqb stats lt with
    | Some s => s
    | None => {| ts_total := 0; ts_approved := 0; ts_rejected := 0 |}
    end in
  kset key_eqb stats lt
    {| ts_total := ts_total s + 1;
       ts_approved :=
         if (status =? "Approved")%string then ts_approved s + 1 else ts_approved s;
       ts_rejected :=
         if (status =? "Approved")%string then ts_rejected s
         else if (status =? "Rejected")%string then ts_rejected s + 1
              else ts_rejected s |}.

(** What [dashboard()] hands to its template, from the rows it read; the
    sum of the amounts is made an int, which raises on an infinite sum or
    a NaN. *)
Definition dashboard (rows : list (list (string * pyval)))
  : result (summary * list (option string * type_stat)) :=
  let total := Z.of_nat (List.length rows) in
  let approved := count_if is_approved rows in
  let rejected := count_if is_rejected rows in
  total_disbursed <- sum_disbursed 0%float rows ;;
  let loan_type_stats := fold_left tally_type rows [] in
  disbursed <- py_int_of_float total_disbursed ;;
  Ok ({| total := total; approved := approved; rejected := rejected;
         total_disbursed := disbursed |},
      loan_type_stats).

(* ------------------------------------------------------------------ *)
(** ** More sample inputs *)

(** The record of the worked example as the form submits it. *)
Definition asha_record : decision_data :=
  {| name := PyStr "Asha"; age := 30; income := 100000%float;
     loan_amount := 400000%float; loan_type := "Personal";
     employment := "Salaried"; existing_debt := 10000%float;
     tenure_years := PyFloat 5%float; debt_to_income := PyFloat 10%float;
     credit_score := 790; decision := Approved; interest_rate := 6.8%float;
     emi := 7882.79%float;
     remarks :=
       "Excellent debt-to-income ratio. Stable salaried employment. Requested amount is reasonable compared to income. Credit score and DTI within acceptable range.";
     max_allowed := Some 500000 |}.

Definition sample_clock : string := "2024-01-01 00:00:00".

(** Two rows with a delimiter, a line break and an empty field in their
    texts. *)
Definition awkward_rows : list (list pyval) :=
  [ [PyStr "Rao, A"; PyInt 30; PyFloat 0.1%float; PyNone];
    [PyStr (String "010" "x"); PyStr ""; PyFloat 1e22%float] ].

(** A salaried applicant of thirty without income who asks for 400000. *)
Definition no_income_applicant : applicant :=
  {| ap_name := PyStr "N"; ap_age := 30; ap_income := 0%float;
     ap_loan_amount := 400000%float; ap_loan_type := "Personal";
     ap_employment := "Salaried"; ap_existing_debt := 10000%float;
     ap_tenure_years := PyFloat 5%float |}.

(* ================================================================== *)
(** * Properties *)

(** ** Rate model *)

Lemma dict_get_base_rates (loan_type : string) :
  In (dict_get base_rates loan_type)
     [Some 5.2%float; Some 7.5%float; Some 7.0%float; Some 4.8%float;
      Some 8.5%float; None].
Proof.
  unfold base_rates; simpl.
  repeat match goal with
         | |- context [if ?b then _ else _] => destruct b
         end; simpl; tauto.
Qed.

(** C7: for every loan type (also one that has no base rate) and every
    integer credit score, the rate model returns at least 5.0. *)
Theorem base_interest_rate_floor (loan_type : string) (credit_score : Z) :
  (5.0 <=? base_interest_rate loan_type credit_score)%float = true.
Proof.
  unfold base_interest_rate.
  pose proof (dict_get_base_rates loan_type) as Hin.
  destruct (dict_get base_rates loan_type) as [r|];
    simpl in Hin;
    repeat match type of Hin with
           | _ \/ _ => destruct Hin as [Hin|Hin]
           end;
    try discriminate Hin; try contradiction;
    try (injection Hin as <-).
  all: destruct (780 <=? credit_score); [vm_compute; reflexivity|].
  all: destruct (730 <=? credit_score); [vm_compute; reflexivity|].
  all: destruct (680 <=? credit_score); [vm_compute; reflexivity|].
  all: destruct (credit_score <? 600); vm_compute; reflexivity.
Qed.

(** ** Scoring and decision engine *)

(** Destructs the pair a [let '(x, y) := p in _] of the goal binds. *)
Ltac destruct_let_pair :=
  match goal with
  | |- context [match ?p with (_, _) => _ end] => destruct p as [? ?]
  end.

Lemma coerce_applicant_fields name age income loan_amount loan_type employment
    existing_debt tenure_years a :
  coerce_applicant name age income loan_amount loan_type employment
    existing_debt tenure_years = Ok a ->
  ap_name a = name /\ ap_loan_type a = loan_type /\ ap_employment a = employment
  /\ py_int age = Ok (ap_age a)
  /\ py_float income = Ok (ap_income a)
  /\ py_float loan_amount = Ok (ap_loan_amount a)
  /\ py_float existing_debt = Ok (ap_existing_debt a).
Proof.
  unfold coerce_applicant, bind.
  destruct (py_int age); [|discriminate].
  destruct (py_float income); [|discriminate].
  destruct (py_float loan_amount); [|discriminate].
  destruct (py_float existing_debt); [|discriminate].
  destruct (truthy tenure_years);
    [destruct (py_float tenure_years); [|discriminate]|];
    intros [= <-]; simpl; repeat split; reflexivity.
Qed.

(** The limit flag is raised exactly for an amount over the limit of a
    listed category. *)
Lemma assess_exceeded_limit (a : applicant) :
  as_exceeded_limit (assess a) =
  match dict_get LOAN_LIMITS (ap_loan_type a) with
  | Some limit => float_gt_int (ap_loan_amount a) limit
  | None => false
  end.
Proof.
  unfold assess; cbv zeta.
  generalize (dict_get LOAN_LIMITS (ap_loan_type a)); intros [limit|];
    [destruct (float_gt_int (ap_loan_amount a) limit)|];
    repeat destruct_let_pair; reflexivity.
Qed.



Lemma assess_decision_rule (a : applicant) :
  as_decision (assess a) = Approved <->
  as_exceeded_limit (assess a) = false
  /\ 700 <= as_credit_score (assess a)
  /\ (as_debt_to_income (assess a) <=? 45)%float = true.
Proof.
  unfold assess; cbv zeta.
  generalize (dict_get LOAN_LIMITS (ap_loan_type a)); intros max_allowed.
  do 5 destruct_let_pair.
  match goal with
  | |- context [if ?b then (Rejected, _) else _] => destruct b
  end; simpl.
  - split; [discriminate | intros [? _]; discriminate].
  - match goal with
    | |- context [700 <=? ?z] => destruct (700 <=? z) eqn:Hscore
    end; simpl.
    + match goal with
      | |- context [(?d <=? 45)%float] => destruct (d <=? 45)%float eqn:Hdti
      end; simpl.
      * split; [intros _ | reflexivity].
        split; [reflexivity | split; [apply Z.leb_le; exact Hscore | exact Hdti]].
      * split; [discriminate | intros (_ & _ & ?); congruence].
    + split; [discriminate | intros (_ & Hle & _)].
      apply Z.leb_le in Hle; congruence.
Qed.

(** Splits the goal along every test it holds. *)
Ltac split_tests :=
  repeat match goal with
         | |- context [if ?b then _ else _] => destruct b
         end.

(** Names the pair the next [let '(score, remarks) := p in _] binds and
    keeps only that its score lies between [lo] and [hi]. *)
Ltac bound_let_pair lo hi :=
  match goal with
  | |- context [match ?p with (_, _) => _ end] =>
      let Hb := fresh "Hb" in
      assert (Hb : lo <= fst p <= hi) by (split_tests; cbn [fst]; lia);
      destruct p as [? ?]; cbn [fst] in Hb
  end.

(** Each rule moves the score within its band: the ratio to 590..730, the
    employment by -40..+30, the loan size by -30..+20, the age by
    -20..+10. *)
Lemma assess_credit_score_bounds (a : applicant) :
  500 <= as_credit_score (assess a) <= 790.
Proof.
  unfold assess; cbv zeta.
  generalize (dict_get LOAN_LIMITS (ap_loan_type a)); intros max_allowed.
  destruct_let_pair.
  bound_let_pair 590 730.
  match goal with H : _ <= ?s <= _ |- _ => bound_let_pair (s - 40) (s + 30) end.
  match goal with H : _ <= ?s <= ?t + 30 |- _ => bound_let_pair (s - 30) (s + 20) end.
  match goal with H : _ <= ?s <= ?t + 20 |- _ => bound_let_pair (s - 20) (s + 10) end.
  destruct_let_pair; cbn [as_credit_score]; lia.
Qed.

Lemma price_rejected `{LibM} (a : applicant) (s : assessment) :
  as_decision s = Rejected ->
  exists r, price a s = Ok r
            /\ decision r = Rejected
            /\ emi r = 0%float
            /\ credit_score r = as_credit_score s
            /\ interest_rate r = base_interest_rate (ap_loan_type a) (credit_score r).
Proof.
  intros Hd; unfold price; rewrite Hd; simpl.
  eexists; split; [reflexivity|]; simpl; auto.
Qed.

Lemma price_fields `{LibM} (a : applicant) (s : assessment) (r : decision_data) :
  price a s = Ok r ->
  decision r = as_decision s
  /\ credit_score r = as_credit_score s
  /\ max_allowed r = as_max_allowed s
  /\ loan_amount r = ap_loan_amount a
  /\ loan_type r = ap_loan_type a
  /\ interest_rate r = base_interest_rate (ap_loan_type a) (as_credit_score s)
  /\ (as_decision s = Rejected -> emi r = 0%float).
Proof.
  unfold price, bind.
  destruct (as_decision s) eqn:Hd.
  - destruct (calculate_emi _ _ _); [|discriminate].
    intros [= <-]; simpl; repeat split; congruence.
  - intros [= <-]; simpl; repeat split; congruence.
Qed.

(** C1: for every well-typed applicant input (one whose numeric fields
    coerce), the decision is Approved if and only if the limit flag is
    down, the credit score is at least 700 and the debt-to-income ratio is
    at most 45, both boundaries included; and a record the engine returns
    carries that decision and that score. *)
Theorem decision_approved_iff `{LibM}
    (name age income loan_amount : pyval) (loan_type employment : string)
    (existing_debt tenure_years : pyval) (a : applicant) :
  coerce_applicant name age income loan_amount loan_type employment
    existing_debt tenure_years = Ok a ->
  (as_decision (assess a) = Approved <->
   as_exceeded_limit (assess a) = false
   /\ 700 <= as_credit_score (assess a)
   /\ (as_debt_to_income (assess a) <=? 45)%float = true)
  /\ (forall r : decision_data,
        evaluate_application name age income loan_amount loan_type employment
          existing_debt tenure_years = Ok r ->
        decision r = as_decision (assess a)
        /\ credit_score r = as_credit_score (assess a)).
Proof.
  intros Hco; split.
  - apply assess_decision_rule.
  - intros r; unfold evaluate_application; rewrite Hco; simpl.
    intros Hr; apply price_fields in Hr.
    destruct Hr as (Hd & Hs & _); split; assumption.
Qed.

(** The rule at its boundaries: score 700 and ratio 45 are approved. *)
Lemma decision_approved_iff_witness :
  as_credit_score (assess boundary_applicant) = 700
  /\ as_debt_to_income (assess boundary_applicant) = 45%float
  /\ as_decision (assess boundary_applicant) = Approved.
Proof.
  split; [vm_compute; reflexivity | split; [vm_compute; reflexivity |]].
  apply (proj1 (@decision_approved_iff reference_libm
                  (PyStr "B") (PyInt 30) (PyInt 100) (PyInt 600)
                  "Personal" "Salaried" (PyInt 45) (PyInt 5)
                  boundary_applicant eq_refl)).
  split; [vm_compute; reflexivity | split; [vm_compute; discriminate | vm_compute; reflexivity]].
Defined.

(** X4: a record the engine returns with an EMI other than zero has the
    decision Approved: the installment is computed for approved
    applications only. *)
Lemma evaluate_application_emi_only_if_approved `{LibM}
    (name age income loan_amount : pyval) (loan_type employment : string)
    (existing_debt tenure_years : pyval) (r : decision_data) :
  evaluate_application name age income loan_amount loan_type employment
    existing_debt tenure_years = Ok r ->
  emi r <> 0%float -> decision r = Approved.
Proof.
  unfold evaluate_application, bind.
  destruct (coerce_applicant _ _ _ _ _ _ _ _) as [a|]; [|discriminate].
  intros Hr Hemi; apply price_fields in Hr.
  destruct Hr as (Hd & _ & _ & _ & _ & _ & Hzero).
  destruct (as_decision (assess a)); [assumption|].
  exfalso; apply Hemi, Hzero; reflexivity.
Qed.

(** C3: an applicant whose loan type is in the limit table and whose
    amount is over that limit gets a record, whatever the other fields:
    the decision is Rejected, the EMI is 0 and the interest rate is the
    rate model's for the loan type and the score. *)
Theorem over_limit_rejected `{LibM}
    (name age income loan_amount : pyval) (loan_type employment : string)
    (existing_debt tenure_years : pyval) (a : applicant) (limit : Z) :
  coerce_applicant name age income loan_amount loan_type employment
    existing_debt tenure_years = Ok a ->
  dict_get LOAN_LIMITS loan_type = Some limit ->
  float_gt_int (ap_loan_amount a) limit = true ->
  exists r : decision_data,
    evaluate_application name age income loan_amount loan_type employment
      existing_debt tenure_years = Ok r
    /\ decision r = Rejected
    /\ emi r = 0%float
    /\ interest_rate r = base_interest_rate loan_type (credit_score r).
Proof.
  intros Hco Hlimit Hover.
  pose proof (coerce_applicant_fields _ _ _ _ _ _ _ _ _ Hco) as (_ & Hlt & _).
  assert (Hdec : as_decision (assess a) = Rejected).
  { destruct (as_decision (assess a)) eqn:Hd; [|reflexivity].
    apply assess_decision_rule in Hd; destruct Hd as (Hex & _).
    rewrite assess_exceeded_limit, Hlt, Hlimit, Hover in Hex; discriminate. }
  destruct (price_rejected a (assess a) Hdec) as (r & Hr & Hd & Hemi & _ & Hrate).
  exists r; unfold evaluate_application; rewrite Hco; simpl.
  rewrite <- Hlt; auto.
Qed.

(** A home loan of 6,000,000 is over the limit of 5,000,000. *)
Lemma over_limit_rejected_witness :
  exists r : decision_data,
    @evaluate_application reference_libm (PyStr "H") (PyStr "30")
      (PyStr "2000000") (PyStr "6000000") "Home" "Salaried" (PyStr "0")
      (PyStr "5") = Ok r
    /\ decision r = Rejected
    /\ emi r = 0%float
    /\ interest_rate r = base_interest_rate "Home" (credit_score r).
Proof.
  apply (@over_limit_rejected reference_libm (PyStr "H") (PyStr "30")
           (PyStr "2000000") (PyStr "6000000") "Home" "Salaried" (PyStr "0")
           (PyStr "5")
           {| ap_name := PyStr "H"; ap_age := 30; ap_income := 2000000%float;
              ap_loan_amount := 6000000%float; ap_loan_type := "Home";
              ap_employment := "Salaried"; ap_existing_debt := 0%float;
              ap_tenure_years := PyFloat 5%float |}
           5000000);
    vm_compute; reflexivity.
Defined.

(** C6: the engine on the applicant of the worked example (any name): the
    record has a debt-to-income of 10, a score of 790, the decision
    Approved, the rate 6.8, and as EMI what the EMI calculator returns on
    (400000, 6.8, 5); the engine raises exactly when the calculator does. *)
Theorem worked_example `{LibM} (name : pyval) :
  evaluate_application name (PyInt 30) (PyInt 100000) (PyInt 400000)
    "Personal" "Salaried" (PyInt 10000) (PyInt 5)
  = (installment <-
       calculate_emi (PyInt 400000) (PyFloat 6.8%float) (PyInt 5) ;;
     Ok {| name := name; age := 30; income := 100000%float;
           loan_amount := 400000%float; loan_type := "Personal";
           employment := "Salaried"; existing_debt := 10000%float;
           tenure_years := PyFloat 5%float;
           debt_to_income := PyFloat 10%float;
           credit_score := 650 + 80 + 30 + 20 + 10;
           decision := Approved;
           interest_rate := 6.8%float;
           emi := installment;
           remarks :=
             "Excellent debt-to-income ratio. Stable salaried employment. Requested amount is reasonable compared to income. Credit score and DTI within acceptable range.";
           max_allowed := Some 500000 |}).
Proof.
  unfold evaluate_application.
  replace (coerce_applicant name (PyInt 30) (PyInt 100000) (PyInt 400000)
             "Personal" "Salaried" (PyInt 10000) (PyInt 5))
    with (Ok {| ap_name := name; ap_age := 30; ap_income := 100000%float;
                ap_loan_amount := 400000%float; ap_loan_type := "Personal";
                ap_employment := "Salaried"; ap_existing_debt := 10000%float;
                ap_tenure_years := PyFloat 5%float |})
    by (vm_compute; reflexivity).
  cbn [bind]; unfold price.
  match goal with
  | |- context [assess ?a] =>
      replace (assess a) with
        {| as_max_allowed := Some 500000;
           as_exceeded_limit := false;
           as_debt_to_income := 10%float;
           as_credit_score := 790;
           as_decision := Approved;
           as_remarks :=
             [ "Excellent debt-to-income ratio.";
               "Stable salaried employment.";
               "Requested amount is reasonable compared to income.";
               "Credit score and DTI within acceptable range." ] |}
        by (vm_compute; reflexivity)
  end.
  cbn [as_decision as_credit_score as_debt_to_income as_remarks as_max_allowed
       ap_loan_type ap_loan_amount ap_tenure_years ap_name ap_age ap_income
       ap_employment ap_existing_debt].
  replace (base_interest_rate "Personal" 790) with 6.8%float
    by (vm_compute; reflexivity).
  replace (calculate_emi (PyInt 400000) (PyFloat 6.8%float) (PyInt 5))
    with (calculate_emi (PyFloat 400000%float) (PyFloat 6.8%float)
            (PyFloat 5%float)).
  - destruct (calculate_emi _ _ _); reflexivity.
  - unfold calculate_emi.
    replace (py_float (PyInt 400000)) with (Ok 400000%float)
      by (vm_compute; reflexivity).
    replace (py_float (PyInt 5)) with (Ok 5%float) by (vm_compute; reflexivity).
    reflexivity.
Qed.

(** C10: the credit score lies between 500 and 790, for every applicant
    and in every record the engine returns, and both bounds are reached. *)
Theorem credit_score_bounds `{LibM} :
  (forall a : applicant, 500 <= as_credit_score (assess a) <= 790)
  /\ (forall (name age income loan_amount : pyval) (loan_type employment : string)
             (existing_debt tenure_years : pyval) (r : decision_data),
        evaluate_application name age income loan_amount loan_type employment
          existing_debt tenure_years = Ok r ->
        500 <= credit_score r <= 790)
  /\ (exists r : decision_data,
        evaluate_application (PyStr "W") (PyInt 19) (PyInt 1000) (PyInt 20000)
          "Personal" "Unemployed" (PyInt 900) PyNone = Ok r
        /\ credit_score r = 500 /\ credit_score r = 650 - 60 - 40 - 30 - 20)
  /\ (exists a : applicant,
        as_credit_score (assess a) = 790
        /\ as_credit_score (assess a) = 650 + 80 + 30 + 20 + 10).
Proof.
  split; [exact assess_credit_score_bounds | split; [| split]].
  - intros name age income loan_amount loan_type employment existing_debt
      tenure_years r.
    unfold evaluate_application, bind.
    destruct (coerce_applicant _ _ _ _ _ _ _ _) as [a|]; [|discriminate].
    intros Hr; apply price_fields in Hr; destruct Hr as (_ & -> & _).
    apply assess_credit_score_bounds.
  - eexists; split; [vm_compute; reflexivity | split; reflexivity].
  - exists strongest_applicant; split; vm_compute; reflexivity.
Qed.

(** ** EMI calculator *)

Lemma digits2_pos_bound (m : positive) : Zpos m < 2 ^ Zpos (digits2_pos m).
Proof.
  induction m as [m IH|m IH|]; simpl digits2_pos.
  - rewrite Pos2Z.inj_succ, Z.pow_succ_r by apply Pos2Z.is_nonneg.
    rewrite Pos2Z.inj_xI; lia.
  - rewrite Pos2Z.inj_succ, Z.pow_succ_r by apply Pos2Z.is_nonneg.
    rewrite Pos2Z.inj_xO; lia.
  - reflexivity.
Qed.

(** A finite float has a mantissa below [2^53] and an exponent of at most
    971. *)
Lemma finite_float_bounds (x : float) (s : bool) (m : positive) (e : Z) :
  Prim2SF x = S754_finite s m e -> Zpos m < 2 ^ 53 /\ e <= 971.
Proof.
  intros Hx; pose proof (Prim2SF_valid x) as Hv; rewrite Hx in Hv.
  unfold valid_binary, bounded, canonical_mantissa in Hv.
  apply andb_true_iff in Hv; destruct Hv as [Hc He].
  apply Z.eqb_eq in Hc; apply Z.leb_le in He.
  unfold fexp, FloatOps.emin, SpecFloat.emin, prec, emax in *.
  split; [|lia].
  pose proof (digits2_pos_bound m) as Hm.
  assert (Hd : Zpos (digits2_pos m) <= 53) by lia.
  apply Z.lt_le_trans with (1 := Hm).
  apply Z.pow_le_mono_r; lia.
Qed.

Lemma trunc_no_overflow (x : float) (n : Z) :
  F64.trunc x = Some n -> Z.abs n < float_overflow_threshold.
Proof.
  unfold F64.trunc.
  destruct (Prim2SF x) as [s| | |s m e] eqn:Hx; try discriminate.
  - intros [= <-]; reflexivity.
  - destruct (finite_float_bounds x s m e Hx) as [Hm He].
    set (a := if 0 <=? e then Zpos m * 2 ^ e else Zpos m / 2 ^ (- e)).
    intros Hn.
    assert (Hbound : 0 <= a <= (2 ^ 53 - 1) * 2 ^ 971).
    { assert (HM : Zpos m <= 2 ^ 53 - 1) by lia.
      assert (HA : 1 <= 2 ^ 971) by (apply (Z.pow_le_mono_r 2 0 971); lia).
      remember (2 ^ 53 - 1) as M eqn:EM.
      remember (2 ^ 971) as A eqn:EA.
      clear Hm EM.
      subst a; destruct (0 <=? e) eqn:Hsign.
      - apply Z.leb_le in Hsign.
        assert (Hp : 0 < 2 ^ e <= A)
          by (subst A; split; [apply Z.pow_pos_nonneg; lia | apply Z.pow_le_mono_r; lia]).
        remember (2 ^ e) as B eqn:EB; clear EA EB.
        split; [nia|].
        apply Z.mul_le_mono_nonneg; lia.
      - apply Z.leb_gt in Hsign.
        assert (Hp : 0 < 2 ^ (- e)) by (apply Z.pow_pos_nonneg; lia).
        remember (2 ^ (- e)) as B eqn:EB; clear EA EB.
        assert (Hq : 0 <= Zpos m / B <= Zpos m).
        { split; [apply Z.div_pos; lia|].
          apply Z.div_le_upper_bound; [lia|]. nia. }
        split; [lia|]. nia. }
    assert (Hn' : n = a \/ n = - a) by (destruct s; injection Hn as <-; auto).
    assert (Habs : Z.abs n = a) by (destruct Hn' as [-> | ->]; lia).
    rewrite Habs.
    apply Z.le_lt_trans with (1 := proj2 Hbound).
    reflexivity.
Qed.

Lemma floor_is_finite (x : float) (n : Z) :
  F64.floor x = Some n -> is_nan x = false.
Proof.
  unfold F64.floor, Prim2SF.
  destruct (is_nan x); [discriminate | reflexivity].
Qed.

(** On a positive floor, [int()] (which truncates) and the floor agree. *)
Lemma floor_positive_trunc (x : float) (n : Z) :
  F64.floor x = Some n -> 0 < n -> F64.trunc x = Some n.
Proof.
  unfold F64.floor, F64.trunc.
  destruct (Prim2SF x) as [s| | |s m e]; try discriminate.
  - intros [= <-]; lia.
  - intros [= <-] Hpos; f_equal.
    destruct (0 <=? e) eqn:He; destruct s; try reflexivity.
    + apply Z.leb_le in He.
      assert (0 < 2 ^ e) by (apply Z.pow_pos_nonneg; lia).
      exfalso; nia.
    + apply Z.leb_gt in He.
      assert (0 < 2 ^ (- e)) by (apply Z.pow_pos_nonneg; lia).
      assert (Zneg m / 2 ^ (- e) < 0) by (apply Z.div_lt_upper_bound; lia).
      lia.
Qed.

(** A floor at or below zero truncates at or below zero. *)
Lemma floor_nonpositive_trunc (x : float) (n : Z) :
  F64.floor x = Some n -> n <= 0 -> exists k, F64.trunc x = Some k /\ k <= 0.
Proof.
  unfold F64.floor, F64.trunc.
  destruct (Prim2SF x) as [s| | |s m e]; try discriminate.
  - intros _ _; exists 0; split; [reflexivity | lia].
  - intros [= <-] Hle; eexists; split; [reflexivity|].
    destruct (0 <=? e) eqn:He.
    + apply Z.leb_le in He.
      assert (0 < 2 ^ e) by (apply Z.pow_pos_nonneg; lia).
      destruct s; nia.
    + apply Z.leb_gt in He.
      assert (0 < 2 ^ (- e)) by (apply Z.pow_pos_nonneg; lia).
      destruct s; [|assumption].
      assert (0 <= Zpos m / 2 ^ (- e)) by (apply Z.div_pos; lia).
      lia.
Qed.

Lemma py_int_of_float_trunc (x : float) (n : Z) :
  is_nan x = false -> F64.trunc x = Some n -> py_int_of_float x = Ok n.
Proof. intros Hnan Ht; unfold py_int_of_float; rewrite Hnan, Ht; reflexivity. Qed.

(** C9: with a rate of 0 (the int or the float), a principal [P] and a
    tenure [T] whose number of periods [n = floor(T * 12)] is positive (the
    product taken in floats, as the calculator takes it), the calculator
    returns [P / n] rounded to 2 decimals. Nothing more is asked of [P]
    and [T]; a principal at or above 0 and a tenure above 0 are the case
    the statement is read for. *)
Theorem interest_free_installment `{LibM} (P T : float) (rate : pyval) (n : Z) :
  rate = PyInt 0 \/ rate = PyFloat 0%float ->
  F64.floor (T * 12)%float = Some n ->
  0 < n ->
  calculate_emi (PyFloat P) rate (PyFloat T)
  = Ok (py_round2 (P / F64.of_Z n)%float).
Proof.
  intros Hrate Hfloor Hpos.
  pose proof (floor_is_finite _ _ Hfloor) as Hnan.
  pose proof (floor_positive_trunc _ _ Hfloor Hpos) as Htrunc.
  pose proof (trunc_no_overflow _ _ Htrunc) as Hbound.
  unfold calculate_emi.
  assert (Hr : py_float rate = Ok 0%float)
    by (destruct Hrate as [-> | ->]; vm_compute; reflexivity).
  cbn [py_float bind]; rewrite Hr; cbn [bind].
  rewrite (py_int_of_float_trunc _ _ Hnan Htrunc); cbn [bind].
  destruct (n <=? 0) eqn:Hn; [apply Z.leb_le in Hn; lia|].
  replace ((0 / (12 * 100))%float =? 0)%float with true by (vm_compute; reflexivity).
  unfold py_truediv_int, py_float_of_int.
  destruct (float_overflow_threshold <=? Z.abs n) eqn:Hov;
    [apply Z.leb_le in Hov; lia|].
  cbn [bind].
  destruct (n =? 0) eqn:Hz; [apply Z.eqb_eq in Hz; lia|].
  reflexivity.
Qed.

(** 400000 over five interest-free years is 60 installments of 6666.67. *)
Lemma interest_free_installment_witness :
  @calculate_emi reference_libm (PyFloat 400000%float) (PyInt 0) (PyFloat 5%float)
  = Ok 6666.67%float.
Proof.
  exact (@interest_free_installment reference_libm 400000%float 5%float (PyInt 0) 60
           (or_introl eq_refl) eq_refl eq_refl).
Defined.

(** X2: a tenure whose number of periods [floor(T * 12)] exists and is at
    most zero gives an installment of 0, whatever the principal and the
    rate. *)
Lemma calculate_emi_no_period `{LibM} (principal annual_rate tenure_years : pyval)
    (P R T : float) (n : Z) :
  py_float principal = Ok P ->
  py_float annual_rate = Ok R ->
  py_float tenure_years = Ok T ->
  F64.floor (T * 12)%float = Some n ->
  n <= 0 ->
  calculate_emi principal annual_rate tenure_years = Ok 0%float.
Proof.
  intros HP HR HT Hfloor Hle.
  pose proof (floor_is_finite _ _ Hfloor) as Hnan.
  destruct (floor_nonpositive_trunc _ _ Hfloor Hle) as (k & Htrunc & Hk).
  unfold calculate_emi; rewrite HP, HR, HT; cbn [bind].
  rewrite (py_int_of_float_trunc _ _ Hnan Htrunc); cbn [bind].
  destruct (k <=? 0) eqn:Hn; [reflexivity | apply Z.leb_gt in Hn; lia].
Qed.

(** X1: when each argument either coerces or is non-numeric or missing,
    and one of them is, the calculator returns 0 and does not raise. *)
Lemma calculate_emi_fail_soft `{LibM} (principal annual_rate tenure_years : pyval) :
  (forall x, In x [principal; annual_rate; tenure_years] ->
             not_a_number x \/ exists f, py_float x = Ok f) ->
  (exists x, In x [principal; annual_rate; tenure_years] /\ not_a_number x) ->
  calculate_emi principal annual_rate tenure_years = Ok 0%float.
Proof.
  intros Hall (x & Hin & Hx).
  assert (HP := Hall principal (or_introl eq_refl)).
  assert (HR := Hall annual_rate (or_intror (or_introl eq_refl))).
  assert (HT := Hall tenure_years (or_intror (or_intror (or_introl eq_refl)))).
  unfold not_a_number in *; unfold calculate_emi.
  destruct HP as [[HP|HP]|[P HP]]; rewrite HP; cbn [bind]; try reflexivity.
  destruct HR as [[HR|HR]|[R HR]]; rewrite HR; cbn [bind]; try reflexivity.
  destruct HT as [[HT|HT]|[T HT]]; rewrite HT; cbn [bind]; try reflexivity.
  simpl in Hin; destruct Hin as [<-|[<-|[<-|[]]]]; destruct Hx; congruence.
Qed.

(** C8, where the code departs from it: a tenure below zero whose product
    with 12 leaves the range of floats is not answered with 0; the
    conversion of the number of periods to an int raises. The same
    happens on an infinite tenure, and a NaN tenure raises a ValueError. *)
Theorem calculate_emi_raises_on_unbounded_tenure `{LibM} :
  (-1e308 <=? 0)%float = true
  /\ calculate_emi (PyInt 100000) (PyFloat 8.5%float) (PyFloat (-1e308)%float)
     = Raise OverflowError
  /\ calculate_emi (PyInt 100000) (PyFloat 8.5%float) (PyStr "-inf")
     = Raise OverflowError
  /\ calculate_emi (PyInt 100000) (PyFloat 8.5%float) (PyStr "nan")
     = Raise ValueError.
Proof. repeat split; vm_compute; reflexivity. Qed.

(** ** Schema migrator *)

(** The header line the migrator writes. *)
Lemma writeheader_text : Csv.DictWriter_writeheader NEW_HEADER = current_header_only.
Proof. vm_compute. reflexivity. Qed.

(** Whatever follows the header line in a file, the first line of the file
    is the header line. *)
Lemma split_lines_current_header (rest : string) :
  Csv.split_lines [] (current_header_only ++ rest)
  = list_ascii_of_string current_header_only :: Csv.split_lines [] rest.
Proof. reflexivity. Qed.

Lemma feed_line_current_header :
  Csv.feed_line Csv.parse_reset (list_ascii_of_string current_header_only)
  = Ok {| Csv.state := Csv.START_RECORD; Csv.fields := NEW_HEADER; Csv.field := [] |}.
Proof. vm_compute. reflexivity. Qed.

(** A file that begins with the header line reads back with the current
    header as its first record. *)
Lemma reader_current_header (rest : string) :
  exists records e,
    Csv.reader (current_header_only ++ rest) = (NEW_HEADER :: records, e).
Proof.
  unfold Csv.reader; rewrite split_lines_current_header.
  cbn [Csv.records]; rewrite feed_line_current_header.
  cbn [Csv.state Csv.is_start_record Csv.fields].
  destruct (Csv.records Csv.parse_reset (Csv.split_lines [] rest)) as [records e].
  exists records, e; reflexivity.
Qed.

Lemma append_empty_r (s : string) : s ++ EmptyString = s.
Proof. induction s as [|c s IH]; simpl; [reflexivity | rewrite IH; reflexivity]. Qed.

Lemma append_assoc (s t u : string) : (s ++ t) ++ u = s ++ (t ++ u).
Proof. induction s as [|c s IH]; simpl; [reflexivity | rewrite IH; reflexivity]. Qed.

(** Writing rows only adds to the end of the file. *)
Lemma write_rows_extends (text : string) (rows : list (list (string * pyval))) :
  exists tail, snd (write_rows text rows) = text ++ tail.
Proof.
  revert text; induction rows as [|r rows IH]; intros text; simpl.
  - exists EmptyString; symmetry; apply append_empty_r.
  - destruct (Csv.DictWriter_writerow NEW_HEADER r) as [line|e].
    + destruct (IH (text ++ line)) as [tail Ht]; rewrite Ht.
      exists (line ++ tail); apply append_assoc.
    + exists EmptyString; symmetry; apply append_empty_r.
Qed.

(** A store whose header has a current-layout marker column is left as it
    is. *)
Lemma migrate_current_noop `{LibM} (text : string) (header : list string)
    (records : list (list string)) (e : option exn) :
  Csv.reader text = (header :: records, e) ->
  mem "Tenure_Years" header || mem "EMI" header = true ->
  migrate_csv_if_needed (Some text) = (Ok tt, Some text).
Proof.
  intros Hr Hm; unfold migrate_csv_if_needed; rewrite Hr, Hm; reflexivity.
Qed.

(** The store after a migration is the store before it, or begins with
    the current header line. *)
Lemma migrate_outcome `{LibM} (fs : store) :
  snd (migrate_csv_if_needed fs) = fs
  \/ exists tail, snd (migrate_csv_if_needed fs) = Some (current_header_only ++ tail).
Proof.
  unfold migrate_csv_if_needed.
  destruct fs as [text|]; [|left; reflexivity].
  destruct (Csv.reader text) as [[|header records] [e|]]; try (left; reflexivity).
  - destruct (mem "Tenure_Years" header || mem "EMI" header); [left; reflexivity|].
    destruct (rows <- Csv.DictReader text ;; upgrade_rows rows) as [upgraded|];
      [|left; reflexivity].
    right; rewrite writeheader_text.
    destruct (write_rows_extends current_header_only upgraded) as [tail Ht].
    destruct (write_rows current_header_only upgraded) as [outcome text'].
    exists tail; simpl in *; congruence.
  - destruct (mem "Tenure_Years" header || mem "EMI" header); [left; reflexivity|].
    destruct (rows <- Csv.DictReader text ;; upgrade_rows rows) as [upgraded|];
      [|left; reflexivity].
    right; rewrite writeheader_text.
    destruct (write_rows_extends current_header_only upgraded) as [tail Ht].
    destruct (write_rows current_header_only upgraded) as [outcome text'].
    exists tail; simpl in *; congruence.
Qed.

(** C4: migration is idempotent on every store (also an absent one): a
    second run leaves the bytes the first run produced; and a store whose
    header already has a current-layout marker column is not touched. *)
Theorem migration_idempotent `{LibM} (fs : store) :
  snd (migrate_csv_if_needed (snd (migrate_csv_if_needed fs)))
  = snd (migrate_csv_if_needed fs)
  /\ (forall (text : string) (header : list string)
             (records : list (list string)) (e : option exn),
        fs = Some text ->
        Csv.reader text = (header :: records, e) ->
        mem "Tenure_Years" header || mem "EMI" header = true ->
        migrate_csv_if_needed fs = (Ok tt, fs)).
Proof.
  split.
  - destruct (migrate_outcome fs) as [Hsame | [tail Hnew]].
    + rewrite Hsame; exact Hsame.
    + rewrite Hnew.
      destruct (reader_current_header tail) as (records & e & Hr).
      rewrite (migrate_current_noop _ _ _ _ Hr); reflexivity.
  - intros text header records e -> Hr Hm.
    exact (migrate_current_noop _ _ _ _ Hr Hm).
Qed.

(** The legacy store with one row: the second run changes nothing, and a
    current store is left alone. *)
Lemma migration_idempotent_witness :
  snd (@migrate_csv_if_needed reference_libm
         (snd (@migrate_csv_if_needed reference_libm (Some rejected_legacy_store))))
  = snd (@migrate_csv_if_needed reference_libm (Some rejected_legacy_store))
  /\ @migrate_csv_if_needed reference_libm (Some current_header_only)
     = (Ok tt, Some current_header_only).
Proof.
  split.
  - exact (proj1 (@migration_idempotent reference_libm (Some rejected_legacy_store))).
  - exact (proj2 (@migration_idempotent reference_libm (Some current_header_only))
             current_header_only NEW_HEADER [] None eq_refl eq_refl eq_refl).
Defined.

(** C5, as the claim states it, fails: a legacy store that holds only its
    header is a header-only store, and migration rewrites it. *)
Lemma legacy_header_only_is_rewritten :
  Csv.reader legacy_header_only = ([LEGACY_HEADER], None)
  /\ snd (@migrate_csv_if_needed reference_libm (Some legacy_header_only))
     = Some current_header_only
  /\ snd (@migrate_csv_if_needed reference_libm (Some legacy_header_only))
     <> Some legacy_header_only.
Proof.
  split; [vm_compute; reflexivity | split; [vm_compute; reflexivity |]].
  vm_compute; discriminate.
Qed.

(** C5, amended: a zero-byte store is left untouched, and so is a store
    that holds only a header row with a current-layout marker column; a
    store that holds only a header row without such a column is rewritten
    to the current header row alone. *)
Theorem migrate_empty_store `{LibM} :
  migrate_csv_if_needed (Some EmptyString) = (Ok tt, Some EmptyString)
  /\ (forall (text : string) (header : list string),
        Csv.reader text = ([header], None) ->
        mem "Tenure_Years" header || mem "EMI" header = true ->
        migrate_csv_if_needed (Some text) = (Ok tt, Some text))
  /\ (forall (text : string) (header : list string),
        Csv.reader text = ([header], None) ->
        mem "Tenure_Years" header || mem "EMI" header = false ->
        migrate_csv_if_needed (Some text)
        = (Ok tt, Some (Csv.DictWriter_writeheader NEW_HEADER))).
Proof.
  split; [reflexivity | split].
  - intros text header Hr Hm; exact (migrate_current_noop _ _ _ _ Hr Hm).
  - intros text header Hr Hm.
    unfold migrate_csv_if_needed, Csv.DictReader; rewrite Hr, Hm; reflexivity.
Qed.

(** The three kinds of empty store. *)
Lemma migrate_empty_store_witness :
  @migrate_csv_if_needed reference_libm (Some EmptyString) = (Ok tt, Some EmptyString)
  /\ @migrate_csv_if_needed reference_libm (Some current_header_only)
     = (Ok tt, Some current_header_only)
  /\ @migrate_csv_if_needed reference_libm (Some legacy_header_only)
     = (Ok tt, Some (Csv.DictWriter_writeheader NEW_HEADER)).
Proof.
  pose proof (@migrate_empty_store reference_libm) as (Hzero & Hcurrent & Hlegacy).
  split; [exact Hzero | split].
  - apply (Hcurrent current_header_only NEW_HEADER); vm_compute; reflexivity.
  - apply (Hlegacy legacy_header_only LEGACY_HEADER); vm_compute; reflexivity.
Defined.

(** C2, where the code departs from it: the migrator gives the legacy row
    of a rejected application an EMI, here 600000 / 60 = 10000 at a rate
    of 0, and keeps the decision Rejected; the migrated store carries both. *)
Theorem migration_gives_rejected_row_an_emi `{LibM} :
  Csv.DictReader rejected_legacy_store = Ok [rejected_legacy_row]
  /\ (exists row,
        upgrade_row rejected_legacy_row = Ok row
        /\ dict_get row "EMI" = Some (PyFloat 10000%float)
        /\ dict_get row "Decision" = Some (PyStr "Rejected")
        /\ dict_get row "Loan_Status" = Some (PyStr "Rejected"))
  /\ migrate_csv_if_needed (Some rejected_legacy_store)
     = (Ok tt,
        Some (current_header_only
              ++ "Ravi,19,1000.0,600000.0,Home,5,Unemployed,900.0,90.0,500,0,10000.0,Rejected,2024-01-02 10:00:00,High debt-to-income ratio.,Rejected"
              ++ CRLF)).
Proof.
  split; [vm_compute; reflexivity | split].
  - eexists; split; [vm_compute; reflexivity | repeat split; reflexivity].
  - vm_compute; reflexivity.
Qed.

(** With the stand-in [pow], a rejected legacy row at the rate the old
    engine priced it (6.2) gets an EMI as well. *)
Lemma migration_prices_rejected_row :
  exists row,
    @upgrade_row reference_libm
      (Csv.dict_set rejected_legacy_row "InterestRate" (PyStr "6.2")) = Ok row
    /\ dict_get row "EMI" = Some (PyFloat 11655.56%float)
    /\ dict_get row "Decision" = Some (PyStr "Rejected").
Proof. eexists; split; [vm_compute; reflexivity | split; reflexivity]. Qed.

(** ** Readings of the model checked on values *)

(** The conversion of an int to float overflows from the first magnitude
    that rounds to [2^1024]. *)
Lemma float_overflow_threshold_rounds :
  F64.round_Z (float_overflow_threshold - 1)
  = S754_finite false (2 ^ 53 - 1) 971
  /\ F64.round_Z float_overflow_threshold = S754_infinity false.
Proof. split; vm_compute; reflexivity. Qed.

(** The approval rule tests the ratio before it is rounded for the record:
    a record can show a debt-to-income of 45.0 with a score of 720 and be
    rejected. *)
Lemma decision_tests_unrounded_ratio `{LibM} :
  exists r : decision_data,
    evaluate_application (PyStr "U") (PyInt 30) (PyInt 100000) (PyInt 400000)
      "Personal" "Salaried" (PyInt 45004) (PyInt 5) = Ok r
    /\ debt_to_income r = PyFloat 45%float
    /\ credit_score r = 720
    /\ decision r = Rejected.
Proof. eexists; split; [vm_compute; reflexivity | repeat split; reflexivity]. Qed.

(** The worked example as the form submits it (text fields), run with the
    stand-in [pow]: the installment is 7882.79. *)
Lemma worked_example_from_form :
  exists r : decision_data,
    @evaluate_application reference_libm (PyStr "Asha") (PyStr "30")
      (PyStr "100000") (PyStr "400000") "Personal" "Salaried" (PyStr "10000")
      (PyStr "5") = Ok r
    /\ debt_to_income r = PyFloat 10%float
    /\ credit_score r = 790
    /\ decision r = Approved
    /\ interest_rate r = 6.8%float
    /\ emi r = 7882.79%float
    /\ @calculate_emi reference_libm (PyInt 400000) (PyFloat 6.8%float) (PyInt 5)
       = Ok (emi r).
Proof. eexists; split; [vm_compute; reflexivity | repeat split; reflexivity]. Qed.

(** An approved application with a tenure of twenty thousand years: the
    growth factor leaves the range of floats and the engine raises. *)
Lemma evaluate_application_can_raise :
  @evaluate_application reference_libm (PyStr "Asha") (PyStr "30")
    (PyStr "100000") (PyStr "400000") "Personal" "Salaried" (PyStr "10000")
    (PyStr "20000") = Raise OverflowError.
Proof. vm_compute. reflexivity. Qed.

(** ** Further properties of the rate model and the engine *)

(** X3: for a given loan type, a higher score never gives a higher rate. *)
Theorem base_interest_rate_monotone (loan_type : string) (s1 s2 : Z) :
  s1 <= s2 ->
  (base_interest_rate loan_type s2 <=? base_interest_rate loan_type s1)%float = true.
Proof.
  intros Hle; unfold base_interest_rate.
  pose proof (dict_get_base_rates loan_type) as Hin.
  destruct (dict_get base_rates loan_type) as [r|];
    simpl in Hin;
    repeat match type of Hin with
           | _ \/ _ => destruct Hin as [Hin|Hin]
           end;
    try discriminate Hin; try contradiction;
    try (injection Hin as <-).
  all: destruct (780 <=? s1) eqn:A1; destruct (730 <=? s1) eqn:B1;
    destruct (680 <=? s1) eqn:C1; destruct (s1 <? 600) eqn:D1;
    destruct (780 <=? s2) eqn:A2; destruct (730 <=? s2) eqn:B2;
    destruct (680 <=? s2) eqn:C2; destruct (s2 <? 600) eqn:D2;
    try (vm_compute; reflexivity); exfalso;
    repeat match goal with
           | H : (_ <=? _) = true |- _ => apply Z.leb_le in H
           | H : (_ <=? _) = false |- _ => apply Z.leb_gt in H
           | H : (_ <? _) = true |- _ => apply Z.ltb_lt in H
           | H : (_ <? _) = false |- _ => apply Z.ltb_ge in H
           end; lia.
Qed.

Lemma base_interest_rate_monotone_witness :
  (base_interest_rate "Home" 790 <=? base_interest_rate "Home" 650)%float = true.
Proof.
  apply (base_interest_rate_monotone "Home" 650 790); lia.
Defined.

(** ** Further properties of the migrator *)

(** The values of an upgraded row, in the order of the current header. *)
Lemma upgrade_row_writes `{LibM} (row r : list (string * pyval)) :
  upgrade_row row = Ok r ->
  Csv.DictWriter_writerow NEW_HEADER r = Ok (Csv.writerow (map snd r))
  /\ map fst r = NEW_HEADER.
Proof.
  unfold upgrade_row, bind.
  match goal with
  | |- context [match ?m with Ok _ => _ | Raise _ => _ end] => destruct m as [[la rate]|]
  end; [|discriminate].
  destruct (calculate_emi la rate (PyInt DEFAULT_TENURE_YEARS)) as [emi|]; [|discriminate].
  intros [= <-]; split; reflexivity.
Qed.

Lemma upgrade_rows_each `{LibM} (rows upgraded : list (list (string * pyval))) :
  upgrade_rows rows = Ok upgraded ->
  Forall2 (fun row r => upgrade_row row = Ok r) rows upgraded.
Proof.
  revert upgraded; induction rows as [|row rows IH]; intros upgraded; simpl.
  - intros [= <-]; constructor.
  - unfold bind.
    destruct (upgrade_row row) as [r|] eqn:Hr; [|discriminate].
    destruct (upgrade_rows rows) as [rs|]; [|discriminate].
    intros [= <-]; constructor; [assumption | apply IH; reflexivity].
Qed.

(** Writing upgraded rows cannot fail: the file ends up with every row. *)
Lemma write_rows_upgraded `{LibM} (rows upgraded : list (list (string * pyval)))
    (text : string) :
  Forall2 (fun row r => upgrade_row row = Ok r) rows upgraded ->
  write_rows text upgraded
  = (Ok tt, text ++ concat_text (map (fun r => Csv.writerow (map snd r)) upgraded)).
Proof.
  intros Hall; revert text; induction Hall as [|row r rows upgraded Hr _ IH];
    intros text; simpl.
  - rewrite append_empty_r; reflexivity.
  - destruct (upgrade_row_writes row r Hr) as [-> _].
    rewrite IH, append_assoc; reflexivity.
Qed.

(** X5: a migration that raises leaves the store as it found it. *)
Theorem migrate_failure_keeps_store `{LibM} (fs : store) (e : exn) :
  fst (migrate_csv_if_needed fs) = Raise e ->
  snd (migrate_csv_if_needed fs) = fs.
Proof.
  unfold migrate_csv_if_needed.
  destruct fs as [text|]; [|reflexivity].
  destruct (Csv.reader text) as [[|header records] [e'|]]; try reflexivity.
  all: destruct (mem "Tenure_Years" header || mem "EMI" header); [reflexivity|].
  all: destruct (rows <- Csv.DictReader text ;; upgrade_rows rows) as [upgraded|] eqn:Hup;
    [|reflexivity].
  all: unfold bind in Hup; destruct (Csv.DictReader text) as [rows|]; [|discriminate].
  all: rewrite (write_rows_upgraded rows upgraded _ (upgrade_rows_each _ _ Hup)).
  all: simpl; discriminate.
Qed.

(** A legacy store whose row has a rate so small that the growth factor is
    1: the calculator divides by zero, the migration raises, the file stays. *)
Lemma migrate_failure_keeps_store_witness :
  @migrate_csv_if_needed reference_libm (Some ("InterestRate" ++ CRLF ++ "1e-20" ++ CRLF))
  = (Raise ZeroDivisionError, Some ("InterestRate" ++ CRLF ++ "1e-20" ++ CRLF)).
Proof.
  assert (Hf : fst (@migrate_csv_if_needed reference_libm
                      (Some ("InterestRate" ++ CRLF ++ "1e-20" ++ CRLF)))
               = Raise ZeroDivisionError) by (vm_compute; reflexivity).
  pose proof (@migrate_failure_keeps_store reference_libm _ _ Hf) as Hs.
  rewrite (surjective_pairing (@migrate_csv_if_needed reference_libm _)).
  rewrite Hf, Hs; reflexivity.
Defined.

(** ** The reader, character by character *)

Lemma feed_line_chars (self : Csv.ReaderObj) (cs : list ascii) :
  Csv.feed_line self cs
  = (self' <- feed_chars self cs ;; Csv.parse_process_char self' None).
Proof.
  revert self; induction cs as [|c cs IH]; intros self; simpl; [reflexivity|].
  unfold bind at 1 3.
  destruct (Csv.parse_process_char self (Some c)); [apply IH | reflexivity].
Qed.

Lemma feed_chars_app (self : Csv.ReaderObj) (cs ds : list ascii) :
  feed_chars self (cs ++ ds)%list
  = (self' <- feed_chars self cs ;; feed_chars self' ds).
Proof.
  revert self; induction cs as [|c cs IH]; intros self; simpl; [reflexivity|].
  unfold bind at 1 3.
  destruct (Csv.parse_process_char self (Some c)); [apply IH | reflexivity].
Qed.

(** A line under way is the head of the first line. *)
Lemma split_lines_head (s : string) (cur : list ascii) :
  cur <> [] ->
  exists l ls, Csv.split_lines cur s = (cur ++ l)%list :: ls.
Proof.
  revert cur; induction s as [|c s IH]; intros cur Hcur; simpl.
  - destruct cur; [contradiction|].
    exists [], []; rewrite app_nil_r; reflexivity.
  - destruct (Ascii.eqb c Csv.LF); [eexists [c], _; reflexivity|].
    destruct (Ascii.eqb c Csv.CR).
    + destruct s as [|c' s']; [eexists [c], _; reflexivity|].
      destruct (Ascii.eqb c' Csv.LF); [eexists [c; c'], _ | eexists [c], _]; reflexivity.
    + destruct (IH (cur ++ [c])%list) as (l & ls & Hl);
        [destruct cur; discriminate|].
      exists (c :: l), ls; rewrite Hl, <- app_assoc; reflexivity.
Qed.

(** A line whose first characters the machine refuses is refused. *)
Lemma records_refused (self : Csv.ReaderObj) (cur : list ascii) (e : exn) (s : string) :
  feed_chars self cur = Raise e ->
  Csv.records self (Csv.split_lines cur s) = ([], Some e).
Proof.
  intros Hf.
  assert (Hcur : cur <> []) by (intros ->; discriminate).
  destruct (split_lines_head s cur Hcur) as (l & ls & ->).
  simpl; rewrite feed_line_chars, feed_chars_app, Hf; reflexivity.
Qed.

(** The end of a line in the line-by-line reading. *)
Lemma records_line (self_ls self_now : Csv.ReaderObj) (cur : list ascii)
    (lines : list (list ascii)) :
  feed_chars self_ls cur = Ok self_now ->
  Csv.records self_ls (cur :: lines)
  = end_line self_now (fun self' => Csv.records self' lines).
Proof.
  intros Hf; simpl; rewrite feed_line_chars, Hf; unfold bind, end_line, emit.
  destruct (Csv.parse_process_char self_now None) as [self'|]; reflexivity.
Qed.

Lemma end_line_ext (self : Csv.ReaderObj)
    (k1 k2 : Csv.ReaderObj -> list (list string) * option exn) :
  (forall self', k1 self' = k2 self') -> end_line self k1 = end_line self k2.
Proof.
  intros Hk; unfold end_line.
  destruct (Csv.parse_process_char self None) as [self'|]; [|reflexivity].
  rewrite !Hk; reflexivity.
Qed.

(** The cut into lines, one character at a time. *)
Lemma split_lines_step (cur : list ascii) (c : ascii) (s : string) :
  Csv.split_lines cur (String c s)
  = if line_ends_after c s
    then (cur ++ [c])%list :: Csv.split_lines [] s
    else Csv.split_lines (cur ++ [c])%list s.
Proof.
  unfold line_ends_after; cbn [Csv.split_lines].
  destruct (Ascii.eqb c Csv.LF); [reflexivity|]; cbn [orb].
  destruct (Ascii.eqb c Csv.CR); [|reflexivity]; cbn [andb].
  destruct s as [|c' s']; [reflexivity|].
  destruct (Ascii.eqb c' Csv.LF) eqn:Hc'; cbn [negb]; [|reflexivity].
  cbn [Csv.split_lines]; rewrite Hc', <- app_assoc; reflexivity.
Qed.

Lemma run_cons (self : Csv.ReaderObj) (pending : bool) (c : ascii) (s : string) :
  run self pending (String c s)
  = match Csv.parse_process_char self (Some c) with
    | Raise e => ([], Some e)
    | Ok self1 =>
        if line_ends_after c s
        then end_line self1 (fun self2 => run self2 false s)
        else run self1 true s
    end.
Proof. reflexivity. Qed.

(** Reading line by line and reading character by character agree. *)
Lemma records_run (s : string) (cur : list ascii) (self_ls self_now : Csv.ReaderObj) :
  feed_chars self_ls cur = Ok self_now ->
  Csv.records self_ls (Csv.split_lines cur s) = run self_now (nonempty cur) s.
Proof.
  revert cur self_ls self_now; induction s as [|c s IH];
    intros cur self_ls self_now Hf.
  - destruct cur as [|c0 cur].
    + simpl in Hf; injection Hf as <-; reflexivity.
    + cbn [Csv.split_lines nonempty run].
      apply (records_line _ _ _ [] Hf).
  - rewrite split_lines_step, run_cons.
    destruct (Csv.parse_process_char self_now (Some c)) as [self1|e] eqn:Hc.
    + assert (Hf1 : feed_chars self_ls (cur ++ [c])%list = Ok self1)
        by (rewrite feed_chars_app, Hf; simpl; rewrite Hc; reflexivity).
      destruct (line_ends_after c s).
      * rewrite (records_line _ _ _ _ Hf1); apply end_line_ext; intros self'.
        exact (IH [] self' self' eq_refl).
      * rewrite (IH _ _ _ Hf1); destruct cur; reflexivity.
    + assert (Hf1 : feed_chars self_ls (cur ++ [c])%list = Raise e)
        by (rewrite feed_chars_app, Hf; simpl; rewrite Hc; reflexivity).
      destruct (line_ends_after c s).
      * cbn [Csv.records]; rewrite feed_line_chars, Hf1; reflexivity.
      * apply records_refused; exact Hf1.
Qed.

(** [Csv.reader] is the character-by-character reading from a fresh
    machine. *)
Lemma reader_run (text : string) : Csv.reader text = run Csv.parse_reset false text.
Proof.
  unfold Csv.reader.
  exact (records_run text [] Csv.parse_reset Csv.parse_reset eq_refl).
Qed.

(** ** What the writer writes, the reader reads back *)

Lemma app_chars_app (l1 l2 : list ascii) (s : string) :
  app_chars (l1 ++ l2)%list s = app_chars l1 (app_chars l2 s).
Proof. induction l1 as [|c l1 IH]; simpl; [reflexivity | rewrite IH; reflexivity]. Qed.

Lemma app_chars_string (l : list ascii) (s : string) :
  (string_of_list_ascii l ++ s)%string = app_chars l s.
Proof. induction l as [|c l IH]; simpl; [reflexivity | rewrite IH; reflexivity]. Qed.

Lemma length_list_ascii (s : string) :
  List.length (list_ascii_of_string s) = String.length s.
Proof. induction s as [|c s IH]; simpl; [reflexivity | rewrite IH; reflexivity]. Qed.

Lemma plain_facts (c : ascii) :
  plain c = true ->
  Ascii.eqb c Csv.quotechar = false /\ Ascii.eqb c Csv.delimiter = false
  /\ Csv.is_newline c = false /\ Ascii.eqb c Csv.LF = false
  /\ Ascii.eqb c Csv.CR = false.
Proof.
  unfold plain, Csv.is_newline.
  destruct (Ascii.eqb c Csv.quotechar), (Ascii.eqb c Csv.delimiter),
    (Ascii.eqb c Csv.LF), (Ascii.eqb c Csv.CR); simpl; intros H;
    try discriminate; repeat split; reflexivity.
Qed.

Lemma line_continues (c : ascii) (s : string) :
  Csv.is_newline c = false -> line_ends_after c s = false.
Proof.
  unfold Csv.is_newline, line_ends_after.
  destruct (Ascii.eqb c Csv.LF), (Ascii.eqb c Csv.CR); simpl; intros H;
    try discriminate; reflexivity.
Qed.

Lemma add_char_ok (st : Csv.ParserState) (F : list string) (g : list ascii) (c : ascii) :
  Z.of_nat (List.length g) < Csv.field_limit ->
  Csv.parse_add_char (machine st F g) c = Ok (machine st F (g ++ [c])).
Proof.
  intros Hlen; unfold Csv.parse_add_char, machine; cbn [Csv.field Csv.state Csv.fields].
  destruct (Csv.field_limit <=? Z.of_nat (List.length g)) eqn:Hl;
    [apply Z.leb_le in Hl; lia | reflexivity].
Qed.

(** *** The steps of the machine on what the writer produces *)

Lemma step_in_field (F : list string) (g : list ascii) (c : ascii) :
  plain c = true -> Z.of_nat (List.length g) < Csv.field_limit ->
  Csv.parse_process_char (machine Csv.IN_FIELD F g) (Some c)
  = Ok (machine Csv.IN_FIELD F (g ++ [c])).
Proof.
  intros Hp Hlen; destruct (plain_facts c Hp) as (_ & Hd & Hn & _).
  unfold Csv.parse_process_char; cbn [Csv.state machine]; rewrite Hn, Hd.
  apply (add_char_ok Csv.IN_FIELD); exact Hlen.
Qed.

Lemma step_start_field_plain (F : list string) (c : ascii) :
  plain c = true ->
  Csv.parse_process_char (machine Csv.START_FIELD F []) (Some c)
  = Ok (machine Csv.IN_FIELD F [c]).
Proof.
  intros Hp; destruct (plain_facts c Hp) as (Hq & Hd & Hn & _).
  unfold Csv.parse_process_char; cbn [Csv.state machine]; rewrite Hn, Hq, Hd.
  reflexivity.
Qed.

Lemma step_open_quote (F : list string) :
  Csv.parse_process_char (machine Csv.START_FIELD F []) (Some Csv.quotechar)
  = Ok (machine Csv.IN_QUOTED_FIELD F []).
Proof. reflexivity. Qed.

Lemma step_in_quoted (F : list string) (g : list ascii) (c : ascii) :
  Ascii.eqb c Csv.quotechar = false ->
  Z.of_nat (List.length g) < Csv.field_limit ->
  Csv.parse_process_char (machine Csv.IN_QUOTED_FIELD F g) (Some c)
  = Ok (machine Csv.IN_QUOTED_FIELD F (g ++ [c])).
Proof.
  intros Hq Hlen; unfold Csv.parse_process_char; cbn [Csv.state machine]; rewrite Hq.
  apply (add_char_ok Csv.IN_QUOTED_FIELD); exact Hlen.
Qed.

Lemma step_quote_in_quoted (F : list string) (g : list ascii) :
  Csv.parse_process_char (machine Csv.IN_QUOTED_FIELD F g) (Some Csv.quotechar)
  = Ok (machine Csv.QUOTE_IN_QUOTED_FIELD F g).
Proof. reflexivity. Qed.

Lemma step_doubled_quote (F : list string) (g : list ascii) :
  Z.of_nat (List.length g) < Csv.field_limit ->
  Csv.parse_process_char (machine Csv.QUOTE_IN_QUOTED_FIELD F g) (Some Csv.quotechar)
  = Ok (machine Csv.IN_QUOTED_FIELD F (g ++ [Csv.quotechar])).
Proof.
  intros Hlen; unfold Csv.parse_process_char; cbn [Csv.state machine].
  change (Ascii.eqb Csv.quotechar Csv.quotechar) with true; cbv iota.
  unfold bind; rewrite (add_char_ok Csv.QUOTE_IN_QUOTED_FIELD) by exact Hlen.
  reflexivity.
Qed.

Lemma step_delimiter (st : Csv.ParserState) (F : list string) (g : list ascii) :
  field_done st g ->
  Csv.parse_process_char (machine st F g) (Some Csv.delimiter)
  = Ok (machine Csv.START_FIELD (F ++ [string_of_list_ascii g]) []).
Proof. intros [-> | [-> | [-> ->]]]; reflexivity. Qed.

Lemma step_terminator (st : Csv.ParserState) (F : list string) (g : list ascii) :
  field_done st g ->
  Csv.parse_process_char (machine st F g) (Some Csv.CR)
  = Ok (machine Csv.EAT_CRNL (F ++ [string_of_list_ascii g]) []).
Proof. intros [-> | [-> | [-> ->]]]; reflexivity. Qed.

(** *** Fields *)

Lemma run_pending (self : Csv.ReaderObj) (p q : bool) (c : ascii) (s : string) :
  run self p (String c s) = run self q (String c s).
Proof. reflexivity. Qed.

(** Plain characters of a field under way. *)
Lemma run_plain (cs : list ascii) (F : list string) (g : list ascii) (p : bool)
    (t : ascii) (tail : string) :
  forallb plain cs = true ->
  Z.of_nat (List.length g + List.length cs) <= Csv.field_limit ->
  run (machine Csv.IN_FIELD F g) p (app_chars cs (String t tail))
  = run (machine Csv.IN_FIELD F (g ++ cs)) true (String t tail).
Proof.
  revert g p; induction cs as [|c cs IH]; intros g p Hplain Hlen.
  - rewrite app_nil_r; reflexivity.
  - simpl in Hplain; apply andb_true_iff in Hplain; destruct Hplain as [Hc Hcs].
    simpl in Hlen.
    cbn [app_chars]; rewrite run_cons, step_in_field by (assumption || lia).
    rewrite line_continues by (apply (plain_facts c Hc)).
    rewrite IH by (try assumption; rewrite length_app; simpl; lia).
    rewrite <- app_assoc; reflexivity.
Qed.

Lemma escape_cons (c : ascii) (cs : list ascii) :
  Csv.escape (c :: cs)
  = if Ascii.eqb c Csv.quotechar
    then (c :: c :: fst (Csv.escape cs), true)
    else if Ascii.eqb c Csv.delimiter || Csv.is_newline c
         then (c :: fst (Csv.escape cs), true)
         else (c :: fst (Csv.escape cs), snd (Csv.escape cs)).
Proof. simpl; destruct (Csv.escape cs); reflexivity. Qed.

(** A field that needs no quotes is written as it is and is plain. *)
Lemma escape_unquoted (cs : list ascii) :
  snd (Csv.escape cs) = false ->
  fst (Csv.escape cs) = cs /\ forallb plain cs = true.
Proof.
  induction cs as [|c cs IH]; [intros _; split; reflexivity|].
  rewrite escape_cons.
  destruct (Ascii.eqb c Csv.quotechar) eqn:Hq; [discriminate|].
  destruct (Ascii.eqb c Csv.delimiter || Csv.is_newline c) eqn:Hd; [discriminate|].
  cbn [fst snd]; intros Hs; destruct (IH Hs) as [Hb Hp].
  split; [rewrite Hb; reflexivity|].
  cbn [forallb]; unfold plain at 1; rewrite Hq; cbn [orb]; rewrite Hd; exact Hp.
Qed.

(** The body of a quoted field. *)
Lemma run_quoted_body (cs : list ascii) (F : list string) (g : list ascii)
    (p : bool) (t : ascii) (tail : string) :
  Z.of_nat (List.length g + List.length cs) <= Csv.field_limit ->
  run (machine Csv.IN_QUOTED_FIELD F g) p
    (app_chars (fst (Csv.escape cs)) (String t tail))
  = run (machine Csv.IN_QUOTED_FIELD F (g ++ cs)) true (String t tail).
Proof.
  revert g p; induction cs as [|c cs IH]; intros g p Hlen.
  - rewrite app_nil_r; reflexivity.
  - simpl in Hlen.
    assert (Hnext : forall q,
               run (machine Csv.IN_QUOTED_FIELD F (g ++ [c])) q
                 (app_chars (fst (Csv.escape cs)) (String t tail))
               = run (machine Csv.IN_QUOTED_FIELD F (g ++ c :: cs)) true (String t tail)).
    { intros q; rewrite IH by (rewrite length_app; simpl; lia).
      rewrite <- app_assoc; reflexivity. }
    rewrite escape_cons.
    destruct (Ascii.eqb c Csv.quotechar) eqn:Hq.
    + apply Ascii.eqb_eq in Hq; subst c.
      cbn [fst app_chars].
      rewrite run_cons, step_quote_in_quoted.
      rewrite line_continues by reflexivity.
      rewrite run_cons, step_doubled_quote by lia.
      rewrite line_continues by reflexivity.
      apply Hnext.
    + assert (Hfst : fst (if Ascii.eqb c Csv.delimiter || Csv.is_newline c
                          then (c :: fst (Csv.escape cs), true)
                          else (c :: fst (Csv.escape cs), snd (Csv.escape cs)))
                     = c :: fst (Csv.escape cs))
        by (destruct (Ascii.eqb c Csv.delimiter || Csv.is_newline c); reflexivity).
      rewrite Hfst; cbn [app_chars].
      rewrite run_cons, step_in_quoted by (assumption || lia).
      destruct (line_ends_after c _); [|apply Hnext].
      unfold end_line; cbn; apply Hnext.
Qed.

(** One field as the writer writes it, read from the start of a field. *)
Lemma run_field (f : string) (F : list string) (p : bool) (t : ascii) (tail : string) :
  within_limit f ->
  exists st,
    field_done st (list_ascii_of_string f)
    /\ run (machine Csv.START_FIELD F []) p
         (app_chars (Csv.join_append f) (String t tail))
       = run (machine st F (list_ascii_of_string f)) true (String t tail).
Proof.
  unfold within_limit; rewrite <- length_list_ascii; intros Hlen.
  unfold Csv.join_append.
  destruct (Csv.escape (list_ascii_of_string f)) as [body quoted] eqn:He.
  destruct quoted.
  - exists Csv.QUOTE_IN_QUOTED_FIELD; split; [right; left; reflexivity|].
    assert (Hbody : body = fst (Csv.escape (list_ascii_of_string f)))
      by (rewrite He; reflexivity).
    cbn [app_chars]; rewrite app_chars_app; cbn [app_chars].
    rewrite run_cons, step_open_quote, line_continues by reflexivity.
    rewrite Hbody, run_quoted_body by (simpl; lia).
    cbn [app]; rewrite run_cons, step_quote_in_quoted, line_continues by reflexivity.
    reflexivity.
  - destruct (escape_unquoted (list_ascii_of_string f)) as [Hb Hp];
      [rewrite He; reflexivity|].
    rewrite He in Hb; cbn [fst] in Hb; subst body.
    destruct (list_ascii_of_string f) as [|c cs] eqn:Hf.
    + exists Csv.START_FIELD; split; [right; right; split; reflexivity | reflexivity].
    + exists Csv.IN_FIELD; split; [left; reflexivity|].
      cbn [forallb] in Hp; apply andb_true_iff in Hp; destruct Hp as [Hc Hcs].
      simpl in Hlen.
      cbn [app_chars]; rewrite run_cons, step_start_field_plain by assumption.
      rewrite line_continues by (apply (plain_facts c Hc)).
      rewrite run_plain by (try assumption; simpl; lia).
      reflexivity.
Qed.

(** The line terminator after a complete field: the record is yielded. *)
Lemma run_terminator (st : Csv.ParserState) (F : list string) (g : list ascii)
    (p : bool) (rest : string) :
  field_done st g ->
  run (machine st F g) p (String Csv.CR (String Csv.LF rest))
  = emit (F ++ [string_of_list_ascii g]) (run Csv.parse_reset false rest).
Proof.
  intros Hd; rewrite run_cons, (step_terminator st F g Hd).
  change (line_ends_after Csv.CR (String Csv.LF rest)) with false; cbv iota.
  rewrite run_cons; reflexivity.
Qed.

(** The fields of a record, read from the start of a field. *)
Lemma run_fields (texts : list string) (F : list string) (p : bool) (rest : string) :
  texts <> [] ->
  Forall within_limit texts ->
  run (machine Csv.START_FIELD F []) p
    (app_chars (Csv.join_fields texts) (String Csv.CR (String Csv.LF rest)))
  = emit (F ++ texts) (run Csv.parse_reset false rest).
Proof.
  revert F p; induction texts as [|f texts IH]; intros F p Hne Hall;
    [contradiction|].
  inversion Hall as [|? ? Hf Hrest]; subst.
  destruct texts as [|g texts].
  - cbn [Csv.join_fields].
    destruct (run_field f F p Csv.CR (String Csv.LF rest) Hf) as (st & Hd & ->).
    rewrite (run_terminator st F _ true rest Hd).
    rewrite string_of_list_ascii_of_string; reflexivity.
  - change (Csv.join_fields (f :: g :: texts))
      with (Csv.join_append f ++ Csv.delimiter :: Csv.join_fields (g :: texts))%list.
    rewrite app_chars_app; cbn [app_chars].
    destruct (run_field f F p Csv.delimiter
                (app_chars (Csv.join_fields (g :: texts))
                   (String Csv.CR (String Csv.LF rest))) Hf) as (st & Hd & ->).
    rewrite run_cons, (step_delimiter st F _ Hd), line_continues by reflexivity.
    rewrite string_of_list_ascii_of_string.
    rewrite IH by (discriminate || assumption).
    rewrite <- app_assoc; reflexivity.
Qed.

(** *** Records *)

Lemma join_append_empty (f : string) : Csv.join_append f = [] -> f = EmptyString.
Proof.
  unfold Csv.join_append.
  destruct (Csv.escape (list_ascii_of_string f)) as [body quoted] eqn:He.
  destruct quoted; [discriminate|].
  intros ->.
  destruct (escape_unquoted (list_ascii_of_string f)) as [Hb _];
    [rewrite He; reflexivity|].
  rewrite He in Hb; cbn [fst] in Hb.
  rewrite <- (string_of_list_ascii_of_string f), <- Hb; reflexivity.
Qed.

(** Only the record of one empty field is written with no character. *)
Lemma join_fields_empty (texts : list string) :
  Csv.join_fields texts = [] -> texts = [] \/ texts = [EmptyString].
Proof.
  destruct texts as [|f [|g texts]]; [left; reflexivity | |].
  - cbn [Csv.join_fields]; intros Hf; right; rewrite (join_append_empty f Hf); reflexivity.
  - change (Csv.join_fields (f :: g :: texts))
      with (Csv.join_append f ++ Csv.delimiter :: Csv.join_fields (g :: texts))%list.
    intros Hf; apply app_eq_nil in Hf; destruct Hf as [_ Hf]; discriminate.
Qed.

Lemma join_append_head (f : string) (c : ascii) (l : list ascii) :
  Csv.join_append f = c :: l -> Csv.is_newline c = false.
Proof.
  unfold Csv.join_append.
  destruct (Csv.escape (list_ascii_of_string f)) as [body quoted] eqn:He.
  destruct quoted.
  - intros [= <- _]; reflexivity.
  - intros ->.
    destruct (escape_unquoted (list_ascii_of_string f)) as [_ Hp];
      [rewrite He; reflexivity|].
    destruct (escape_unquoted (list_ascii_of_string f)) as [Hb _];
      [rewrite He; reflexivity|].
    rewrite He in Hb; cbn [fst] in Hb; rewrite <- Hb in Hp.
    cbn [forallb] in Hp; apply andb_true_iff in Hp; destruct Hp as [Hc _].
    apply (plain_facts c Hc).
Qed.

(** A written record does not begin with a line break. *)
Lemma join_fields_head (texts : list string) (c : ascii) (l : list ascii) :
  Csv.join_fields texts = c :: l -> Csv.is_newline c = false.
Proof.
  destruct texts as [|f [|g texts]]; [discriminate | apply join_append_head |].
  change (Csv.join_fields (f :: g :: texts))
    with (Csv.join_append f ++ Csv.delimiter :: Csv.join_fields (g :: texts))%list.
  destruct (Csv.join_append f) as [|c' l'] eqn:Hf.
  - intros [= <- _]; reflexivity.
  - intros [= <- _]; exact (join_append_head f c' l' Hf).
Qed.

(** From the start of a record, a character that is no line break is
    taken as from the start of a field. *)
Lemma run_start_record (p : bool) (c : ascii) (s : string) :
  Csv.is_newline c = false ->
  run Csv.parse_reset p (String c s)
  = run (machine Csv.START_FIELD [] []) p (String c s).
Proof.
  intros Hn; rewrite !run_cons.
  unfold Csv.parse_process_char; cbn [Csv.state Csv.parse_reset machine].
  rewrite Hn; reflexivity.
Qed.

Lemma run_writerow (row : list pyval) (rest : string) :
  row_within_limit row ->
  run Csv.parse_reset false (Csv.writerow row ++ rest)
  = emit (map Csv.field_text row) (run Csv.parse_reset false rest).
Proof.
  intros Hall; unfold Csv.writerow.
  assert (Htexts : Forall within_limit (map Csv.field_text row))
    by (apply Forall_map; exact Hall).
  rewrite app_chars_string, app_chars_app; cbn [app_chars].
  destruct row as [|v row].
  - (* no field: a blank line *)
    cbn [map Csv.join_fields app_chars]; rewrite !run_cons; reflexivity.
  - destruct (Csv.join_fields (map Csv.field_text (v :: row))) as [|c l] eqn:Hj.
    + destruct (join_fields_empty _ Hj) as [Ht | Ht]; [discriminate|].
      rewrite Ht; cbn [app_chars]; rewrite !run_cons; reflexivity.
    + rewrite <- Hj.
      assert (Hhead : app_chars (Csv.join_fields (map Csv.field_text (v :: row)))
                        (String Csv.CR (String Csv.LF rest))
                      = String c (app_chars l (String Csv.CR (String Csv.LF rest))))
        by (rewrite Hj; reflexivity).
      rewrite Hhead, run_start_record by exact (join_fields_head _ c l Hj).
      rewrite <- Hhead.
      rewrite run_fields by (discriminate || exact Htexts).
      reflexivity.
Qed.

(** A row the writer wrote is read back as the texts of its fields,
    whatever follows it in the file, when no field is longer than the
    reader's limit. *)
Lemma reader_written_line (row : list pyval) (rest : string) :
  row_within_limit row ->
  Csv.reader (Csv.writerow row ++ rest)
  = emit (map Csv.field_text row) (Csv.reader rest).
Proof. intros Hall; rewrite !reader_run; apply run_writerow; exact Hall. Qed.

(** ** The text of a number stays far below the reader's field limit *)

Lemma digits_rev_length (fuel : nat) (z : Z) :
  (List.length (digits_rev fuel z) <= fuel)%nat.
Proof.
  revert z; induction fuel as [|fuel IH]; intros z; simpl; [lia|].
  destruct (z <? 10); simpl; [lia|].
  specialize (IH (z / 10)); lia.
Qed.

Lemma str_of_int_length (z : Z) :
  Z.of_nat (String.length (str_of_int z)) <= 2 + Z.log2 (Z.abs z).
Proof.
  unfold str_of_int.
  rewrite <- length_list_ascii, list_ascii_of_string_of_list_ascii.
  pose proof (digits_rev_length (S (Z.to_nat (Z.log2 (Z.abs z)))) (Z.abs z)) as Hd.
  pose proof (Z.log2_nonneg (Z.abs z)) as Hl.
  destruct (z <? 0); cbn [List.length]; rewrite length_rev; lia.
Qed.

Lemma first_pow10_above_range (fuel : nat) (m : positive) (e t : Z) :
  t <= Repr.first_pow10_above fuel m e t <= t + Z.of_nat fuel.
Proof.
  revert t; induction fuel as [|fuel IH]; intros t; simpl Repr.first_pow10_above; [lia|].
  destruct (Repr.lt_pow10 m e t); [lia|].
  specialize (IH (t + 1)); lia.
Qed.

(** The exponent of a finite float is at least -1074. *)
Lemma finite_float_exponent (x : float) (s : bool) (m : positive) (e : Z) :
  Prim2SF x = S754_finite s m e -> -1074 <= e.
Proof.
  intros Hx; pose proof (Prim2SF_valid x) as Hv; rewrite Hx in Hv.
  unfold valid_binary, bounded, canonical_mantissa in Hv.
  apply andb_true_iff in Hv; destruct Hv as [Hc _].
  apply Z.eqb_eq in Hc.
  unfold fexp, FloatOps.emin, SpecFloat.emin, prec, emax in *; lia.
Qed.

Lemma decimal_point_range (m : positive) (e : Z) :
  Zpos m < 2 ^ 53 -> -1074 <= e <= 971 ->
  -326 <= Repr.decimal_point m e <= 314.
Proof.
  intros Hm He; unfold Repr.decimal_point.
  pose proof (first_pow10_above_range 8 m e
                ((Zdigits2 (Zpos m) + e - 1) * 30103 / 100000 - 2)) as Hr.
  assert (Hd : 1 <= Zdigits2 (Zpos m) <= 53).
  { cbn [Zdigits2]; split; [lia|].
    destruct (Z.le_gt_cases (Zpos (digits2_pos m)) 53) as [Hle|Hgt]; [exact Hle|].
    exfalso.
    assert (H54 : 2 ^ 53 <= Zpos m).
    { clear - Hgt.
      assert (Hgen : forall (p : positive) (k : Z),
                 0 <= k -> k < Zpos (digits2_pos p) -> 2 ^ k <= Zpos p).
      { induction p as [p IH|p IH|]; intros k Hk Hlt; simpl digits2_pos in Hlt;
          rewrite ?Pos2Z.inj_succ in Hlt.
        - destruct (Z.eq_dec k 0) as [->|Hk0]; [change (2 ^ 0) with 1; lia|].
          specialize (IH (k - 1) ltac:(lia) ltac:(lia)).
          replace k with (Z.succ (k - 1)) by lia.
          rewrite Z.pow_succ_r by lia; lia.
        - destruct (Z.eq_dec k 0) as [->|Hk0]; [change (2 ^ 0) with 1; lia|].
          specialize (IH (k - 1) ltac:(lia) ltac:(lia)).
          replace k with (Z.succ (k - 1)) by lia.
          rewrite Z.pow_succ_r by lia; lia.
        - assert (k = 0) by lia; subst k; change (2 ^ 0) with 1; lia. }
      apply Hgen; lia. }
    lia. }
  assert (Hest : -324 <= (Zdigits2 (Zpos m) + e - 1) * 30103 / 100000 <= 308).
  { split.
    - apply Z.div_le_lower_bound; lia.
    - apply Z.lt_succ_r, Z.div_lt_upper_bound; lia. }
  simpl Z.of_nat in Hr; lia.
Qed.

Lemma pow10_le_pow2 (k : Z) : 0 <= k -> 10 ^ k <= 2 ^ (4 * k).
Proof.
  intros Hk; rewrite Z.pow_mul_r by lia.
  apply Z.pow_le_mono_l; simpl; lia.
Qed.

(** The scaled mantissa is below [2^2401]. *)
Lemma scaled_bound (m : positive) (e q : Z) :
  Zpos m < 2 ^ 53 -> e <= 971 -> -344 <= q ->
  0 <= fst (fst (Repr.scaled m e q)) < 2 ^ 2400.
Proof.
  intros Hm He Hq; unfold Repr.scaled; cbn [fst].
  set (A := if 0 <=? e then 2 ^ e else 1).
  set (B := if q <? 0 then 10 ^ (- q) else 1).
  set (den := (if 0 <=? q then 10 ^ q else 1) * (if e <? 0 then 2 ^ (- e) else 1)).
  assert (HA : 1 <= A <= 2 ^ 971).
  { subst A; destruct (0 <=? e) eqn:H0.
    - apply Z.leb_le in H0; split.
      + apply (Z.pow_le_mono_r 2 0 e); lia.
      + apply Z.pow_le_mono_r; lia.
    - split; [lia | apply (Z.pow_le_mono_r 2 0 971); lia]. }
  assert (HB : 1 <= B <= 2 ^ 1376).
  { subst B; destruct (q <? 0) eqn:H0.
    - apply Z.ltb_lt in H0; split.
      + apply (Z.pow_le_mono_r 10 0 (- q)); lia.
      + apply Z.le_trans with (2 ^ (4 * - q)); [apply pow10_le_pow2; lia|].
        apply Z.pow_le_mono_r; lia.
    - split; [lia | apply (Z.pow_le_mono_r 2 0 1376); lia]. }
  assert (Hden : 1 <= den).
  { subst den.
    assert (1 <= (if 0 <=? q then 10 ^ q else 1)).
    { destruct (0 <=? q) eqn:H0; [|lia].
      apply Z.leb_le in H0; apply (Z.pow_le_mono_r 10 0 q); lia. }
    assert (1 <= (if e <? 0 then 2 ^ (- e) else 1)).
    { destruct (e <? 0) eqn:H0; [|lia].
      apply Z.ltb_lt in H0; apply (Z.pow_le_mono_r 2 0 (- e)); lia. }
    nia. }
  assert (Hnum : 0 <= Zpos m * A * B < 2 ^ 2400).
  { split; [nia|].
    replace (2 ^ 2400) with (2 ^ 53 * 2 ^ 971 * 2 ^ 1376)
      by (rewrite <- !Z.pow_add_r by lia; reflexivity).
    assert (H1 : Zpos m * A < 2 ^ 53 * 2 ^ 971).
    { apply Z.le_lt_trans with (Zpos m * 2 ^ 971).
      - apply Z.mul_le_mono_nonneg_l; lia.
      - apply Z.mul_lt_mono_pos_r; [apply Z.pow_pos_nonneg; lia | exact Hm]. }
    apply Z.le_lt_trans with (Zpos m * A * 2 ^ 1376).
    - apply Z.mul_le_mono_nonneg_l; [nia | lia].
    - apply Z.mul_lt_mono_pos_r; [apply Z.pow_pos_nonneg; lia | exact H1]. }
  split.
  - apply Z.div_pos; lia.
  - apply Z.le_lt_trans with (Zpos m * A * B); [|lia].
    apply Z.div_le_upper_bound; [lia|].
    assert (0 <= Zpos m * A * B) by lia.
    nia.
Qed.

Lemma candidate_shape (x : float) (m : positive) (e k c q : Z) :
  Repr.candidate x m e k = Some (c, q) ->
  q = Repr.decimal_point m e - k
  /\ (c = fst (fst (Repr.scaled m e q)) \/ c = fst (fst (Repr.scaled m e q)) + 1).
Proof.
  unfold Repr.candidate.
  destruct (Repr.scaled m e (Repr.decimal_point m e - k)) as [[lo exact] side] eqn:Hs.
  destruct exact.
  - intros [= <- <-]; rewrite Hs; auto.
  - destruct (Repr.reads_back x lo _), (Repr.reads_back x (lo + 1) _);
      try discriminate; try (intros [= <- <-]; rewrite Hs; auto).
    destruct side; [destruct (Z.even lo)| |]; intros [= <- <-]; rewrite Hs; auto.
Qed.

Lemma shortest_shape (fuel : nat) (x : float) (m : positive) (e k c q : Z) :
  Repr.shortest fuel x m e k = (c, q) ->
  exists k', k <= k' <= k + Z.of_nat fuel
             /\ q = Repr.decimal_point m e - k'
             /\ (c = fst (fst (Repr.scaled m e q))
                 \/ c = fst (fst (Repr.scaled m e q)) + 1).
Proof.
  revert k; induction fuel as [|fuel IH]; intros k; simpl Repr.shortest.
  - intros [= <- <-]; exists k; repeat split; try lia; auto.
  - destruct (Repr.candidate x m e k) as [[c' q']|] eqn:Hc.
    + intros [= <- <-]; destruct (candidate_shape _ _ _ _ _ _ Hc) as [Hq Hcq].
      exists k; repeat split; try lia; auto.
    + intros Hs; destruct (IH (k + 1) Hs) as (k' & Hk & Hq & Hcq).
      exists k'; repeat split; try lia; auto.
Qed.

Lemma strip_zeros_shape (ds : list ascii) (q : Z) :
  (List.length (fst (Repr.strip_zeros ds q)) <= List.length ds)%nat
  /\ q <= snd (Repr.strip_zeros ds q) <= q + Z.of_nat (List.length ds).
Proof.
  revert q; induction ds as [|d ds IH]; intros q; simpl Repr.strip_zeros.
  - simpl; lia.
  - destruct (Ascii.eqb d "0").
    + destruct ds as [|d' ds']; [simpl; lia|].
      specialize (IH (q + 1)); simpl List.length in *.
      destruct IH as [IH1 IH2]; split; lia.
    + simpl; lia.
Qed.

Lemma two_digits_length (z : Z) :
  Z.of_nat (List.length (Repr.two_digits z)) <= 3 + Z.log2 (Z.abs z).
Proof.
  unfold Repr.two_digits.
  pose proof (str_of_int_length z) as Hs; rewrite <- length_list_ascii in Hs.
  destruct (z <? 10); simpl List.length; lia.
Qed.

Lemma layout_length (ds : list ascii) (p : Z) :
  Z.of_nat (List.length (Repr.layout ds p))
  <= Z.of_nat (List.length ds) + Z.abs p + 20.
Proof.
  unfold Repr.layout.
  destruct ((p <=? -4) || (16 <? p)) eqn:Hexp.
  - rewrite length_app; cbn [List.length].
    pose proof (two_digits_length (Z.abs (p - 1))) as Ht.
    pose proof (Z.log2_le_lin (Z.abs (Z.abs (p - 1))) (Z.abs_nonneg _)) as Hl.
    assert (Hm : (List.length match ds with
                              | d :: r :: rest => d :: "."%char :: r :: rest
                              | _ => ds
                              end <= S (List.length ds))%nat)
      by (destruct ds as [|d [|r rest]]; simpl; lia).
    lia.
  - apply orb_false_iff in Hexp; destruct Hexp as [H4 H16].
    apply Z.leb_gt in H4; apply Z.ltb_ge in H16.
    destruct (p <=? 0) eqn:H0.
    + cbn [List.length]; rewrite length_app; unfold Repr.zeros; rewrite repeat_length; lia.
    + destruct (p <? Z.of_nat (List.length ds)) eqn:Hn.
      * rewrite length_app; cbn [List.length].
        rewrite length_firstn, length_skipn; lia.
      * rewrite !length_app; unfold Repr.zeros; rewrite repeat_length; cbn [List.length]; lia.
Qed.

(** The text [repr] gives a float has fewer than 10000 characters. *)
Lemma repr_length (x : float) : Z.of_nat (String.length (Repr.repr x)) < 10000.
Proof.
  unfold Repr.repr.
  destruct (Prim2SF x) as [s|s| |s m e] eqn:Hx; try (destruct s; simpl; lia);
    [simpl; lia|].
  destruct (finite_float_bounds x s m e Hx) as [Hm He].
  pose proof (finite_float_exponent x s m e Hx) as Hemin.
  destruct (Repr.shortest 17 (abs x) m e 1) as [c q] eqn:Hs.
  destruct (shortest_shape _ _ _ _ _ _ _ Hs) as (k' & Hk & Hq & Hc).
  pose proof (decimal_point_range m e Hm (conj Hemin He)) as Hdp.
  simpl Z.of_nat in Hk.
  pose proof (scaled_bound m e q Hm He ltac:(lia)) as Hlo.
  assert (Hcb : 0 <= c < 2 ^ 2401).
  { replace (2 ^ 2401) with (2 * 2 ^ 2400) by (rewrite <- Z.pow_succ_r by lia; reflexivity).
    destruct Hc as [-> | ->]; lia. }
  assert (Hlog : Z.log2 (Z.abs c) <= 2401).
  { rewrite Z.abs_eq by lia.
    destruct (Z.eq_dec c 0) as [->|Hc0]; [simpl; lia|].
    apply Z.lt_le_incl, Z.log2_lt_pow2; lia. }
  pose proof (str_of_int_length c) as Hstr; rewrite <- length_list_ascii in Hstr.
  destruct (Repr.strip_zeros (rev (list_ascii_of_string (str_of_int c))) q)
    as [ds_rev q'] eqn:Hz.
  pose proof (strip_zeros_shape (rev (list_ascii_of_string (str_of_int c))) q) as Hsz.
  rewrite Hz in Hsz; cbn [fst snd] in Hsz; rewrite length_rev in Hsz.
  pose proof (layout_length (rev ds_rev) (q' + Z.of_nat (List.length (rev ds_rev)))) as Hl.
  rewrite length_rev in Hl.
  rewrite <- length_list_ascii, list_ascii_of_string_of_list_ascii.
  rewrite length_rev.
  destruct s; cbn [List.length]; lia.
Qed.

Lemma repr_within_limit (x : float) : within_limit (Repr.repr x).
Proof. unfold within_limit, Csv.field_limit; pose proof (repr_length x); lia. Qed.

(** ** No field the reader yields is longer than its limit *)

Lemma string_of_list_ascii_length (l : list ascii) :
  String.length (string_of_list_ascii l) = List.length l.
Proof. induction l as [|c l IH]; simpl; [reflexivity | rewrite IH; reflexivity]. Qed.

Lemma set_state_inv (self : Csv.ReaderObj) (st : Csv.ParserState) :
  reader_inv self -> reader_inv (Csv.set_state self st).
Proof. intros H; exact H. Qed.

Lemma save_field_inv (self : Csv.ReaderObj) :
  reader_inv self -> reader_inv (Csv.parse_save_field self).
Proof.
  intros [Hf HF]; split; cbn [Csv.parse_save_field Csv.field Csv.fields].
  - unfold Csv.field_limit; simpl; lia.
  - unfold append; apply Forall_app; split; [exact HF|].
    constructor; [|constructor].
    unfold within_limit; rewrite string_of_list_ascii_length; exact Hf.
Qed.

Lemma add_char_inv (self self' : Csv.ReaderObj) (c : ascii) :
  reader_inv self -> Csv.parse_add_char self c = Ok self' -> reader_inv self'.
Proof.
  intros [Hf HF]; unfold Csv.parse_add_char.
  destruct (Csv.field_limit <=? Z.of_nat (List.length (Csv.field self))) eqn:Hl;
    [discriminate|].
  apply Z.leb_gt in Hl; intros [= <-]; split; cbn [Csv.field Csv.fields]; [|exact HF].
  unfold append; rewrite length_app; simpl; lia.
Qed.

Lemma process_char_inv (self self' : Csv.ReaderObj) (c : option ascii) :
  reader_inv self -> Csv.parse_process_char self c = Ok self' -> reader_inv self'.
Proof.
  intros Hinv; unfold Csv.parse_process_char.
  pose proof (save_field_inv self Hinv) as Hsave.
  pose proof (save_field_inv (Csv.set_state self Csv.START_FIELD) Hinv) as Hsave'.
  assert (Hadd : forall s0 st ch r,
             reader_inv s0 ->
             (self1 <- Csv.parse_add_char s0 ch ;; Ok (Csv.set_state self1 st)) = Ok r ->
             reader_inv r).
  { intros s0 st ch r H0; unfold bind.
    destruct (Csv.parse_add_char s0 ch) as [s1|] eqn:Ha; [|discriminate].
    intros [= <-]; apply set_state_inv, (add_char_inv s0 s1 ch H0 Ha). }
  destruct (Csv.state self); destruct c as [ch|];
    repeat match goal with
           | |- context [if ?b then _ else _] => destruct b
           end;
    try (intros [= <-]; assumption);
    try (intros [= <-]; apply set_state_inv; assumption);
    try discriminate;
    try (apply Hadd; assumption);
    try (apply (add_char_inv self self' ch Hinv)).
Qed.

Lemma feed_line_inv (line : list ascii) (self self' : Csv.ReaderObj) :
  reader_inv self -> Csv.feed_line self line = Ok self' -> reader_inv self'.
Proof.
  revert self; induction line as [|c line IH]; intros self Hinv; simpl.
  - apply process_char_inv; exact Hinv.
  - unfold bind.
    destruct (Csv.parse_process_char self (Some c)) as [s1|] eqn:Hc; [|discriminate].
    apply IH, (process_char_inv self s1 (Some c) Hinv Hc).
Qed.

Lemma parse_reset_inv : reader_inv Csv.parse_reset.
Proof. split; [unfold Csv.field_limit; simpl; lia | constructor]. Qed.

Lemma records_within_limit (lines : list (list ascii)) (self : Csv.ReaderObj) :
  reader_inv self ->
  Forall (Forall within_limit) (fst (Csv.records self lines)).
Proof.
  revert self; induction lines as [|line lines IH]; intros self Hinv;
    cbn [Csv.records].
  - destruct (_ || _); cbn [fst]; [|constructor].
    constructor; [apply (save_field_inv self Hinv) | constructor].
  - destruct (Csv.feed_line self line) as [self'|] eqn:Hf; [|constructor].
    pose proof (feed_line_inv line self self' Hinv Hf) as Hinv'.
    destruct (Csv.is_start_record (Csv.state self')).
    + specialize (IH Csv.parse_reset parse_reset_inv).
      destruct (Csv.records Csv.parse_reset lines) as [rest e]; cbn [fst] in *.
      constructor; [apply Hinv' | exact IH].
    + apply IH; exact Hinv'.
Qed.

(** Every field of every record the reader yields is within the limit. *)
Lemma reader_within_limit (text : string) :
  Forall (Forall within_limit) (fst (Csv.reader text)).
Proof. apply records_within_limit, parse_reset_inv. Qed.

(** ** Reading the store the program wrote *)

Lemma reader_empty : Csv.reader EmptyString = ([], None).
Proof. reflexivity. Qed.

Lemma emit_fst (r : list string) (res : list (list string) * option exn) :
  emit r res = (r :: fst res, snd res).
Proof. destruct res; reflexivity. Qed.

(** The rows the writer wrote are read back in order. *)
Lemma reader_written_rows (rows : list (list pyval)) :
  Forall row_within_limit rows ->
  Csv.reader (concat_text (map Csv.writerow rows))
  = (map (map Csv.field_text) rows, None).
Proof.
  induction 1 as [|row rows Hrow _ IH]; [reflexivity|].
  cbn [map concat_text]; rewrite (reader_written_line row _ Hrow), IH; reflexivity.
Qed.

Lemma header_row_within_limit : row_within_limit (map PyStr NEW_HEADER).
Proof.
  unfold row_within_limit; rewrite Forall_map; apply Forall_forall.
  intros k Hk; simpl in Hk; unfold within_limit, Csv.field_limit.
  repeat (destruct Hk as [<- | Hk]; [simpl; lia|]); contradiction.
Qed.

Lemma reader_written_store (rows : list (list pyval)) :
  Forall row_within_limit rows ->
  Csv.reader (written_store rows)
  = (NEW_HEADER :: map (map Csv.field_text) rows, None).
Proof.
  intros Hrows; unfold written_store; rewrite <- writeheader_text.
  unfold Csv.DictWriter_writeheader.
  rewrite (reader_written_line _ _ header_row_within_limit).
  rewrite (reader_written_rows rows Hrows), map_map; cbn [Csv.field_text].
  rewrite map_id; reflexivity.
Qed.

(** Sixteen fields fill the sixteen columns. *)
Lemma row_dict_current (row : list pyval) :
  List.length row = 16%nat ->
  Csv.row_dict [] NEW_HEADER (map Csv.field_text row) = read_row row.
Proof.
  intros Hlen; unfold read_row.
  do 17 (destruct row as [|? row]; try discriminate Hlen).
  reflexivity.
Qed.

Lemma filter_current_rows (rows : list (list pyval)) :
  Forall current_row rows ->
  filter (fun row => negb (Csv.is_blank row)) (map (map Csv.field_text) rows)
  = map (map Csv.field_text) rows.
Proof.
  induction 1 as [|row rows [Hlen _] _ IH]; [reflexivity|].
  cbn [map filter]; rewrite IH.
  destruct row; [discriminate Hlen | reflexivity].
Qed.

Lemma map_read_rows (rows : list (list pyval)) :
  Forall current_row rows ->
  map (Csv.row_dict [] NEW_HEADER) (map (map Csv.field_text) rows)
  = map read_row rows.
Proof.
  induction 1 as [|row rows [Hlen _] _ IH]; [reflexivity|].
  cbn [map]; rewrite IH, (row_dict_current row Hlen); reflexivity.
Qed.

Lemma current_rows_within_limit (rows : list (list pyval)) :
  Forall current_row rows -> Forall row_within_limit rows.
Proof. apply Forall_impl; intros row [_ H]; exact H. Qed.

(** The store the program wrote needs no migration. *)
Lemma migrate_written_store `{LibM} (rows : list (list pyval)) :
  Forall row_within_limit rows ->
  migrate_csv_if_needed (Some (written_store rows)) = (Ok tt, Some (written_store rows)).
Proof.
  intros Hrows.
  apply (migrate_current_noop _ NEW_HEADER _ None (reader_written_store rows Hrows)).
  reflexivity.
Qed.

(** The store the program wrote is read back row by row. *)
Lemma read_all_written `{LibM} (rows : list (list pyval)) :
  Forall current_row rows ->
  read_all_applications (Some (written_store rows))
  = (Ok (map read_row rows), Some (written_store rows)).
Proof.
  intros Hrows.
  pose proof (current_rows_within_limit rows Hrows) as Hlim.
  unfold read_all_applications.
  rewrite (migrate_written_store rows Hlim).
  unfold Csv.DictReader; rewrite (reader_written_store rows Hlim).
  rewrite (filter_current_rows rows Hrows), (map_read_rows rows Hrows).
  reflexivity.
Qed.

(** ** Submission *)

Lemma string_length_append (s t : string) :
  String.length (s ++ t) = (String.length s + String.length t)%nat.
Proof. induction s as [|c s IH]; simpl; [reflexivity | rewrite IH; reflexivity]. Qed.

(** One more remark adds its length and a space at most. *)
Lemma join_append_length (l : list string) (x : string) :
  (String.length (join " " (append l x))
   <= String.length (join " " l) + 1 + String.length x)%nat.
Proof.
  unfold append; induction l as [|p [|q r] IH].
  - simpl; lia.
  - cbn [app join]; rewrite !string_length_append; simpl; lia.
  - change (String.length (p ++ " " ++ join " " ((q :: r) ++ [x]))
            <= String.length (p ++ " " ++ join " " (q :: r)) + 1 + String.length x)%nat.
    rewrite !string_length_append; simpl String.length in *; lia.
Qed.

(** The remark on the limit names a listed category: it is short. *)
Lemma limit_remark_length (t : string) (limit : Z) :
  dict_get LOAN_LIMITS t = Some limit ->
  (String.length ("Requested amount exceeds maximum limit for " ++ t
                  ++ " loans (₹" ++ format_thousands limit ++ ").") <= 100)%nat.
Proof.
  unfold LOAN_LIMITS; cbn [dict_get].
  repeat match goal with
         | |- context [if (?k =? t)%string then _ else _] =>
             destruct (String.eqb_spec k t) as [<-|_];
             [intros [= <-]; vm_compute; lia|]
         end.
  discriminate.
Qed.

(** Names the pair the next [let '(_, remarks) := p in _] binds, a rule
    that adds at most one remark to [l], and keeps only that the remarks,
    joined, grew by 61 characters at most. *)
Ltac remark_stage :=
  match goal with
  | |- context [match ?p with (_, _) => _ end] =>
      match p with
      | context [append ?l _] =>
          let Hb := fresh "Hr" in
          assert (Hb : (String.length (join " " (snd p))
                        <= String.length (join " " l) + 61)%nat)
            by (split_tests; cbn [snd];
                try (eapply Nat.le_trans; [apply join_append_length|]);
                simpl String.length; lia);
          destruct p as [? ?]; cbn [snd] in Hb
      end
  end.

(** The remarks of a decision, joined, have at most 500 characters,
    whatever the applicant. *)
Lemma assess_remarks_length (a : applicant) :
  (String.length (join " " (as_remarks (assess a))) <= 500)%nat.
Proof.
  unfold assess; cbv zeta.
  match goal with
  | |- context [match ?p with (_, _) => _ end] =>
      assert (Hr : (String.length (join " " (snd p)) <= 100)%nat)
  end.
  { destruct (dict_get LOAN_LIMITS (ap_loan_type a)) as [limit|] eqn:Hl;
      [|simpl; lia].
    destruct (float_gt_int (ap_loan_amount a) limit); [|simpl; lia].
    cbn [snd append app join]; apply (limit_remark_length _ _ Hl). }
  match goal with
  | |- context [match ?p with (_, _) => _ end] => destruct p as [? ?]
  end; cbn [snd] in Hr.
  do 5 remark_stage.
  cbn [as_remarks]; lia.
Qed.

Lemma price_text_fields `{LibM} (a : applicant) (s : assessment) (r : decision_data) :
  price a s = Ok r ->
  name r = ap_name a /\ age r = ap_age a /\ employment r = ap_employment a
  /\ tenure_years r = ap_tenure_years a
  /\ remarks r = join " " (as_remarks s)
  /\ (debt_to_income r = PyInt 0 \/ exists f, debt_to_income r = PyFloat f).
Proof.
  unfold price, bind.
  destruct (match as_decision s with Approved => _ | Rejected => _ end) as [e|];
    [|discriminate].
  intros [= <-]; cbn; repeat split.
  destruct (0 <? ap_income a)%float; [right; eexists; reflexivity | left; reflexivity].
Qed.

Lemma coerce_applicant_tenure name age income loan_amount loan_type employment
    existing_debt tenure_years a :
  coerce_applicant name age income loan_amount loan_type employment
    existing_debt tenure_years = Ok a ->
  ap_tenure_years a = PyInt DEFAULT_TENURE_YEARS
  \/ exists t, ap_tenure_years a = PyFloat t.
Proof.
  unfold coerce_applicant, bind.
  destruct (py_int age); [|discriminate].
  destruct (py_float income); [|discriminate].
  destruct (py_float loan_amount); [|discriminate].
  destruct (py_float existing_debt); [|discriminate].
  destruct (truthy tenure_years);
    [destruct (py_float tenure_years); [|discriminate]|];
    intros [= <-]; simpl; [right; eexists; reflexivity | left; reflexivity].
Qed.

Lemma small_int_within_limit (z : Z) :
  Z.abs z < 2 ^ 1000 -> within_limit (str_of_int z).
Proof.
  intros Hz; unfold within_limit, Csv.field_limit.
  pose proof (str_of_int_length z) as Hl.
  assert (Z.log2 (Z.abs z) < 1000).
  { destruct (Z.eq_dec (Z.abs z) 0) as [->|Hz0]; [simpl; lia|].
    apply Z.log2_lt_pow2; lia. }
  lia.
Qed.

Lemma decision_text_within_limit (d : decision_t) : within_limit (decision_text d).
Proof. destruct d; unfold within_limit, Csv.field_limit; simpl; lia. Qed.

(** What [evaluate_application] returns makes a row the reader accepts,
    when the texts the user typed are within the limit. *)
Lemma new_row_current `{LibM} (form_name form_age form_income form_loan_amount : pyval)
    (form_loan_type form_employment : string) (debt tenure : pyval)
    (now_str : string) (d : decision_data) :
  evaluate_application form_name form_age form_income form_loan_amount
    form_loan_type form_employment debt tenure = Ok d ->
  within_limit (Csv.field_text form_name) ->
  within_limit form_loan_type ->
  within_limit form_employment ->
  within_limit now_str ->
  within_limit (str_of_int (age d)) ->
  current_row (row_values (new_row d now_str)).
Proof.
  intros Hev Hname Hlt Hemp Hnow Hage.
  unfold evaluate_application, bind in Hev.
  destruct (coerce_applicant _ _ _ _ _ _ _ _) as [a|] eqn:Hco; [|discriminate].
  destruct (coerce_applicant_fields _ _ _ _ _ _ _ _ _ Hco) as (Han & Halt & Haemp & _).
  pose proof (coerce_applicant_tenure _ _ _ _ _ _ _ _ _ Hco) as Hten.
  destruct (price_fields _ _ _ Hev) as (_ & Hscore & _ & _ & Hlt' & _).
  destruct (price_text_fields _ _ _ Hev) as (Hn & _ & He & Ht & Hr & Hdti).
  pose proof (assess_credit_score_bounds a) as Hb.
  pose proof (assess_remarks_length a) as Hrl.
  split; [reflexivity|].
  unfold row_within_limit, row_values, new_row; cbn [map snd Csv.field_text py_str].
  repeat constructor; try apply repr_within_limit; try apply decision_text_within_limit;
    try assumption.
  - rewrite Hn, Han; exact Hname.
  - rewrite Hlt', Halt; exact Hlt.
  - rewrite Ht; destruct Hten as [-> | [t ->]]; cbn [Csv.field_text py_str];
      [apply small_int_within_limit; reflexivity | apply repr_within_limit].
  - rewrite He, Haemp; exact Hemp.
  - destruct Hdti as [-> | [f ->]]; cbn [Csv.field_text py_str];
      [apply small_int_within_limit; reflexivity | apply repr_within_limit].
  - apply small_int_within_limit; rewrite Hscore.
    apply Z.lt_trans with 1000; [lia | reflexivity].
  - rewrite Hr; unfold within_limit, Csv.field_limit; cbn [Csv.field_text]; lia.
Qed.

Lemma concat_text_app (l1 l2 : list string) :
  concat_text (l1 ++ l2) = concat_text l1 ++ concat_text l2.
Proof.
  induction l1 as [|p l1 IH]; [reflexivity|].
  cbn [app concat_text]; rewrite IH, append_assoc; reflexivity.
Qed.

Lemma written_store_snoc (rows : list (list pyval)) (row : list pyval) :
  written_store (rows ++ [row]) = written_store rows ++ Csv.writerow row.
Proof.
  unfold written_store; rewrite map_app, concat_text_app; cbn [map concat_text].
  rewrite append_empty_r, append_assoc; reflexivity.
Qed.

Lemma written_store_nonempty (rows : list (list pyval)) :
  (String.length (written_store rows) =? 0)%nat = false.
Proof. reflexivity. Qed.

(** A submission appends its row to the store. *)
Lemma submit_store `{LibM}
    (form_name form_age form_income form_loan_amount : pyval)
    (form_loan_type form_employment : string)
    (form_existing_debt form_tenure_years : pyval)
    (now_str : string) (fs : store) (rows : list (list pyval)) (d : decision_data) :
  evaluate_application form_name form_age form_income form_loan_amount
    form_loan_type form_employment (py_or form_existing_debt (PyInt 0))
    (py_or form_tenure_years (PyInt DEFAULT_TENURE_YEARS)) = Ok d ->
  within_limit (Csv.field_text form_name) ->
  within_limit form_loan_type ->
  within_limit form_employment ->
  within_limit now_str ->
  within_limit (str_of_int (age d)) ->
  Forall current_row rows ->
  store_holds fs rows ->
  let row := row_values (new_row d now_str) in
  submit form_name form_age form_income form_loan_amount form_loan_type
    form_employment form_existing_debt form_tenure_years now_str fs
  = (Ok d, Some (written_store (rows ++ [row])))
  /\ read_all_applications (Some (written_store (rows ++ [row])))
     = (Ok (map read_row rows ++ [read_row row])%list,
        Some (written_store (rows ++ [row]))).
Proof.
  intros Hev Hname Hlt Hemp Hnow Hage Hrows Hfs row.
  pose proof (new_row_current _ _ _ _ _ _ _ _ now_str d Hev Hname Hlt Hemp Hnow Hage)
    as Hrow.
  fold row in Hrow.
  split.
  - unfold submit; rewrite Hev.
    change (Csv.DictWriter_writerow NEW_HEADER (new_row d now_str))
      with (Ok (Csv.writerow row)).
    destruct Hfs as [-> | [[-> | ->] ->]].
    + rewrite (migrate_written_store rows (current_rows_within_limit rows Hrows)).
      cbn [negb orb]; rewrite written_store_nonempty.
      rewrite written_store_snoc; reflexivity.
    + cbn [migrate_csv_if_needed]; cbn [negb orb app].
      rewrite writeheader_text; unfold written_store; cbn [map concat_text].
      rewrite append_empty_r; reflexivity.
    + change (migrate_csv_if_needed (Some EmptyString)) with (Ok tt, Some EmptyString).
      cbn [negb orb app String.length Nat.eqb append].
      rewrite writeheader_text; unfold written_store; cbn [map concat_text].
      rewrite append_empty_r; reflexivity.
  - rewrite read_all_written, map_app; [reflexivity|].
    apply Forall_app; split; [exact Hrows | constructor; [exact Hrow | constructor]].
Qed.

(** ** Migration of a legacy store *)

Lemma dict_set_within_limit (d : list (string * pyval)) (k : string) (v : pyval) :
  dict_within_limit d -> within_limit (Csv.field_text v) ->
  dict_within_limit (Csv.dict_set d k v).
Proof.
  intros Hd Hv; induction Hd as [|[k' v'] d Hkv Hd IH]; simpl.
  - constructor; [exact Hv | constructor].
  - destruct (k' =? k)%string; constructor; assumption.
Qed.

Lemma empty_within_limit : within_limit EmptyString.
Proof. unfold within_limit, Csv.field_limit; simpl; lia. Qed.

Lemma row_dict_rest_within_limit (fieldnames : list string) (d : list (string * pyval)) :
  dict_within_limit d -> dict_within_limit (Csv.row_dict_rest d fieldnames).
Proof.
  revert d; induction fieldnames as [|k ks IH]; intros d Hd; simpl; [exact Hd|].
  apply IH, dict_set_within_limit; [exact Hd | exact empty_within_limit].
Qed.

Lemma row_dict_within_limit (fieldnames row : list string) (d : list (string * pyval)) :
  dict_within_limit d -> Forall within_limit row ->
  dict_within_limit (Csv.row_dict d fieldnames row).
Proof.
  revert d row; induction fieldnames as [|k ks IH]; intros d row Hd Hrow;
    [destruct row; exact Hd|].
  destruct row as [|v row].
  - apply (row_dict_rest_within_limit (k :: ks)); exact Hd.
  - inversion Hrow; subst.
    cbn [Csv.row_dict]; apply IH; [apply dict_set_within_limit|]; assumption.
Qed.

Lemma dict_get_within_limit (d : list (string * pyval)) (k : string) (v : pyval) :
  dict_within_limit d -> dict_get d k = Some v -> within_limit (Csv.field_text v).
Proof.
  induction 1 as [|[k' v'] d Hkv _ IH]; simpl; [discriminate|].
  destruct (k' =? k)%string; [intros [= <-]; exact Hkv | exact IH].
Qed.

Lemma row_get_within_limit (row : list (string * pyval)) (k : string) (default : pyval) :
  dict_within_limit row -> within_limit (Csv.field_text default) ->
  within_limit (Csv.field_text (row_get row k default)).
Proof.
  intros Hrow Hd; unfold row_get.
  destruct (dict_get row k) as [v|] eqn:Hk; [|exact Hd].
  exact (dict_get_within_limit row k v Hrow Hk).
Qed.

Lemma py_or_within_limit (x y : pyval) :
  within_limit (Csv.field_text x) -> within_limit (Csv.field_text y) ->
  within_limit (Csv.field_text (py_or x y)).
Proof. intros Hx Hy; unfold py_or; destruct (truthy x); assumption. Qed.

(** The rows [DictReader] returns hold values within the limit. *)
Lemma DictReader_within_limit (text : string) (rows : list (list (string * pyval))) :
  Csv.DictReader text = Ok rows -> Forall dict_within_limit rows.
Proof.
  unfold Csv.DictReader.
  pose proof (reader_within_limit text) as Hall.
  destruct (Csv.reader text) as [[|fieldnames recs] [e|]]; try discriminate;
    intros [= <-]; [constructor|].
  cbn [fst] in Hall; inversion Hall as [|? ? _ Hrecs]; subst.
  apply Forall_map.
  assert (Hf : Forall (Forall within_limit)
                 (filter (fun row => negb (Csv.is_blank row)) recs)).
  { apply Forall_forall; intros row Hin; apply filter_In in Hin.
    exact (proj1 (Forall_forall _ _) Hrecs row (proj1 Hin)). }
  apply (Forall_impl _ (P := Forall within_limit)); [|exact Hf].
  intros row Hrow; apply row_dict_within_limit; [constructor | exact Hrow].
Qed.

(** An upgraded row is a row of the current layout. *)
Lemma upgrade_row_current `{LibM} (row r : list (string * pyval)) :
  dict_within_limit row -> upgrade_row row = Ok r -> current_row (row_values r).
Proof.
  intros Hrow; unfold upgrade_row, bind.
  match goal with
  | |- context [match ?m with Ok _ => _ | Raise _ => _ end] => destruct m as [[la rate]|]
  end; [|discriminate].
  destruct (calculate_emi la rate (PyInt DEFAULT_TENURE_YEARS)) as [emi|]; [|discriminate].
  intros [= <-]; split; [reflexivity|].
  unfold row_within_limit, row_values; cbn [map snd].
  assert (He : within_limit (Csv.field_text (PyStr ""))) by exact empty_within_limit.
  repeat constructor;
    try (apply row_get_within_limit; [exact Hrow|]);
    try (apply py_or_within_limit; [apply row_get_within_limit; [exact Hrow|]|]);
    try (apply row_get_within_limit; [exact Hrow|]);
    try exact He;
    try (cbn [Csv.field_text py_str]; apply small_int_within_limit; reflexivity).
  cbn [Csv.field_text py_str]; apply repr_within_limit.
Qed.

Lemma upgraded_rows_current `{LibM} (rows upgraded : list (list (string * pyval))) :
  Forall dict_within_limit rows ->
  Forall2 (fun row r => upgrade_row row = Ok r) rows upgraded ->
  Forall current_row (map row_values upgraded).
Proof.
  intros Hrows Hall; induction Hall as [|row r rows upgraded Hr _ IH]; [constructor|].
  inversion Hrows; subst.
  cbn [map]; constructor; [exact (upgrade_row_current row r ltac:(assumption) Hr)|].
  apply IH; assumption.
Qed.

(** X10: migrating a legacy store (a header without the marker columns)
    whose rows all get an EMI computed writes the current header and one
    row for every row [DictReader] finds, in order; reading the store back
    returns as many rows, each the upgraded row as text. *)
Theorem migrate_legacy_store `{LibM} (text : string) (header : list string)
    (records : list (list string)) (e : option exn)
    (rows upgraded : list (list (string * pyval))) :
  Csv.reader text = (header :: records, e) ->
  mem "Tenure_Years" header || mem "EMI" header = false ->
  Csv.DictReader text = Ok rows ->
  upgrade_rows rows = Ok upgraded ->
  let migrated := written_store (map row_values upgraded) in
  migrate_csv_if_needed (Some text) = (Ok tt, Some migrated)
  /\ read_all_applications (Some migrated)
     = (Ok (map read_row (map row_values upgraded)), Some migrated)
  /\ List.length upgraded = List.length rows
  /\ Forall2 (fun row r => upgrade_row row = Ok r) rows upgraded.
Proof.
  intros Hreader Hmarker Hrows Hup migrated.
  pose proof (upgrade_rows_each rows upgraded Hup) as Heach.
  pose proof (upgraded_rows_current rows upgraded
                (DictReader_within_limit text rows Hrows) Heach) as Hcur.
  split; [|split; [|split]].
  - unfold migrate_csv_if_needed; rewrite Hreader, Hmarker, Hrows.
    cbn [bind]; rewrite Hup.
    rewrite (write_rows_upgraded rows upgraded _ Heach), writeheader_text.
    unfold migrated, written_store, row_values; rewrite map_map; reflexivity.
  - apply read_all_written; exact Hcur.
  - symmetry; exact (Forall2_length Heach).
  - exact Heach.
Qed.

(** The legacy store with one rejected row: one row before, one row after. *)
Lemma migrate_legacy_store_witness :
  exists upgraded,
    @upgrade_rows reference_libm [rejected_legacy_row] = Ok upgraded
    /\ @migrate_csv_if_needed reference_libm (Some rejected_legacy_store)
       = (Ok tt, Some (written_store (map row_values upgraded)))
    /\ List.length upgraded = 1%nat.
Proof.
  assert (Hup : exists u, @upgrade_rows reference_libm [rejected_legacy_row] = Ok u)
    by (eexists; vm_compute; reflexivity).
  destruct Hup as [u Hu]; exists u; split; [exact Hu|].
  assert (Hreader : Csv.reader rejected_legacy_store
                    = (LEGACY_HEADER
                         :: [["Ravi"; "19"; "1000.0"; "600000.0"; "Home";
                              "Unemployed"; "900.0"; "90.0"; "500"; "0";
                              "Rejected"; "2024-01-02 10:00:00";
                              "High debt-to-income ratio."; "Rejected"]], None))
    by (vm_compute; reflexivity).
  assert (Hrows : Csv.DictReader rejected_legacy_store = Ok [rejected_legacy_row])
    by (vm_compute; reflexivity).
  destruct (@migrate_legacy_store reference_libm rejected_legacy_store _ _ _ _ u
              Hreader eq_refl Hrows Hu) as (Hm & _ & Hlen & _).
  split; [exact Hm | exact Hlen].
Defined.

(** ** The layout of the store after a migration *)

(** At the end of a line the machine is at the start of a record or inside
    a quoted field. *)
Lemma end_of_line_state (self self' : Csv.ReaderObj) :
  Csv.parse_process_char self None = Ok self' ->
  Csv.is_start_record (Csv.state self') = false ->
  Csv.is_in_quoted_field (Csv.state self') = true.
Proof.
  unfold Csv.parse_process_char.
  destruct (Csv.state self) eqn:Hs; intros [= <-]; cbn; try discriminate;
    rewrite ?Hs; try discriminate; reflexivity.
Qed.

(** A text that is not empty yields a record or an error. *)
Lemma run_yields (s : string) (self : Csv.ReaderObj) (p : bool) :
  p = true \/ Csv.is_in_quoted_field (Csv.state self) = true \/ s <> EmptyString ->
  run self p s <> ([], None).
Proof.
  revert self p; induction s as [|c s IH]; intros self p Hcase.
  - cbn [run]; destruct p.
    + unfold end_line.
      destruct (Csv.parse_process_char self None) as [self'|] eqn:He; [|discriminate].
      destruct (Csv.is_start_record (Csv.state self')) eqn:Hst.
      * rewrite emit_fst; discriminate.
      * cbn [Csv.records]; rewrite (end_of_line_state _ _ He Hst), orb_true_r.
        discriminate.
    + destruct Hcase as [Hp | [Hq | Hne]]; [discriminate | | contradiction].
      cbn [Csv.records]; rewrite Hq, orb_true_r; discriminate.
  - rewrite run_cons.
    destruct (Csv.parse_process_char self (Some c)) as [self1|]; [|discriminate].
    destruct (line_ends_after c s); [|apply IH; left; reflexivity].
    unfold end_line.
    destruct (Csv.parse_process_char self1 None) as [self2|] eqn:He; [|discriminate].
    destruct (Csv.is_start_record (Csv.state self2)) eqn:Hst.
    + rewrite emit_fst; discriminate.
    + apply IH; right; left; exact (end_of_line_state _ _ He Hst).
Qed.

(** Only the empty text has no record. *)
Lemma reader_no_record (text : string) :
  Csv.reader text = ([], None) -> text = EmptyString.
Proof.
  rewrite reader_run; intros Hr.
  destruct text as [|c s]; [reflexivity|].
  exfalso; revert Hr; apply run_yields; right; right; discriminate.
Qed.

(** X6: when a migration returns normally, the store is absent as before,
    or zero bytes, or its header row holds a marker column of the current
    layout. *)
Theorem migrate_returns_current `{LibM} (fs fs' : store) :
  migrate_csv_if_needed fs = (Ok tt, fs') ->
  (fs = None /\ fs' = None)
  \/ fs' = Some EmptyString
  \/ exists text header records e,
       fs' = Some text
       /\ Csv.reader text = (header :: records, e)
       /\ mem "Tenure_Years" header || mem "EMI" header = true.
Proof.
  unfold migrate_csv_if_needed.
  destruct fs as [text|]; [|intros [= <-]; left; split; reflexivity].
  destruct (Csv.reader text) as [[|header records] e] eqn:Hr.
  - destruct e; [discriminate|].
    intros [= <-]; right; left; rewrite (reader_no_record text Hr); reflexivity.
  - destruct (mem "Tenure_Years" header || mem "EMI" header) eqn:Hm.
    + intros [= <-]; right; right; exists text, header, records, e; auto.
    + destruct (rows <- Csv.DictReader text ;; upgrade_rows rows) as [upgraded|];
        [|discriminate].
      destruct (write_rows_extends (Csv.DictWriter_writeheader NEW_HEADER) upgraded)
        as [tail Ht].
      destruct (write_rows _ upgraded) as [outcome text']; cbn [snd] in Ht.
      intros [= -> <-]; right; right.
      rewrite Ht, writeheader_text.
      destruct (reader_current_header tail) as (records' & e' & Hr').
      exists (current_header_only ++ tail), NEW_HEADER, records', e'; auto.
Qed.

Lemma migrate_returns_current_witness :
  exists text header records e,
    snd (@migrate_csv_if_needed reference_libm (Some rejected_legacy_store)) = Some text
    /\ Csv.reader text = (header :: records, e)
    /\ mem "Tenure_Years" header || mem "EMI" header = true.
Proof.
  destruct (@migrate_returns_current reference_libm (Some rejected_legacy_store)
              (snd (@migrate_csv_if_needed reference_libm (Some rejected_legacy_store))))
    as [[Habs _] | [Hzero | (text & header & records & e & Hs & Hr & Hm)]].
  - vm_compute; reflexivity.
  - discriminate Habs.
  - exfalso; revert Hzero; vm_compute; discriminate.
  - exists text, header, records, e; auto.
Defined.

(* ------------------------------------------------------------------ *)
(** ** The two ways the pages read a status *)

Ltac by_chars :=
  let c := fresh "c" in
  intros c; destruct c as [[] [] [] [] [] [] [] []]; vm_compute;
  intuition (discriminate || reflexivity).

Lemma lower_upper_char : forall c,
  is_lower c = true -> Scan.lower_char (upper_char c) = Scan.lower_char c.
Proof. by_chars. Qed.

Lemma lower_lower_char : forall c,
  Scan.lower_char (Scan.lower_char c) = Scan.lower_char c.
Proof. by_chars. Qed.

Lemma title_first_char : forall c,
  is_lower (Scan.lower_char c) = true ->
  (if is_lower c then upper_char c else c) = upper_char (Scan.lower_char c) /\
  (is_lower c = false -> is_upper c = true).
Proof. by_chars. Qed.

Lemma title_next_char : forall c,
  is_lower (Scan.lower_char c) = true ->
  (if is_lower c then c else Scan.lower_char c) = Scan.lower_char c /\
  (is_lower c = false -> is_upper c = true).
Proof. by_chars. Qed.

(** [title] changes the case of characters only. *)
Lemma lower_title_from : forall s p, Scan.lower (title_from p s) = Scan.lower s.
Proof.
  induction s as [|c s IH]; intros p; [reflexivity|].
  cbn [title_from].
  destruct (is_lower c) eqn:Hl.
  - cbn [Scan.lower]. rewrite IH. f_equal.
    destruct p; [reflexivity | apply lower_upper_char; exact Hl].
  - destruct (is_upper c) eqn:Hu; cbn [Scan.lower]; rewrite IH; f_equal.
    destruct p; [apply lower_lower_char | reflexivity].
Qed.

(** After a cased character, a word of letters is made lower case. *)
Lemma title_from_cased : forall s,
  lower_letters (Scan.lower s) = true -> title_from true s = Scan.lower s.
Proof.
  induction s as [|c s IH]; intros H; [reflexivity|].
  cbn [Scan.lower lower_letters] in H. apply andb_prop in H. destruct H as [Hc Hs].
  cbn [title_from Scan.lower].
  destruct (title_next_char c Hc) as [Hn Hu].
  destruct (is_lower c) eqn:Hl.
  - rewrite IH by exact Hs. f_equal. exact Hn.
  - rewrite (Hu eq_refl). rewrite IH by exact Hs. reflexivity.
Qed.

(** A word of letters is capitalised. *)
Lemma title_word : forall c s,
  lower_letters (Scan.lower (String c s)) = true ->
  title (String c s) = String (upper_char (Scan.lower_char c)) (Scan.lower s).
Proof.
  intros c s H.
  cbn [Scan.lower lower_letters] in H. apply andb_prop in H. destruct H as [Hc Hs].
  unfold title. cbn [title_from].
  destruct (title_first_char c Hc) as [Hf Hu].
  destruct (is_lower c) eqn:Hl.
  - rewrite title_from_cased by exact Hs. f_equal. exact Hf.
  - rewrite (Hu eq_refl). rewrite title_from_cased by exact Hs. f_equal. exact Hf.
Qed.

(** A word whose lower case is [w], a word of lower-case letters, has the
    capitalised [w] for its title, and conversely. *)
Lemma title_iff_lower (c : ascii) (w : string) (s : string) :
  lower_letters (String c w) = true ->
  (title s =? String (upper_char c) w)%string = (Scan.lower s =? String c w)%string.
Proof.
  intros Hw.
  assert (Hcw : Scan.lower (String (upper_char c) w) = String c w).
  { cbn [Scan.lower]. cbn [lower_letters] in Hw. apply andb_prop in Hw.
    destruct Hw as [Hc Hw']. f_equal.
    - rewrite lower_upper_char by exact Hc.
      revert Hc. clear. revert c. by_chars.
    - clear Hc. induction w as [|x w IH]; [reflexivity|].
      cbn [lower_letters] in Hw'. apply andb_prop in Hw'. destruct Hw' as [Hx Hw'].
      cbn [Scan.lower]. rewrite IH by exact Hw'. f_equal.
      revert Hx. clear. revert x. by_chars. }
  destruct (Scan.lower s =? String c w)%string eqn:Hl.
  - apply String.eqb_eq in Hl. apply String.eqb_eq.
    destruct s as [|x s]; [discriminate Hl|].
    rewrite title_word by (rewrite Hl; exact Hw).
    cbn [Scan.lower] in Hl. injection Hl as Hx Hs. rewrite Hx, Hs. reflexivity.
  - apply String.eqb_neq in Hl. apply String.eqb_neq. intros Ht. apply Hl.
    rewrite <- (lower_title_from s false). fold (title s). rewrite Ht. exact Hcw.
Qed.

(** The status read with [title()] is [Approved] exactly when the status
    read with [lower()] is [approved]; and so for [Rejected]. *)
Lemma status_title_approved (r : list (string * pyval)) :
  (status_title r =? "Approved")%string = is_approved r.
Proof.
  unfold status_title, is_approved, status_lower.
  set (t := text_or _ _).
  rewrite <- (title_iff_lower "a" "pproved" t eq_refl).
  change (String (upper_char "a") "pproved") with "Approved"%string.
  destruct (title t =? "")%string eqn:He; [|reflexivity].
  apply String.eqb_eq in He. rewrite He. reflexivity.
Qed.

Lemma status_title_rejected (r : list (string * pyval)) :
  (status_title r =? "Rejected")%string = is_rejected r.
Proof.
  unfold status_title, is_rejected, status_lower.
  set (t := text_or _ _).
  rewrite <- (title_iff_lower "r" "ejected" t eq_refl).
  change (String (upper_char "r") "ejected") with "Rejected"%string.
  destruct (title t =? "")%string eqn:He; [|reflexivity].
  apply String.eqb_eq in He. rewrite He. reflexivity.
Qed.

Lemma approved_not_rejected (r : list (string * pyval)) :
  is_approved r = true -> is_rejected r = false.
Proof.
  unfold is_approved, is_rejected. intros H. apply String.eqb_eq in H.
  rewrite H. reflexivity.
Qed.

(* ------------------------------------------------------------------ *)
(** ** Counters *)

Section Counters.
Context {K : Type} (eqb : K -> K -> bool).
Hypothesis eqb_eq : forall x y, eqb x y = true <-> x = y.

Lemma eqb_refl_k (k : K) : eqb k k = true.
Proof. apply eqb_eq. reflexivity. Qed.

Lemma kget_absent {V : Type} (d : list (K * V)) (k : K) :
  ~ In k (map fst d) -> kget eqb d k = None.
Proof.
  induction d as [|[k' v] d IH]; intros Hn; [reflexivity|].
  cbn [kget]. destruct (eqb k' k) eqn:E.
  - apply eqb_eq in E. exfalso. apply Hn. left. exact E.
  - apply IH. intros Hi. apply Hn. right. exact Hi.
Qed.

Lemma kget_present {V : Type} (d : list (K * V)) (k : K) :
  In k (map fst d) -> exists v, kget eqb d k = Some v.
Proof.
  induction d as [|[k' v] d IH]; intros Hi; [destruct Hi|].
  cbn [kget]. destruct (eqb k' k) eqn:E; [eexists; reflexivity|].
  destruct Hi as [Hi|Hi].
  - cbn in Hi. subst k'. rewrite eqb_refl_k in E. discriminate E.
  - apply IH. exact Hi.
Qed.

(** [d[k] = v] keeps the keys where [k] is one, and adds [k] at the end
    where it is not. *)
Lemma kset_keys {V : Type} (d : list (K * V)) (k : K) (v : V) :
  map fst (kset eqb d k v) =
  match kget eqb d k with
  | Some _ => map fst d
  | None => (map fst d ++ [k])%list
  end.
Proof.
  induction d as [|[k' v'] d IH]; [reflexivity|].
  cbn [kset kget]. destruct (eqb k' k) eqn:E.
  - apply eqb_eq in E. subst k'. reflexivity.
  - cbn [map fst]. rewrite IH. destruct (kget eqb d k); reflexivity.
Qed.

Lemma kset_keys_nodup {V : Type} (d : list (K * V)) (k : K) (v : V) :
  NoDup (map fst d) -> NoDup (map fst (kset eqb d k v)).
Proof.
  intros Hd. rewrite kset_keys. destruct (kget eqb d k) eqn:G; [exact Hd|].
  apply NoDup_rev in Hd. rewrite <- (rev_involutive (_ ++ _)%list).
  apply NoDup_rev. rewrite rev_app_distr. cbn [rev app].
  constructor; [|exact Hd].
  intros Hi. apply in_rev in Hi. apply kget_present in Hi.
  destruct Hi as [x Hx]. rewrite Hx in G. discriminate G.
Qed.

Lemma kget_some_in {V : Type} (d : list (K * V)) (k : K) (v : V) :
  kget eqb d k = Some v -> In k (map fst d).
Proof.
  induction d as [|[k' v'] d IH]; intros G; [discriminate G|].
  cbn [kget] in G. destruct (eqb k' k) eqn:E.
  - apply eqb_eq in E. left. exact E.
  - right. apply IH. exact G.
Qed.

Lemma kset_keys_in {V : Type} (d : list (K * V)) (k : K) (v : V) :
  In k (map fst (kset eqb d k v)).
Proof.
  rewrite kset_keys. destruct (kget eqb d k) eqn:G.
  - eapply kget_some_in. exact G.
  - apply in_or_app. right. left. reflexivity.
Qed.

Lemma kset_keys_incl {V : Type} (d : list (K * V)) (k : K) (v : V) :
  incl (map fst d) (map fst (kset eqb d k v)).
Proof.
  rewrite kset_keys. destruct (kget eqb d k).
  - apply incl_refl.
  - apply incl_appl. apply incl_refl.
Qed.

Lemma kset_keys_within {V W : Type} (d : list (K * V)) (e : list (K * W))
    (k : K) (v : V) (w : W) :
  incl (map fst d) (map fst e) ->
  incl (map fst (kset eqb d k v)) (map fst (kset eqb e k w)).
Proof.
  intros H. rewrite (kset_keys d). destruct (kget eqb d k).
  - eapply incl_tran; [exact H | apply kset_keys_incl].
  - apply incl_app.
    + eapply incl_tran; [exact H | apply kset_keys_incl].
    + intros x [Hx|[]]. subst x. apply kset_keys_in.
Qed.

(** What an assignment does to the sum of a quantity over the
    values. *)
Lemma kset_sum {V : Type} (f : V -> Z) (d : list (K * V)) (k : K) (v : V) :
  sum (map (fun kv => f (snd kv)) (kset eqb d k v)) =
  sum (map (fun kv => f (snd kv)) d)
  - match kget eqb d k with Some old => f old | None => 0 end + f v.
Proof.
  induction d as [|[k' v'] d IH]; [cbn; lia|].
  cbn [kset kget]. destruct (eqb k' k) eqn:E.
  - cbn [map sum fold_right snd]. unfold sum. lia.
  - cbn [map sum fold_right snd]. unfold sum in *. cbn [fold_right]. lia.
Qed.

Lemma bump_sum (d : list (K * Z)) (k : K) :
  sum (map snd (bump eqb d k)) = sum (map snd d) + 1.
Proof.
  unfold bump.
  pose proof (kset_sum (fun z => z) d k (count_of eqb d k + 1)) as H.
  cbn beta in H.
  change (fun kv : K * Z => snd kv) with (@snd K Z) in H.
  rewrite H. unfold count_of.
  destruct (kget eqb d k); lia.
Qed.

Lemma sum_pick (g : K -> Z) (k0 : K) (v0 : Z) (ks : list K) :
  NoDup ks -> In k0 ks ->
  sum (map (fun k => if eqb k0 k then v0 else g k) ks) =
  v0 - g k0 + sum (map g ks).
Proof.
  induction ks as [|k ks IH]; intros Hn Hi; [destruct Hi|].
  inversion Hn as [|? ? Hk Hn']; subst.
  unfold sum in *. cbn [map fold_right].
  destruct Hi as [Hi|Hi].
  - subst k. rewrite eqb_refl_k.
    assert (Hrest : map (fun k => if eqb k0 k then v0 else g k) ks = map g ks).
    { apply map_ext_in. intros a Ha. destruct (eqb k0 a) eqn:E; [|reflexivity].
      apply eqb_eq in E. subst a. contradiction. }
    rewrite Hrest. lia.
  - destruct (eqb k0 k) eqn:E.
    + apply eqb_eq in E. subst k. contradiction.
    + rewrite IH by assumption. lia.
Qed.

(** The counts read at a list of distinct keys that holds every key of
    the counter add up to the sum of the counter's values. *)
Lemma sum_counts_at (d : list (K * Z)) (ks : list K) :
  NoDup ks -> NoDup (map fst d) -> incl (map fst d) ks ->
  sum (map (count_of eqb d) ks) = sum (map snd d).
Proof.
  intros Hks. induction d as [|[k0 v0] d IH]; intros Hd Hin.
  - change (count_of eqb []) with (fun _ : K => 0).
    change (sum (map snd (@nil (K * Z)))) with 0.
    clear. induction ks as [|k ks IH]; [reflexivity|].
    unfold sum in *. cbn [map fold_right]. rewrite IH. reflexivity.
  - cbn [map fst] in Hd, Hin. inversion Hd as [|? ? Hk0 Hd']; subst.
    assert (Hi0 : In k0 ks) by (apply Hin; left; reflexivity).
    assert (Hin' : incl (map fst d) ks)
      by (intros x Hx; apply Hin; right; exact Hx).
    assert (Hfun : map (count_of eqb ((k0, v0) :: d)) ks =
                   map (fun k => if eqb k0 k then v0 else count_of eqb d k) ks).
    { apply map_ext. intros a. unfold count_of. cbn [kget].
      destruct (eqb k0 a); reflexivity. }
    rewrite Hfun. rewrite sum_pick by assumption.
    rewrite IH by assumption.
    unfold count_of at 1. rewrite kget_absent by exact Hk0.
    cbn [map snd]. unfold sum. cbn [fold_right]. lia.
Qed.
End Counters.

Lemma string_eqb_eq (x y : string) : String.eqb x y = true <-> x = y.
Proof. apply String.eqb_eq. Qed.

Lemma key_eqb_eq (x y : option string) : key_eqb x y = true <-> x = y.
Proof.
  destruct x as [x|], y as [y|]; cbn [key_eqb].
  - rewrite String.eqb_eq. split; [intros ->; reflexivity | intros H; injection H; auto].
  - split; discriminate.
  - split; discriminate.
  - split; reflexivity.
Qed.

(** [sorted] rearranges: a sum over the sorted keys is the sum over the
    keys. *)
Lemma sum_insert_sorted (f : string -> Z) (k : string) (l : list string) :
  sum (map f (insert_sorted k l)) = f k + sum (map f l).
Proof.
  induction l as [|x l IH]; [reflexivity|].
  cbn [insert_sorted]. destruct (String.leb k x); [reflexivity|].
  unfold sum in *. cbn [map fold_right]. rewrite IH. lia.
Qed.

Lemma sum_sorted (f : string -> Z) (l : list string) :
  sum (map f (sorted l)) = sum (map f l).
Proof.
  induction l as [|x l IH]; [reflexivity|].
  cbn [sorted fold_right]. fold (sorted l). rewrite sum_insert_sorted, IH.
  reflexivity.
Qed.

Lemma in_insert_sorted (k x : string) (l : list string) :
  In x (insert_sorted k l) <-> x = k \/ In x l.
Proof.
  induction l as [|y l IH]; cbn [insert_sorted].
  - cbn. intuition.
  - destruct (String.leb k y); cbn [In]; [intuition|]. rewrite IH. intuition.
Qed.

Lemma in_sorted (x : string) (l : list string) : In x (sorted l) <-> In x l.
Proof.
  induction l as [|y l IH]; [reflexivity|].
  cbn [sorted fold_right]. fold (sorted l). rewrite in_insert_sorted, IH.
  cbn [In]. intuition.
Qed.

Lemma nodup_insert_sorted (k : string) (l : list string) :
  ~ In k l -> NoDup l -> NoDup (insert_sorted k l).
Proof.
  induction l as [|y l IH]; intros Hk Hl; cbn [insert_sorted].
  - constructor; [exact Hk | constructor].
  - destruct (String.leb k y); [constructor; assumption|].
    inversion Hl as [|? ? Hy Hl']; subst. constructor.
    + rewrite in_insert_sorted. intros [H|H]; [|contradiction].
      apply Hk. left. exact H.
    + apply IH; [|exact Hl']. intros H. apply Hk. right. exact H.
Qed.

Lemma nodup_sorted (l : list string) : NoDup l -> NoDup (sorted l).
Proof.
  induction l as [|y l IH]; intros Hl; [constructor|].
  inversion Hl as [|? ? Hy Hl']; subst.
  cbn [sorted fold_right]. fold (sorted l). apply nodup_insert_sorted.
  - rewrite in_sorted. exact Hy.
  - apply IH. exact Hl'.
Qed.

(** *** The loop of the statistics page *)

Lemma tally_ok (t : type_tallies) (r : list (string * pyval)) :
  tallies_ok t -> tallies_ok (tally t r).
Proof.
  intros (Hc & Ha & Hr & Hac & Hrc). unfold tally, tallies_ok, bump.
  cbn [type_counts type_approved type_rejected].
  repeat split.
  - apply kset_keys_nodup; [exact string_eqb_eq | exact Hc].
  - destruct (status_title r =? "Approved")%string; [|exact Ha].
    apply kset_keys_nodup; [exact string_eqb_eq | exact Ha].
  - destruct (status_title r =? "Approved")%string; [exact Hr|].
    destruct (status_title r =? "Rejected")%string; [|exact Hr].
    apply kset_keys_nodup; [exact string_eqb_eq | exact Hr].
  - destruct (status_title r =? "Approved")%string.
    + apply kset_keys_within; [exact string_eqb_eq | exact Hac].
    + eapply incl_tran; [exact Hac | apply kset_keys_incl; exact string_eqb_eq].
  - destruct (status_title r =? "Approved")%string;
      [eapply incl_tran; [exact Hrc | apply kset_keys_incl; exact string_eqb_eq]|].
    destruct (status_title r =? "Rejected")%string.
    + apply kset_keys_within; [exact string_eqb_eq | exact Hrc].
    + eapply incl_tran; [exact Hrc | apply kset_keys_incl; exact string_eqb_eq].
Qed.

Lemma count_if_cons {A : Type} (f : A -> bool) (r : A) (rows : list A) :
  count_if f (r :: rows) = (if f r then 1 else 0) + count_if f rows.
Proof.
  unfold count_if. cbn [filter]. destruct (f r); cbn [List.length]; lia.
Qed.

Lemma tally_sums (rows : list (list (string * pyval))) : forall t : type_tallies,
  tallies_ok t ->
  let t' := fold_left tally rows t in
  tallies_ok t' /\
  sum (map snd (type_counts t')) =
    sum (map snd (type_counts t)) + Z.of_nat (List.length rows) /\
  sum (map snd (type_approved t')) =
    sum (map snd (type_approved t)) + count_if is_approved rows /\
  sum (map snd (type_rejected t')) =
    sum (map snd (type_rejected t)) + count_if is_rejected rows.
Proof.
  induction rows as [|r rows IH]; intros t Ht; cbn zeta.
  - cbn [fold_left List.length]. unfold count_if. cbn [filter List.length].
    split; [exact Ht|]. repeat split; lia.
  - cbn [fold_left].
    destruct (IH (tally t r) (tally_ok t r Ht)) as (Hok & Hc & Ha & Hr).
    cbn zeta in Hok, Hc, Ha, Hr.
    split; [exact Hok|].
    rewrite Hc, Ha, Hr. rewrite !count_if_cons.
    unfold tally. cbn [type_counts type_approved type_rejected].
    rewrite status_title_approved, status_title_rejected.
    rewrite (bump_sum String.eqb).
    destruct (is_approved r) eqn:Eap.
    + rewrite (approved_not_rejected r Eap). rewrite (bump_sum String.eqb).
      cbn [List.length]. repeat split; lia.
    + destruct (is_rejected r); [rewrite (bump_sum String.eqb)|];
        cbn [List.length]; repeat split; lia.
Qed.

(** *** The loop of the dashboard *)

Lemma tally_type_sums (rows : list (list (string * pyval))) :
  forall stats : list (option string * type_stat),
  let stats' := fold_left tally_type rows stats in
  sum (map (fun kv => ts_total (snd kv)) stats') =
    sum (map (fun kv => ts_total (snd kv)) stats) + Z.of_nat (List.length rows) /\
  sum (map (fun kv => ts_approved (snd kv)) stats') =
    sum (map (fun kv => ts_approved (snd kv)) stats) + count_if is_approved rows /\
  sum (map (fun kv => ts_rejected (snd kv)) stats') =
    sum (map (fun kv => ts_rejected (snd kv)) stats) + count_if is_rejected rows.
Proof.
  induction rows as [|r rows IH]; intros stats; cbn zeta.
  - cbn [fold_left List.length]. unfold count_if. cbn [filter List.length].
    repeat split; lia.
  - cbn [fold_left].
    destruct (IH (tally_type stats r)) as (Hc & Ha & Hr).
    cbn zeta in Hc, Ha, Hr. rewrite Hc, Ha, Hr. rewrite !count_if_cons.
    unfold tally_type.
    rewrite status_title_approved, status_title_rejected.
    rewrite (kset_sum key_eqb ts_total), (kset_sum key_eqb ts_approved),
      (kset_sum key_eqb ts_rejected).
    cbn [ts_total ts_approved ts_rejected].
    destruct (kget key_eqb stats (dashboard_loan_type r));
      cbn [ts_total ts_approved ts_rejected];
      destruct (is_approved r) eqn:Eap;
      try rewrite (approved_not_rejected r Eap);
      try destruct (is_rejected r);
      cbn [List.length]; repeat split; lia.
Qed.

(* ------------------------------------------------------------------ *)
(** ** The reporting pages *)

Lemma counts_bounded (rows : list (list (string * pyval))) :
  count_if is_approved rows + count_if is_rejected rows
  <= Z.of_nat (List.length rows).
Proof.
  induction rows as [|r rows IH]; [unfold count_if; cbn; lia|].
  rewrite !count_if_cons. cbn [List.length].
  destruct (is_approved r) eqn:Eap.
  - rewrite (approved_not_rejected r Eap). lia.
  - destruct (is_rejected r); lia.
Qed.

(** X11: on the statistics page the bars add up to the totals beside
    them: over the loan types, the counts sum to the number of rows, the
    approved counts to the number of approved rows and the rejected counts
    to the number of rejected rows, although the bars read the status with
    [title()] and the totals with [lower()]; no loan type is listed twice;
    and approved and rejected together are at most the total. *)
Theorem stats_counts_add_up (rows : list (list (string * pyval))) :
  let page := stats rows in
  sum (counts page) = status_total page /\
  sum (approved_counts page) = status_approved page /\
  sum (rejected_counts page) = status_rejected page /\
  NoDup (loan_types page) /\
  status_approved page + status_rejected page <= status_total page.
Proof.
  cbn zeta. unfold stats.
  cbn [counts approved_counts rejected_counts loan_types status_total
       status_approved status_rejected].
  set (t0 := {| type_counts := []; type_approved := []; type_rejected := [] |}).
  assert (H0 : tallies_ok t0).
  { unfold tallies_ok, t0. cbn [type_counts type_approved type_rejected map].
    repeat split; try constructor; apply incl_refl. }
  destruct (tally_sums rows t0 H0) as (Hok & Hc & Ha & Hr). cbn zeta in *.
  destruct Hok as (Nc & Na & Nr & Iac & Irc).
  set (t := fold_left tally rows t0) in *.
  assert (Ns : NoDup (sorted (map fst (type_counts t)))) by (apply nodup_sorted; exact Nc).
  repeat split.
  - rewrite sum_sorted.
    rewrite (sum_counts_at String.eqb string_eqb_eq) by
      (try assumption; apply incl_refl).
    rewrite Hc. reflexivity.
  - rewrite (sum_counts_at String.eqb string_eqb_eq).
    + rewrite Ha. reflexivity.
    + exact Ns.
    + exact Na.
    + intros x Hx. apply in_sorted. apply Iac. exact Hx.
  - rewrite (sum_counts_at String.eqb string_eqb_eq).
    + rewrite Hr. reflexivity.
    + exact Ns.
    + exact Nr.
    + intros x Hx. apply in_sorted. apply Irc. exact Hx.
  - exact Ns.
  - apply counts_bounded.
Qed.

(** X12: where the dashboard is shown, its cards and its table agree:
    approved and rejected together are at most the total, and over the
    loan types of the table the totals sum to the total of the cards, the
    approved to the approved and the rejected to the rejected. *)
Theorem dashboard_counts_add_up (rows : list (list (string * pyval)))
    (cards : summary) (table : list (option string * type_stat)) :
  dashboard rows = Ok (cards, table) ->
  approved cards + rejected cards <= total cards /\
  sum (map (fun kv => ts_total (snd kv)) table) = total cards /\
  sum (map (fun kv => ts_approved (snd kv)) table) = approved cards /\
  sum (map (fun kv => ts_rejected (snd kv)) table) = rejected cards.
Proof.
  unfold dashboard. intros H.
  destruct (sum_disbursed 0 rows) as [amount|e]; [|discriminate H].
  cbn [bind] in H.
  destruct (py_int_of_float amount) as [disbursed|e]; [|discriminate H].
  cbn [bind] in H. injection H as Hcards Htable. subst cards table.
  cbn [total approved rejected].
  destruct (tally_type_sums rows []) as (Ht & Ha & Hr). cbn zeta in *.
  rewrite Ht, Ha, Hr. cbn [map]. change (sum []) with 0.
  repeat split; try lia. apply counts_bounded.
Qed.

(** The dashboard on the one row of the worked example. *)
Lemma dashboard_counts_add_up_witness :
  exists cards table,
    dashboard [read_row (row_values (new_row asha_record sample_clock))]
    = Ok (cards, table)
    /\ approved cards + rejected cards <= total cards
    /\ sum (map (fun kv => ts_total (snd kv)) table) = total cards
    /\ sum (map (fun kv => ts_approved (snd kv)) table) = approved cards
    /\ sum (map (fun kv => ts_rejected (snd kv)) table) = rejected cards.
Proof.
  exists {| total := 1; approved := 1; rejected := 0; total_disbursed := 400000 |},
    [(Some "Personal"%string,
      {| ts_total := 1; ts_approved := 1; ts_rejected := 0 |})].
  split; [vm_compute; reflexivity|].
  apply (dashboard_counts_add_up
           [read_row (row_values (new_row asha_record sample_clock))]).
  vm_compute; reflexivity.
Defined.

(* ------------------------------------------------------------------ *)
(** ** A sum that is not a number *)

Lemma is_nan_spec (x : float) : is_nan x = true <-> Prim2SF x = S754_nan.
Proof.
  unfold is_nan. rewrite eqb_spec. unfold SFeqb, SFcompare.
  destruct (Prim2SF x) as [s|s| |s m e].
  - destruct s; cbn; split; discriminate.
  - destruct s; cbn; split; discriminate.
  - cbn. split; reflexivity.
  - rewrite Z.compare_refl, Pos.compare_cont_refl.
    destruct s; cbn; split; discriminate.
Qed.

Lemma is_nan_add (x y : float) :
  is_nan x = true \/ is_nan y = true -> is_nan (x + y) = true.
Proof.
  rewrite !is_nan_spec, add_spec. unfold SF64add, SFadd.
  intros [H|H]; rewrite H; [reflexivity|].
  destruct (Prim2SF x) as [[]|[]| |[] ? ?]; reflexivity.
Qed.

Lemma add_disbursed_nan (acc t : float) (r : list (string * pyval)) :
  is_nan acc = true -> add_disbursed acc r = Ok t -> is_nan t = true.
Proof.
  unfold add_disbursed. intros Hacc.
  destruct (is_approved r); [|intros [= <-]; exact Hacc].
  destruct (py_float _) as [amount|[]]; try discriminate.
  - intros [= <-]. apply is_nan_add. left. exact Hacc.
  - intros [= <-]. exact Hacc.
Qed.

Lemma sum_disbursed_nan (rows : list (list (string * pyval))) :
  forall acc t : float,
  is_nan acc = true -> sum_disbursed acc rows = Ok t -> is_nan t = true.
Proof.
  induction rows as [|r rows IH]; intros acc t Hacc; cbn [sum_disbursed].
  - intros [= <-]. exact Hacc.
  - destruct (add_disbursed acc r) as [acc'|e] eqn:Hadd; [|discriminate].
    cbn [bind]. apply IH. exact (add_disbursed_nan acc acc' r Hacc Hadd).
Qed.

(** X13: one approved row whose amount reads as a NaN (the text [nan],
    which the program itself writes for an application of that amount)
    is enough for the dashboard to raise instead of showing its page,
    whatever the other rows are: the sum of the amounts is then a NaN,
    which [int()] refuses. *)
Theorem dashboard_raises_on_nan_amount (rows : list (list (string * pyval)))
    (r : list (string * pyval)) (amount : float) :
  In r rows ->
  is_approved r = true ->
  py_float (py_or (row_get r "Loan_Amount" PyNone) (PyInt 0)) = Ok amount ->
  is_nan amount = true ->
  exists e, dashboard rows = Raise e.
Proof.
  intros Hin Hap Hfl Hnan. unfold dashboard.
  assert (Hsum : forall acc t, sum_disbursed acc rows = Ok t -> is_nan t = true).
  { induction rows as [|r0 rows IH]; [destruct Hin|].
    intros acc t. cbn [sum_disbursed].
    destruct (add_disbursed acc r0) as [acc'|e] eqn:Hadd; [|discriminate].
    cbn [bind]. destruct Hin as [->|Hin].
    - apply sum_disbursed_nan.
      unfold add_disbursed in Hadd. rewrite Hap, Hfl in Hadd.
      injection Hadd as <-. apply is_nan_add. right. exact Hnan.
    - apply IH. exact Hin. }
  destruct (sum_disbursed 0 rows) as [t|e] eqn:Ht; [|exists e; reflexivity].
  cbn [bind]. unfold py_int_of_float. rewrite (Hsum _ _ Ht).
  exists ValueError. reflexivity.
Qed.

(** An application for an amount of [nan], approved and stored, and the
    dashboard on the rows read back. *)
Lemma dashboard_raises_on_nan_amount_witness :
  exists rows e,
    fst (@read_all_applications reference_libm
           (snd (@submit reference_libm (PyStr "A") (PyStr "30") (PyStr "50000")
                   (PyStr "nan") "Home" "Salaried" PyNone PyNone
                   "2024-01-01 00:00:00" None)))
    = Ok rows
    /\ dashboard rows = Raise e.
Proof.
  eexists. 
  assert (Hrows :
    fst (@read_all_applications reference_libm
           (snd (@submit reference_libm (PyStr "A") (PyStr "30") (PyStr "50000")
                   (PyStr "nan") "Home" "Salaried" PyNone PyNone
                   "2024-01-01 00:00:00" None)))
    = Ok [combine NEW_HEADER
            (map PyStr
               ["A"; "30"; "50000.0"; "nan"; "Home"; "5.0"; "Salaried"; "0.0"; "0.0";
                "770"; "5.0"; "nan"; "Approved"; "2024-01-01 00:00:00";
                "Excellent debt-to-income ratio. Stable salaried employment. Credit score and DTI within acceptable range.";
                "Approved"])])
    by (vm_compute; reflexivity).
  rewrite Hrows.
  match goal with
  | |- exists e, Ok [?row] = Ok _ /\ _ =>
      destruct (dashboard_raises_on_nan_amount [row] row nan
                  (or_introl eq_refl) eq_refl eq_refl eq_refl) as [e He];
      exists e; split; [reflexivity | exact He]
  end.
Defined.

(** X14: the pages of approved and of rejected applications share no
    row, and together show at most the rows read. *)
Theorem status_pages_disjoint (rows : list (list (string * pyval))) :
  Forall (fun r => is_rejected r = false) (approved_rows rows)
  /\ Forall (fun r => is_approved r = false) (rejected_rows rows)
  /\ (List.length (approved_rows rows) + List.length (rejected_rows rows)
      <= List.length rows)%nat.
Proof.
  unfold approved_rows, rejected_rows. repeat split.
  - apply Forall_forall. intros r Hr. apply filter_In in Hr.
    apply approved_not_rejected. exact (proj2 Hr).
  - apply Forall_forall. intros r Hr. apply filter_In in Hr.
    destruct (is_approved r) eqn:Eap; [|reflexivity].
    rewrite (approved_not_rejected r Eap) in Hr. destruct Hr as [_ Hr].
    discriminate Hr.
  - pose proof (counts_bounded rows) as H. unfold count_if in H. lia.
Qed.

(* ------------------------------------------------------------------ *)
(** ** An applicant without income *)



(* ------------------------------------------------------------------ *)
(** ** The store, written and read back *)

(** X7: what the writer writes, the reader reads back: the lines written
    for a list of rows are read as the same number of records, each with
    the texts of the fields of its row, in order and without an error,
    whatever delimiters, quotes and line breaks the texts hold, when no
    text is longer than the reader's field limit. *)
Theorem writer_reader_round_trip (rows : list (list pyval)) :
  Forall row_within_limit rows ->
  Csv.reader (concat_text (map Csv.writerow rows))
  = (map (map Csv.field_text) rows, None).
Proof. exact (reader_written_rows rows). Qed.

Lemma writer_reader_round_trip_witness :
  Csv.reader (concat_text (map Csv.writerow awkward_rows))
  = (map (map Csv.field_text) awkward_rows, None).
Proof.
  apply (writer_reader_round_trip awkward_rows).
  repeat constructor; vm_compute; discriminate.
Defined.

(** X8: [read_all_applications] on a store the program wrote (the header
    line and one written line per row of sixteen fields) returns the rows
    in order, every column with the text of its field, and leaves the
    store as it is. *)
Theorem read_all_written_store `{LibM} (rows : list (list pyval)) :
  Forall current_row rows ->
  read_all_applications (Some (written_store rows))
  = (Ok (map read_row rows), Some (written_store rows)).
Proof. exact (read_all_written rows). Qed.

Lemma read_all_written_store_witness :
  @read_all_applications reference_libm
    (Some (written_store [row_values (new_row asha_record sample_clock)]))
  = (Ok [read_row (row_values (new_row asha_record sample_clock))],
     Some (written_store [row_values (new_row asha_record sample_clock)])).
Proof.
  apply (@read_all_written_store reference_libm
           [row_values (new_row asha_record sample_clock)]).
  repeat constructor; vm_compute; discriminate.
Defined.

(** X9: a submission whose evaluation succeeds, made on a store that is
    absent, empty or as the program wrote it, returns the decision and
    leaves the store the program would have written for the earlier rows
    and the new one; [read_all_applications] then returns the earlier rows
    followed by the new one. The texts the user typed and the clock's text
    must be within the reader's field limit. *)
Theorem submit_appends `{LibM}
    (form_name form_age form_income form_loan_amount : pyval)
    (form_loan_type form_employment : string)
    (form_existing_debt form_tenure_years : pyval)
    (now_str : string) (fs : store) (rows : list (list pyval)) (d : decision_data) :
  evaluate_application form_name form_age form_income form_loan_amount
    form_loan_type form_employment (py_or form_existing_debt (PyInt 0))
    (py_or form_tenure_years (PyInt DEFAULT_TENURE_YEARS)) = Ok d ->
  within_limit (Csv.field_text form_name) ->
  within_limit form_loan_type ->
  within_limit form_employment ->
  within_limit now_str ->
  within_limit (str_of_int (age d)) ->
  Forall current_row rows ->
  store_holds fs rows ->
  let row := row_values (new_row d now_str) in
  submit form_name form_age form_income form_loan_amount form_loan_type
    form_employment form_existing_debt form_tenure_years now_str fs
  = (Ok d, Some (written_store (rows ++ [row])))
  /\ read_all_applications (Some (written_store (rows ++ [row])))
     = (Ok (map read_row rows ++ [read_row row])%list,
        Some (written_store (rows ++ [row]))).
Proof.
  exact (submit_store form_name form_age form_income form_loan_amount
           form_loan_type form_employment form_existing_debt form_tenure_years
           now_str fs rows d).
Qed.

(** The worked example, submitted where no file exists yet. *)
Lemma submit_appends_witness :
  @submit reference_libm (PyStr "Asha") (PyStr "30") (PyStr "100000")
    (PyStr "400000") "Personal" "Salaried" (PyStr "10000") (PyStr "5")
    sample_clock None
  = (Ok asha_record,
     Some (written_store [row_values (new_row asha_record sample_clock)]))
  /\ @read_all_applications reference_libm
       (Some (written_store [row_values (new_row asha_record sample_clock)]))
     = (Ok [read_row (row_values (new_row asha_record sample_clock))],
        Some (written_store [row_values (new_row asha_record sample_clock)])).
Proof.
  apply (@submit_appends reference_libm (PyStr "Asha") (PyStr "30")
           (PyStr "100000") (PyStr "400000") "Personal" "Salaried"
           (PyStr "10000") (PyStr "5") sample_clock None [] asha_record).
  - vm_compute; reflexivity.
  - vm_compute; discriminate.
  - vm_compute; discriminate.
  - vm_compute; discriminate.
  - vm_compute; discriminate.
  - vm_compute; discriminate.
  - constructor.
  - right; split; [left|]; reflexivity.
Defined.

Lemma count_if_snoc {A : Type} (f : A -> bool) (rows : list A) (r : A) :
  count_if f (rows ++ [r]) = count_if f rows + (if f r then 1 else 0).
Proof.
  unfold count_if. rewrite filter_app, length_app. cbn [filter].
  destruct (f r); cbn [List.length]; lia.
Qed.

Lemma read_all_nothing `{LibM} (fs : store) :
  fs = None \/ fs = Some EmptyString ->
  fst (read_all_applications fs) = Ok [].
Proof. intros [-> | ->]; reflexivity. Qed.

(** X15: a submission shows up on the statistics page under its
    decision: with the store and the form as for an appended submission,
    the rows read after it are one more than those read before it, the
    count of approved goes up by one for an approved application and not
    at all for a rejected one, and the count of rejected the other way
    round. *)
Theorem submission_is_counted `{LibM}
    (form_name form_age form_income form_loan_amount : pyval)
    (form_loan_type form_employment : string)
    (form_existing_debt form_tenure_years : pyval)
    (now_str : string) (fs : store) (rows : list (list pyval)) (d : decision_data) :
  evaluate_application form_name form_age form_income form_loan_amount
    form_loan_type form_employment (py_or form_existing_debt (PyInt 0))
    (py_or form_tenure_years (PyInt DEFAULT_TENURE_YEARS)) = Ok d ->
  within_limit (Csv.field_text form_name) ->
  within_limit form_loan_type ->
  within_limit form_employment ->
  within_limit now_str ->
  within_limit (str_of_int (age d)) ->
  Forall current_row rows ->
  store_holds fs rows ->
  exists before after : list (list (string * pyval)),
    fst (read_all_applications fs) = Ok before
    /\ fst (read_all_applications
              (snd (submit form_name form_age form_income form_loan_amount
                      form_loan_type form_employment form_existing_debt
                      form_tenure_years now_str fs))) = Ok after
    /\ status_total (stats after) = status_total (stats before) + 1
    /\ status_approved (stats after)
       = status_approved (stats before)
         + match decision d with Approved => 1 | Rejected => 0 end
    /\ status_rejected (stats after)
       = status_rejected (stats before)
         + match decision d with Approved => 0 | Rejected => 1 end.
Proof.
  intros Hev Hname Hlt Hemp Hnow Hage Hrows Hfs.
  destruct (submit_store form_name form_age form_income form_loan_amount
              form_loan_type form_employment form_existing_debt
              form_tenure_years now_str fs rows d
              Hev Hname Hlt Hemp Hnow Hage Hrows Hfs) as [Hsub Hread].
  cbn zeta in Hsub, Hread.
  exists (map read_row rows),
    (map read_row rows ++ [read_row (row_values (new_row d now_str))])%list.
  split.
  { destruct Hfs as [-> | [Hno ->]].
    - rewrite (read_all_written rows Hrows). reflexivity.
    - apply read_all_nothing. exact Hno. }
  split; [rewrite Hsub; cbn [snd]; rewrite Hread; reflexivity|].
  unfold stats. cbn [status_total status_approved status_rejected].
  rewrite !count_if_snoc, length_app. cbn [List.length].
  repeat split.
  - lia.
  - destruct (decision d) eqn:Hd; unfold is_approved, status_lower, read_row,
      row_values, new_row; rewrite Hd; reflexivity.
  - destruct (decision d) eqn:Hd; unfold is_rejected, status_lower, read_row,
      row_values, new_row; rewrite Hd; reflexivity.
Qed.

Lemma submission_is_counted_witness :
  exists before after : list (list (string * pyval)),
    fst (@read_all_applications reference_libm None) = Ok before
    /\ fst (@read_all_applications reference_libm
              (snd (@submit reference_libm (PyStr "Asha") (PyStr "30")
                      (PyStr "100000") (PyStr "400000") "Personal" "Salaried"
                      (PyStr "10000") (PyStr "5") sample_clock None))) = Ok after
    /\ status_total (stats after) = status_total (stats before) + 1
    /\ status_approved (stats after) = status_approved (stats before) + 1
    /\ status_rejected (stats after) = status_rejected (stats before) + 0.
Proof.
  apply (@submission_is_counted reference_libm (PyStr "Asha") (PyStr "30")
           (PyStr "100000") (PyStr "400000") "Personal" "Salaried"
           (PyStr "10000") (PyStr "5") sample_clock None [] asha_record).
  - vm_compute; reflexivity.
  - vm_compute; discriminate.
  - vm_compute; discriminate.
  - vm_compute; discriminate.
  - vm_compute; discriminate.
  - vm_compute; discriminate.
  - constructor.
  - right; split; [left|]; reflexivity.
Defined.

(** ** The calculator and the engine on examples *)


Lemma calculate_emi_fail_soft_witness :
  @calculate_emi reference_libm (PyStr "abc") (PyInt 5) PyNone = Ok 0%float.
Proof.
  apply (@calculate_emi_fail_soft reference_libm (PyStr "abc") (PyInt 5) PyNone).
  - intros x [<- | [<- | [<- | []]]].
    + left; left; reflexivity.
    + right; eexists; reflexivity.
    + left; right; reflexivity.
  - exists (PyStr "abc"); split; [left; reflexivity | left; reflexivity].
Defined.

Lemma calculate_emi_no_period_witness :
  @calculate_emi reference_libm (PyInt 100000) (PyFloat 8.5%float)
    (PyFloat (-2)%float) = Ok 0%float.
Proof.
  apply (@calculate_emi_no_period reference_libm (PyInt 100000)
           (PyFloat 8.5%float) (PyFloat (-2)%float) 100000%float 8.5%float
           (-2)%float (-24)).
  - vm_compute; reflexivity.
  - reflexivity.
  - reflexivity.
  - vm_compute; reflexivity.
  - lia.
Defined.

Lemma evaluate_application_emi_only_if_approved_witness :
  decision asha_record = Approved.
Proof.
  apply (@evaluate_application_emi_only_if_approved reference_libm
           (PyStr "Asha") (PyStr "30") (PyStr "100000") (PyStr "400000")
           "Personal" "Salaried" (PyStr "10000") (PyStr "5") asha_record).
  - vm_compute; reflexivity.
  - intros H. apply (f_equal (fun x => PrimFloat.eqb x 0)) in H.
    vm_compute in H. discriminate H.
Defined.
